(** * SQUID decision pipeline: a shallow embedding of the Python sources

    Embedded files (all under [python-ia/]):
    - [squid_formulas.py]: [SuperRelationCalculator], [CorrelationCalculator],
      [PolicyCalculator];
    - [decision_engine.py]: [plan_rotations];
    - [ipc_daemon.py]: [sanitize], [_compute_ai_explanation], [handle_decide]
      and the process-wide [ENTROPY_BUDGET];
    - [squid_model.py]: [SquidModel._apply_policy_constraints].

    Python [int] is [Z].  Python [float] is IEEE-754 binary64 with
    round-to-nearest-even, modelled exactly in [PyFloat] below.  Exceptions
    are values of an error monad.  The C library functions behind
    [math.exp], [math.log], [math.log1p] and float [**], and the two
    Mersenne-Twister shuffles ([random.Random(seed).shuffle] and
    [numpy.random.shuffle]) are not part of the repository: they are
    interfaces ([PyMath], [RandomSource]) over which every theorem
    quantifies. *)

From Stdlib Require Import ZArith List Bool Lia Permutation Sorted String.
From Stdlib Require Import Floats.
From Stdlib Require Import Ascii Recdef.
Import ListNotations.
Local Open Scope Z_scope.

(** ** Python exceptions as an error monad *)

Inductive exn : Type :=
| KeyError
| ZeroDivisionError
| OverflowError
| ValueError
| TypeError
| IndexError.

Inductive result (A : Type) : Type :=
| Ok (a : A)
| Raise (e : exn).
Arguments Ok {A} a.
Arguments Raise {A} e.

Definition bind {A B : Type} (r : result A) (k : A -> result B) : result B :=
  match r with
  | Ok a => k a
  | Raise e => Raise e
  end.

Notation "x <- r ;; k" := (bind r (fun x => k))
  (at level 61, r at next level, right associativity).

(** Whether a computation returned. *)
Definition returns {A : Type} (r : result A) : bool :=
  match r with
  | Ok _ => true
  | Raise _ => false
  end.

(** [try: r except Exception: d] *)
Definition try_except {A : Type} (r : result A) (d : A) : A :=
  match r with
  | Ok a => a
  | Raise _ => d
  end.

(** ** Binary64 floating point

    A finite binary64 number is an integer multiple of [2^-1074], so a
    finite float is stored as that multiple: [Fin N] stands for
    [N * 2^-1074].  The representable multiples are those with at most 53
    significant bits and magnitude below [2^1024] (that is, [2^2098]
    units).  The two zeros are identified: the embedded code compares
    zeros equal, raises on every division by a zero and never reads a
    sign bit. *)
Module PyFloat.

Inductive float : Type :=
| NaN
| Inf (neg : bool)
| Fin (N : Z).

(** One unit in the last place of the subnormal range, as a divisor. *)
Definition scale : Z := Eval vm_compute in 2 ^ 1074.
(** [2^1024], the overflow threshold, in units. *)
Definition huge : Z := Eval vm_compute in 2 ^ 2098.

(** Exponent (in units) of the last place of a magnitude [q >= 0]. *)
Definition expo (q : Z) : Z := Z.max 0 (Z.log2 q - 52).

(** Nearest integer to [a / d], ties to even ([0 <= a], [0 < d]). *)
Definition rne (a d : Z) : Z :=
  let q := a / d in
  let r := a mod d in
  match 2 * r ?= d with
  | Lt => q
  | Gt => q + 1
  | Eq => if Z.even q then q else q + 1
  end.

(** Nearest 53-bit multiple to [a / b] ([0 <= a], [0 < b]). *)
Definition round_pos (a b : Z) : Z :=
  let k := expo (a / b) in
  rne a (b * 2 ^ k) * 2 ^ k.

(** [round_pos] as it is run: one division (a shift when [b] is a power
    of two), then shifts and masks.  [PyFloatFacts.round_fast_eq] proves
    the two equal. *)
Definition div_eucl_fast (a b : Z) : Z * Z :=
  let k := Z.log2 b in
  if b =? Z.shiftl 1 k then (Z.shiftr a k, Z.land a (Z.ones k))
  else Z.div_eucl a b.

Definition round_fast (a b : Z) : Z :=
  let '(q0, r0) := div_eucl_fast a b in
  let k := expo q0 in
  let q := Z.shiftr q0 k in
  let r := b * Z.land q0 (Z.ones k) + r0 in
  let d := Z.shiftl b k in
  let n := match 2 * r ?= d with
           | Lt => q
           | Gt => q + 1
           | Eq => if Z.even q then q else q + 1
           end in
  Z.shiftl n k.

(** The float nearest to the rational [a / b] units ([0 < b]). *)
Definition rnd (a b : Z) : float :=
  let n := round_fast (Z.abs a) b in
  if huge <=? n then Inf (a <? 0) else Fin (Z.sgn a * n).

(** A decimal literal [num / den], as the Python parser rounds it. *)
Definition literal (num den : Z) : float := rnd (num * scale) den.

Arguments round_fast : simpl never.
Arguments rnd : simpl never.
Arguments literal : simpl never.

(** Representable magnitudes and well-formed floats. *)
Definition repr (N : Z) : bool :=
  (Z.abs N <? huge) && (Z.abs N mod 2 ^ expo (Z.abs N) =? 0).

Definition valid (x : float) : bool :=
  match x with
  | Fin N => repr N
  | _ => true
  end.

Definition is_nan (x : float) : bool :=
  match x with NaN => true | _ => false end.
Definition is_inf (x : float) : bool :=
  match x with Inf _ => true | _ => false end.
Definition is_finite (x : float) : bool :=
  match x with Fin _ => true | _ => false end.

(** Comparisons: every comparison with a NaN is false. *)
Definition flt (x y : float) : bool :=
  match x, y with
  | NaN, _ | _, NaN => false
  | Inf sx, Inf sy => sx && negb sy
  | Inf sx, Fin _ => sx
  | Fin _, Inf sy => negb sy
  | Fin a, Fin b => a <? b
  end.

Definition feq (x y : float) : bool :=
  match x, y with
  | NaN, _ | _, NaN => false
  | Inf sx, Inf sy => Bool.eqb sx sy
  | Fin a, Fin b => a =? b
  | _, _ => false
  end.

Definition fle (x y : float) : bool := flt x y || feq x y.
Definition fgt (x y : float) : bool := flt y x.
Definition fge (x y : float) : bool := fle y x.

Definition fneg (x : float) : float :=
  match x with
  | NaN => NaN
  | Inf s => Inf (negb s)
  | Fin a => Fin (- a)
  end.

Definition fabs (x : float) : float :=
  match x with
  | NaN => NaN
  | Inf _ => Inf false
  | Fin a => Fin (Z.abs a)
  end.

Definition fadd (x y : float) : float :=
  match x, y with
  | NaN, _ | _, NaN => NaN
  | Inf sx, Inf sy => if Bool.eqb sx sy then Inf sx else NaN
  | Inf sx, Fin _ => Inf sx
  | Fin _, Inf sy => Inf sy
  | Fin a, Fin b => rnd (a + b) 1
  end.

Definition fsub (x y : float) : float := fadd x (fneg y).

Definition fmul (x y : float) : float :=
  match x, y with
  | NaN, _ | _, NaN => NaN
  | Inf sx, Inf sy => Inf (xorb sx sy)
  | Inf sx, Fin b => if b =? 0 then NaN else Inf (xorb sx (b <? 0))
  | Fin a, Inf sy => if a =? 0 then NaN else Inf (xorb (a <? 0) sy)
  | Fin a, Fin b => rnd (a * b) scale
  end.

(** Float division; Python raises [ZeroDivisionError] on a zero divisor
    whatever the dividend. *)
Definition fdiv (x y : float) : result float :=
  match x, y with
  | _, Fin 0 => Raise ZeroDivisionError
  | NaN, _ | _, NaN => Ok NaN
  | Inf _, Inf _ => Ok NaN
  | Inf sx, Fin b => Ok (Inf (xorb sx (b <? 0)))
  | Fin _, Inf _ => Ok (Fin 0)
  | Fin a, Fin b => Ok (rnd (Z.sgn b * a * scale) (Z.abs b))
  end.

(** [float(n)] for an [int]: correctly rounded, [OverflowError] when the
    rounded magnitude reaches [2^1024]. *)
Definition of_int (n : Z) : result float :=
  match rnd (n * scale) 1 with
  | Fin N => Ok (Fin N)
  | _ => Raise OverflowError
  end.

(** [a / b] on two [int]s: the correctly rounded quotient. *)
Definition int_truediv (a b : Z) : result float :=
  if b =? 0 then Raise ZeroDivisionError
  else match rnd (Z.sgn b * a * scale) (Z.abs b) with
       | Fin N => Ok (Fin N)
       | _ => Raise OverflowError
       end.

(** [int(x)]: truncation toward zero. *)
Definition to_int (x : float) : result Z :=
  match x with
  | NaN => Raise ValueError
  | Inf _ => Raise OverflowError
  | Fin N => Ok (Z.quot N scale)
  end.

(** [math.ceil(x)]. *)
Definition ceil (x : float) : result Z :=
  match x with
  | NaN => Raise ValueError
  | Inf _ => Raise OverflowError
  | Fin N => Ok (- ((- N) / scale))
  end.

(** The builtins [min(a, b)] and [max(a, b)]: the first argument is kept
    unless the second compares strictly smaller (larger). *)
Definition py_min (a b : float) : float := if flt b a then b else a.
Definition py_max (a b : float) : float := if fgt b a then b else a.

(** Reading a kernel float, used to cross-check [rnd] against the
    hardware operations. *)
Definition of_prim (f : PrimFloat.float) : float :=
  match Prim2SF f with
  | S754_zero _ => Fin 0
  | S754_infinity s => Inf s
  | S754_nan => NaN
  | S754_finite s m e =>
      let n := Z.pos m * 2 ^ (e + 1074) in Fin (if s then - n else n)
  end.

End PyFloat.
Import PyFloat.

(** ** Interfaces to code outside the repository *)

(** The [math] module and float [**], as the sources call them.  A
    [Raise] is the exception CPython raises ([OverflowError] on a result
    out of range, [ValueError] on a domain error, [ZeroDivisionError] on
    [0.0 ** negative]).  [float_pow] is only consulted for a base that is
    not negative; a negative base with a fractional exponent leaves the
    floats (see [int_pow_float]). *)
Class PyMath : Type := {
  math_exp : float -> result float;
  math_log : float -> result float;
  math_log1p : float -> result float;
  float_pow : float -> float -> result float
}.

(** What the theorems about totality need of [PyMath]: where CPython does
    not raise, and that a power of a base [>= 1] with an exponent [>= 0]
    is [>= 1] whenever it is returned. *)
Class PyMathLaws (M : PyMath) : Prop := {
  exp_defined : forall x, is_finite x = true -> fle x (literal 709 1) = true ->
                exists y, math_exp x = Ok y;
  log_defined : forall x, flt (Fin 0) x = true -> exists y, math_log x = Ok y;
  pow_ge_one : forall x y, fle (literal 1 1) x = true -> fle x (literal 1024 1) = true ->
               fle (Fin 0) y = true -> fle y (literal 2 1) = true ->
               exists r, float_pow x y = Ok r /\ fle (literal 1 1) r = true;
  pow_fraction : forall x y, flt (Fin 0) x = true -> flt x (literal 1 1) = true ->
               fle (Fin 0) y = true -> is_finite y = true ->
               exists r, float_pow x y = Ok r
}.

(** The two seeded shuffles.  [random_shuffle seed l] is the content of [l]
    after [random.Random(seed).shuffle(l)]; [np_shuffle seed l] is the
    content of the array [l] after [np.random.seed(seed);
    np.random.shuffle(l)]. *)
Class RandomSource : Type := {
  random_shuffle : Z -> list Z -> list Z;
  np_shuffle : Z -> list Z -> list Z
}.

Class RandomSourceLaws (R : RandomSource) : Prop := {
  random_shuffle_perm : forall seed l, Permutation (random_shuffle seed l) l;
  np_shuffle_perm : forall seed l, Permutation (np_shuffle seed l) l
}.

(** ** Python lists and dicts *)

Definition dict : Type := list (string * Z).

Fixpoint dict_get (d : dict) (k : string) : result Z :=
  match d with
  | [] => Raise KeyError
  | (k', v) :: d' => if String.eqb k k' then Ok v else dict_get d' k
  end.

(** [list(range(n))] *)
Definition py_range (n : Z) : list Z := map Z.of_nat (seq 0 (Z.to_nat n)).

(** [l[i]] for [0 <= i] *)
Definition list_get {A : Type} (l : list A) (i : Z) : result A :=
  if i <? 0 then Raise IndexError
  else match nth_error l (Z.to_nat i) with
       | Some a => Ok a
       | None => Raise IndexError
       end.

(** [l[i] = v] for [0 <= i < len(l)] *)
Fixpoint list_set {A : Type} (l : list A) (i : nat) (v : A) : list A :=
  match l, i with
  | [], _ => []
  | _ :: l', O => v :: l'
  | a :: l', S i' => a :: list_set l' i' v
  end.

Fixpoint mapM {A B : Type} (f : A -> result B) (l : list A) : result (list B) :=
  match l with
  | [] => Ok []
  | a :: l' => b <- f a ;; bs <- mapM f l' ;; Ok (b :: bs)
  end.

(** [sorted(l)] on a list of [int]s. *)
Fixpoint insert_sorted (x : Z) (l : list Z) : list Z :=
  match l with
  | [] => [x]
  | y :: l' => if x <=? y then x :: l else y :: insert_sorted x l'
  end.

Definition py_sorted (l : list Z) : list Z := fold_right insert_sorted [] l.

(** [["X"] * k]: empty for [k <= 0]. *)
Definition py_repeat {A : Type} (a : A) (k : Z) : list A := repeat a (Z.to_nat k).

(** ** squid_formulas.py *)
Module Formulas.

Definition f0 : float := Fin 0.
Definition f1 : float := literal 1 1.

(** The normalisation both calculators end with:
    [sigmoid(scale * log1p(|raw|) * sign(raw))] clamped to [[0,1]], and
    [0.0] on any exception. *)
Definition clamp01 (x : float) : float := py_max f0 (py_min f1 x).

(** The attributes [SuperRelationCalculator.__init__] sets (defaults
    [P_max=4], [alpha=1.5]). *)
Module SR.
Definition P_max : Z := 4.
Definition alpha : float := literal 15 10.
Definition beta : float := literal 12 100.
Definition lam : float := literal (-1) 10.
Definition normalize_scale : float := literal 1 1.
Definition eps : float := literal 1 (10 ^ 12).
End SR.

(** The attributes [CorrelationCalculator.__init__] sets (defaults
    [a=0.5], [P=0.1]). *)
Module CC.
Definition a : float := literal 5 10.
Definition P : float := literal 1 10.
Definition normalize_scale : float := literal 1 1.
Definition eps : float := literal 1 (10 ^ 12).
End CC.

Section WithMath.
Context {M : PyMath}.

Definition normalize_body (normalize_scale raw : float) : result float :=
  l <- math_log1p (fabs raw) ;;
  let norm_input := fmul l (if fge raw f0 then f1 else literal (-1) 1) in
  let s := py_max (literal 1 1000) normalize_scale in
  e <- math_exp (fmul (fneg s) (fsub norm_input f0)) ;;
  normalized <- fdiv f1 (fadd f1 e) ;;
  Ok (clamp01 normalized).

Definition normalize (normalize_scale raw : float) : float :=
  try_except (normalize_body normalize_scale raw) f0.

(** *** SuperRelationCalculator *)

Definition _g_function (b : Z) : result float :=
  if b <=? 0 then Ok f0
  else
    fb <- of_int b ;;
    b' <- of_int b ;;
    l <- math_log (fadd b' f1) ;;
    let result := fmul fb l in
    Ok (if fle result f0 then literal 1 10000 else result).

(** One round of the summation loop: [component3 += exp_term / denom]. *)
Definition sum_step (component3 : float) (p : Z) : result float :=
  P <- int_truediv p SR.P_max ;;
  let prob_term := fadd (fmul P (fsub f1 P)) SR.eps in
  pf <- of_int p ;;
  exp_term <- math_exp (fmul SR.lam pf) ;;
  pw <- float_pow pf SR.alpha ;;
  let denom := fmul pw prob_term in
  q <- fdiv exp_term denom ;;
  Ok (fadd component3 q).

Fixpoint sum_loop (component3 : float) (ps : list Z) : result float :=
  match ps with
  | [] => Ok component3
  | p :: ps' => c <- sum_step component3 p ;; sum_loop c ps'
  end.

(** Called under the guard [m > 0] of [calculate], where [b ** m] is the
    integer power. *)
Definition _calculate_full_formula (b m t : Z) : result float :=
  let L := b ^ m in
  if L <=? 0 then Ok f1
  else
    component1 <- int_truediv (2 * t) L ;;
    m1 <- of_int (m - 1) ;;
    component2 <- math_exp (fmul SR.beta m1) ;;
    component3 <- sum_loop f0 (map (fun i => i + 1) (py_range SR.P_max)) ;;
    component4 <- _g_function b ;;
    Ok (fmul (fmul (fmul component1 component2) component3) component4).

Definition simplified_body (b m t : Z) : result float :=
  let L := b ^ m in
  if L <=? 0 then Ok f1
  else
    q <- int_truediv t L ;;
    bf <- of_int b ;;
    mf <- of_int m ;;
    sr_simple <- fdiv (fmul q (fadd f1 bf)) (fadd f1 mf) ;;
    if is_inf sr_simple || is_nan sr_simple || flt sr_simple f0 then Ok f1
    else Ok sr_simple.

Definition _calculate_simplified_formula (b m t : Z) : float :=
  try_except (simplified_body b m t) f1.

(** [SuperRelationCalculator.calculate] *)
Definition SR_calculate (params : dict) : result float :=
  b <- dict_get params "b" ;;
  m <- dict_get params "m" ;;
  t <- dict_get params "t" ;;
  if (b <=? 0) || (m <=? 0) || (t <=? 0) then Ok f1
  else
    raw <- _calculate_full_formula b m t ;;
    let raw :=
      if negb (is_finite raw) || flt raw f0 || fgt raw (literal (10 ^ 9) 1)
      then _calculate_simplified_formula b m t
      else raw in
    Ok (normalize SR.normalize_scale raw).

(** *** CorrelationCalculator *)

(** A number that is a float or has left the floats for the complex
    plane; nothing below reads a complex value. *)
Inductive pynum : Type :=
| PFloat (x : float)
| PComplex.

(** [b ** a] for an [int] base and the fractional float exponent [a]:
    the base is converted first; a negative base gives a complex number. *)
Definition int_pow_float (b : Z) (a : float) : result pynum :=
  bf <- of_int b ;;
  if b <? 0 then Ok PComplex
  else r <- float_pow bf a ;; Ok (PFloat r).

(** [CorrelationCalculator.calculate(params)] with [d = None]. *)
Definition C_calculate (params : dict) : result float :=
  b <- dict_get params "b" ;;
  m <- dict_get params "m" ;;
  t <- dict_get params "t" ;;
  let d := m in
  tf <- of_int t ;;
  pw <- int_pow_float b CC.a ;;
  bm <- of_int (b * m) ;;
  df <- of_int (2 * d + 1) ;;
  pd <- float_pow CC.P df ;;
  let denom := py_max CC.eps pd in
  match pw with
  | PComplex =>
      (* [raw] is complex: [raw >= 0] raises TypeError inside the try *)
      Ok f0
  | PFloat pw =>
      let numerator := fmul (fmul tf pw) bm in
      raw <- fdiv numerator denom ;;
      Ok (normalize CC.normalize_scale raw)
  end.

End WithMath.

(** [key in params] *)
Definition dict_mem (d : dict) (k : string) : bool :=
  existsb (fun kv => String.eqb k (fst kv)) d.

(** [validate_branching_params]: the accepted ranges of [b], [m], [t]. *)
Definition validate_branching_params (params : dict) : result bool :=
  if negb (forallb (dict_mem params) ["b"; "m"; "t"]%string) then Ok false
  else
    b <- dict_get params "b" ;;
    m <- dict_get params "m" ;;
    t <- dict_get params "t" ;;
    if (b <? 2) || (b >? 16) then Ok false
    else if (m <? 1) || (m >? 8) then Ok false
    else if (t <? 64) || (t >? 512) then Ok false
    else
      let total_leaves := b ^ m in
      if total_leaves >? 10000 then Ok false
      else Ok true.

(** *** PolicyCalculator (defaults [sr_min=1.0], [gamma_t=10.0]) *)
Inductive action : Type := VALID | DECOY | MUTATE | REASSIGN.

Definition action_eqb (x y : action) : bool :=
  match x, y with
  | VALID, VALID | DECOY, DECOY | MUTATE, MUTATE | REASSIGN, REASSIGN => true
  | _, _ => false
  end.

Definition sr_min : float := literal 1 1.
Definition gamma_t : float := literal 10 1.

(** Quotient by a divisor that is a non-zero constant. *)
Definition fquot (x y : float) : float := try_except (fdiv x y) NaN.

Definition _clamp (value min_val max_val : float) : float :=
  py_max min_val (py_min max_val value).

Definition calculate_decoy_rate (sr c : float) : float :=
  if fge sr sr_min && fge c gamma_t then
    let base_rate := literal 2 10 in
    let scale_factor :=
      py_min (literal 25 10) (fquot (fadd sr (fquot c gamma_t)) (literal 10 1)) in
    let decoy_rate := fmul base_rate scale_factor in
    _clamp decoy_rate (literal 2 10) (literal 5 10)
  else
    let base_rate := literal 1 100 in
    let scale_factor := py_min (literal 10 1) (fadd sr (fquot c gamma_t)) in
    let decoy_rate := fmul base_rate scale_factor in
    _clamp decoy_rate (literal 1 100) (literal 1 10).

(** [np.random.seed(seed)] accepts the integers of [[0, 2^32)]. *)
Definition np_random_seed (seed : Z) : result unit :=
  if (0 <=? seed) && (seed <? 2 ^ 32) then Ok tt else Raise ValueError.

(** [int(num_leaves * rate)] *)
Definition scaled_count (num_leaves : Z) (rate : float) : result Z :=
  nf <- of_int num_leaves ;;
  to_int (fmul nf rate).

Section WithRandom.
Context {R : RandomSource}.

(** [PolicyCalculator.generate_actions].  With a seed the shuffled list
    holds [actions[old_pos]] at each [new_pos] of the shuffled
    [np.arange(num_leaves)]. *)
Definition generate_actions (num_leaves : Z) (sr c : float) (seed : option Z)
  : result (list action) :=
  _ <- match seed with Some s => np_random_seed s | None => Ok tt end ;;
  let decoy_rate := calculate_decoy_rate sr c in
  num_decoy <- scaled_count num_leaves decoy_rate ;;
  num_mutate <- (if fge sr sr_min then scaled_count num_leaves (literal 5 100) else Ok 0) ;;
  num_reassign <- (if flt sr sr_min then scaled_count num_leaves (literal 5 100) else Ok 0) ;;
  let num_valid := num_leaves - num_decoy - num_mutate - num_reassign in
  let actions := py_repeat DECOY num_decoy ++ py_repeat MUTATE num_mutate
                 ++ py_repeat REASSIGN num_reassign ++ py_repeat VALID num_valid in
  match seed with
  | Some s =>
      let indices := np_shuffle s (py_range num_leaves) in
      mapM (list_get actions) indices
  | None => Ok actions
  end.

End WithRandom.
End Formulas.
Import Formulas.

(** ** decision_engine.py *)
Module DecisionEngine.

Record rotation_plan : Type := {
  rotation_percentage : float;
  rotation_count : Z;
  indices : list Z;
  risk : float
}.

(** [risk = (1.0 - sr_norm) * 0.6 + c_norm * 0.4] *)
Definition risk_of (sr_norm c_norm : float) : float :=
  fadd (fmul (fsub f1 sr_norm) (literal 6 10)) (fmul c_norm (literal 4 10)).

(** [pct = 0.03 + (0.20 - 0.03) * min(1.0, max(0.0, risk))] *)
Definition pct_of (risk : float) : float :=
  fadd (literal 3 100)
       (fmul (fsub (literal 20 100) (literal 3 100)) (py_min f1 (py_max f0 risk))).

(** [count = max(1, int(math.ceil(num_leaves * pct)))] *)
Definition count_of (num_leaves : Z) (pct : float) : result Z :=
  nf <- of_int num_leaves ;;
  k <- ceil (fmul nf pct) ;;
  Ok (Z.max 1 k).

Section WithRandom.
Context {R : RandomSource}.

Definition plan_rotations (num_leaves : Z) (sr_norm c_norm : float) (seed : option Z)
  : result rotation_plan :=
  let rnd_seed := match seed with Some s => s | None => 0 end in
  let risk := risk_of sr_norm c_norm in
  let pct := pct_of risk in
  count <- count_of num_leaves pct ;;
  let indices := py_range num_leaves in
  let indices := random_shuffle rnd_seed indices in
  let selected := py_sorted (firstn (Z.to_nat count) indices) in
  Ok {| rotation_percentage := pct;
        rotation_count := count;
        indices := selected;
        risk := risk |}.

End WithRandom.
End DecisionEngine.
Import DecisionEngine.

(** ** ipc_daemon.py *)
Module IpcDaemon.

(** The initial value of the global [ENTROPY_BUDGET]. *)
Definition ENTROPY_BUDGET : float := literal 100 1.

(** [sanitize] on a float: NaN and the infinities become [0.0]. *)
Definition sanitize (value : float) : float :=
  if is_nan value || is_inf value then f0 else value.

Inductive decision_label : Type := HOLD_STATE | MUTATE_TREE | INSERT_DECOY.

Inductive driver : Type :=
| fingerprint_drift
| entropy_spike
| low_temporal_coherence
| stable_conditions.

Record explanation : Type := {
  e_decision : decision_label;
  e_confidence : float;
  e_drivers : list driver
}.

Definition _compute_ai_explanation (sr c : float) (plan : rotation_plan) : explanation :=
  let risk := risk plan in
  let rotation_count := rotation_count plan in
  let drivers :=
    (if flt sr (literal 4 10) then [fingerprint_drift] else [])
    ++ (if fgt c (literal 7 10) then [entropy_spike] else [])
    ++ (if fgt risk (literal 6 10) then [low_temporal_coherence] else []) in
  let '(decision, confidence) :=
    if (0 <? rotation_count) && fge risk (literal 4 10) then
      (MUTATE_TREE, py_min f1 (fadd (literal 7 10) (fmul risk (literal 3 10))))
    else if 0 <? rotation_count then
      (INSERT_DECOY, fadd (literal 6 10) (fmul risk (literal 2 10)))
    else (HOLD_STATE, literal 6 10) in
  let drivers := match drivers with [] => [stable_conditions] | _ => drivers end in
  {| e_decision := decision;
     e_confidence := py_max f0 (py_min f1 confidence);
     e_drivers := drivers |}.

(** A feature is a JSON object; [handle_decide] only takes the length
    of the list. *)
Definition feature : Type := list (string * float).

(** The payload of a [decide] message as the protocol types it
    ([features] absent or an array); an absent key is [None].  [Untyped]
    below is the same function on any JSON value under [features]. *)
Record payload : Type := {
  params : option dict;
  features : option (list feature);
  seed_model_hash : option string
}.

Record decision_record : Type := {
  d_sr : float;
  d_c : float;
  d_actions : list action;
  d_rotation_plan : rotation_plan;
  d_decision : decision_label;
  d_confidence : float;
  d_drivers : list driver;
  entropy_budget_remaining : float
}.

(** [locked = ENTROPY_BUDGET <= 0.0] *)
Definition locked (budget : float) : bool := fle budget f0.

(** [seed_val]: 42 when locked, [None] otherwise. *)
Definition seed_val (budget : float) : option Z :=
  if locked budget then Some 42 else None.

(** The amount [0.5 + 0.01 * float(rotation_count)]. *)
Definition consumption (rotation_count : Z) : result float :=
  cf <- of_int rotation_count ;;
  Ok (fadd (literal 5 10) (fmul (literal 1 100) cf)).

Section WithInterfaces.
Context {M : PyMath} {R : RandomSource}.

(** The metrics as [handle_decide] obtains them: both calculators under
    one [try], [0.0] for both on any exception, then [sanitize]. *)
Definition metrics (params : dict) : float * float :=
  let '(sr, c) :=
    try_except (sr <- SR_calculate params ;; c <- C_calculate params ;; Ok (sr, c))
               (f0, f0) in
  (sanitize sr, sanitize c).

(** [handle_decide payload] run with the global at [budget]: the record
    returned and the global afterwards. *)
Definition handle_decide (p : payload) (budget : float)
  : result (decision_record * float) :=
  let params := match params p with Some d => d | None => [] end in
  let features := match features p with Some l => l | None => [] end in
  let seed := seed_model_hash p in
  let '(sr, c) := metrics params in
  let locked := locked budget in
  let seed_val := seed_val budget in
  let n := Z.of_nat (List.length features) in
  actions <- generate_actions n sr c seed_val ;;
  plan <- plan_rotations n sr c seed_val ;;
  budget' <- (if negb locked
              then d <- consumption (rotation_count plan) ;; Ok (fsub budget d)
              else Ok budget) ;;
  let explanation := _compute_ai_explanation sr c plan in
  Ok ({| d_sr := sr;
         d_c := c;
         d_actions := actions;
         d_rotation_plan := plan;
         d_decision := e_decision explanation;
         d_confidence := e_confidence explanation;
         d_drivers := e_drivers explanation;
         entropy_budget_remaining := py_max f0 budget' |},
      budget').

(** One [decide] message through [process_message]: an exception leaves
    the global as it was. *)
Definition decide_step (budget : float) (p : payload) : float :=
  match handle_decide p budget with
  | Ok (_, budget') => budget'
  | Raise _ => budget
  end.

(** The global after a sequence of [decide] messages, from process start. *)
Definition run (ps : list payload) : float := fold_left decide_step ps ENTROPY_BUDGET.

(** What [run_daemon] answers to a sequence of [decide] messages, the
    global threaded through. *)
Fixpoint serve (budget : float) (ps : list payload) : list (result decision_record) :=
  match ps with
  | [] => []
  | p :: ps' =>
      match handle_decide p budget with
      | Ok (r, budget') => Ok r :: serve budget' ps'
      | Raise e => Raise e :: serve budget ps'
      end
  end.

End WithInterfaces.
End IpcDaemon.
Import IpcDaemon.

(** ** ipc_daemon.py on an untyped payload

    [IpcDaemon.payload] is the payload as the protocol types it:
    [features] absent or an array.  [json.loads] may put any JSON value
    under the key, and [handle_decide] applies [len] to whatever it
    finds; this is the same function on such a payload. *)
Module Untyped.

#[local] Unset Elimination Schemes.
(** A value as [json.loads] gives it. *)
Inductive json_value : Type :=
| json_array (items : list json_value)
| json_object (members : list (string * json_value))
| json_string (s : string)
| json_int (z : Z)
| json_float (x : float)
| json_bool (b : bool)
| json_null.
#[local] Set Elimination Schemes.

(** [len(v)]: the number of items of a list, of keys of a dict, of
    characters of a str; [TypeError] for [None], a number or a bool. *)
Definition py_len (v : json_value) : result Z :=
  match v with
  | json_array items => Ok (Z.of_nat (List.length items))
  | json_object members =>
      Ok (Z.of_nat (List.length (nodup string_dec (map fst members))))
  | json_string s => Ok (Z.of_nat (String.length s))
  | json_int _ | json_float _ | json_bool _ | json_null => Raise TypeError
  end.

(** The payload of a [decide] message; an absent key is [None]. *)
Record payload : Type := {
  params : option dict;
  features : option json_value;
  seed_model_hash : option string
}.

(** [len(features)] of a request, the default [[]] for an absent key. *)
Definition leaf_count (p : payload) : result Z :=
  py_len (match features p with Some v => v | None => json_array [] end).

Section WithInterfaces.
Context {M : PyMath} {R : RandomSource}.

(** [handle_decide payload] run with the global at [budget].  The two
    calls [len(features)] come after the metrics and before the
    deduction: when they raise, nothing has been written. *)
Definition handle_decide (p : payload) (budget : float)
  : result (decision_record * float) :=
  let params := match params p with Some d => d | None => [] end in
  let features := match features p with Some v => v | None => json_array [] end in
  let seed := seed_model_hash p in
  let '(sr, c) := metrics params in
  let locked := locked budget in
  let seed_val := seed_val budget in
  n <- py_len features ;;
  actions <- generate_actions n sr c seed_val ;;
  n' <- py_len features ;;
  plan <- plan_rotations n' sr c seed_val ;;
  budget' <- (if negb locked
              then d <- consumption (rotation_count plan) ;; Ok (fsub budget d)
              else Ok budget) ;;
  let explanation := _compute_ai_explanation sr c plan in
  Ok ({| d_sr := sr;
         d_c := c;
         d_actions := actions;
         d_rotation_plan := plan;
         d_decision := e_decision explanation;
         d_confidence := e_confidence explanation;
         d_drivers := e_drivers explanation;
         entropy_budget_remaining := py_max f0 budget' |},
      budget').

(** One [decide] message through [process_message]: an exception is
    answered with [ok: False] and leaves the global as it was. *)
Definition decide_step (budget : float) (p : payload) : float :=
  match handle_decide p budget with
  | Ok (_, budget') => budget'
  | Raise _ => budget
  end.

(** The global after a sequence of [decide] messages, from process start. *)
Definition run (ps : list payload) : float := fold_left decide_step ps ENTROPY_BUDGET.

End WithInterfaces.
End Untyped.

(** ** squid_model.py: the reconciler *)
Module SquidModel.

(** [[i for i, a in enumerate(l) if a == x]] *)
Fixpoint positions_from (i : Z) (x : action) (l : list action) : list Z :=
  match l with
  | [] => []
  | a :: l' =>
      if action_eqb a x then i :: positions_from (i + 1) x l'
      else positions_from (i + 1) x l'
  end.

Definition positions (x : action) (l : list action) : list Z := positions_from 0 x l.

(** [l.count(x)] *)
Definition py_count (x : action) (l : list action) : Z :=
  Z.of_nat (List.length (filter (fun a => action_eqb a x) l)).

(** [rate_deviation]: [abs(current - expected) / (expected + 0.01)] *)
Definition rate_deviation (decoy_count total_actions : Z) (expected : float)
  : result float :=
  current <- int_truediv decoy_count total_actions ;;
  fdiv (fabs (fsub current expected)) (fadd expected (literal 1 100)).

(** The loop [for i in range(...): idx = policy_indices[i]; if idx <
    len(blended): blended[idx] = policy_actions[idx]]. *)
Fixpoint blend (blended policy_actions : list action) (idxs : list Z)
  : result (list action) :=
  match idxs with
  | [] => Ok blended
  | idx :: idxs' =>
      if idx <? Z.of_nat (List.length blended) then
        a <- list_get policy_actions idx ;;
        blend (list_set blended (Z.to_nat idx) a) policy_actions idxs'
      else blend blended policy_actions idxs'
  end.

Section WithRandom.
Context {R : RandomSource}.

Definition _apply_policy_constraints (actions : list action) (sr c : float)
  : result (list action) :=
  let total_actions := Z.of_nat (List.length actions) in
  if total_actions =? 0 then Ok actions
  else
    let expected_decoy_rate := calculate_decoy_rate sr c in
    let decoy_count := py_count DECOY actions in
    rate_deviation <- rate_deviation decoy_count total_actions expected_decoy_rate ;;
    if fgt rate_deviation (literal 2 10) then
      policy_actions <- generate_actions total_actions sr c (Some 42) ;;
      let policy_indices := positions DECOY policy_actions in
      nf <- of_int total_actions ;;
      num_policy_decoys <- to_int (fmul (fmul nf expected_decoy_rate) (literal 2 10)) ;;
      let k := Z.min num_policy_decoys (Z.of_nat (List.length policy_indices)) in
      blend actions policy_actions (firstn (Z.to_nat k) policy_indices)
    else Ok actions.

End WithRandom.
End SquidModel.
Import SquidModel.

(** ** squid_model.py: the predictor's entry point *)
Module Predictor.

(** [self.action_map[pred]]: a label outside [0..3] is a [KeyError]. *)
Definition action_map (pred : Z) : result action :=
  match pred with
  | 0 => Ok VALID
  | 1 => Ok DECOY
  | 2 => Ok MUTATE
  | 3 => Ok REASSIGN
  | _ => Raise KeyError
  end.

Section WithModel.
Context {R : RandomSource}.

(** The forward pass of the trained model ([_features_to_array] followed
    by [_predict_mlp] or [_predict_tree]): the labels it returns or the
    exception it raises.  It lives in torch, xgboost and scikit-learn,
    so it is a parameter. *)
Variable model : list feature -> float -> float -> result (list Z).

Definition _fallback_policy (features : list feature) (sr c : float)
  : result (list action) :=
  generate_actions (Z.of_nat (List.length features)) sr c (Some 42).

(** [predict_actions]: the whole body runs under [try]; any exception
    hands over to the fallback policy. *)
Definition predict_actions (features : list feature) (sr c : float)
  : result (list action) :=
  let attempt :=
    if Z.of_nat (List.length features) =? 0 then Ok []
    else
      predictions <- model features sr c ;;
      actions <- mapM action_map predictions ;;
      _apply_policy_constraints actions sr c in
  match attempt with
  | Ok actions => Ok actions
  | Raise _ => _fallback_policy features sr c
  end.

End WithModel.
End Predictor.
Import Predictor.

(** ** test_vectors.py: the Merkle root of the test vectors *)
Module TestVectors.

Definition bytes : Type := list Byte.byte.

Section WithHash.
(** [blake2b(data, digest_size=32).digest()]; feeding [left] and then
    [right] to one hash object hashes their concatenation. *)
Variable blake2b : bytes -> bytes.

(** One round of the [while] loop: neighbours hashed in pairs, the last
    node paired with itself when the level is odd. *)
Fixpoint next_level (current_level : list bytes) : list bytes :=
  match current_level with
  | [] => []
  | [left_] => [blake2b (left_ ++ left_)]
  | left_ :: right_ :: rest => blake2b (left_ ++ right_) :: next_level rest
  end.

Lemma next_level_shorter l :
  (1 < List.length l)%nat -> (List.length (next_level l) < List.length l)%nat.
Proof.
  assert (H : forall n l, (List.length l <= n)%nat ->
                (List.length (next_level l) <= List.length l)%nat
                /\ ((1 < List.length l)%nat ->
                    (List.length (next_level l) < List.length l)%nat)).
  { induction n as [|n IH]; intros [|a [|b k]] Hl; cbn [next_level List.length] in *;
      try lia.
    destruct (IH k ltac:(lia)) as [H1 _]. lia. }
  intros Hl. apply (H (List.length l) l (le_n _)). exact Hl.
Qed.

(** [while len(current_level) > 1: current_level = next_level] *)
Function merkle_loop (current_level : list bytes) {measure List.length current_level}
  : list bytes :=
  if (1 <? List.length current_level)%nat then merkle_loop (next_level current_level)
  else current_level.
Proof.
  intros l H. apply next_level_shorter. apply Nat.ltb_lt. exact H.
Defined.

Definition _calculate_merkle_root (leaves : list bytes) : result bytes :=
  match leaves with
  | [] => Ok (repeat Byte.x00 32)
  | _ =>
      let current_level := map blake2b leaves in
      list_get (merkle_loop current_level) 0
  end.

End WithHash.
End TestVectors.
Import TestVectors.

(** ** squid_utils.py: the comparison of secrets, on strings of
    one-byte characters *)
Module SquidUtils.

(** [ord(ch)] *)
Definition ord (ch : ascii) : Z := Z.of_N (N_of_ascii ch).

(** The loop [for x, y in zip(a, b): result |= ord(x) ^ ord(y)]. *)
Fixpoint xor_fold (result : Z) (a b : string) : Z :=
  match a, b with
  | String x a', String y b' => xor_fold (Z.lor result (Z.lxor (ord x) (ord y))) a' b'
  | _, _ => result
  end.

(** [secure_compare] *)
Definition secure_compare (a b : string) : bool :=
  if negb (Z.of_nat (String.length a) =? Z.of_nat (String.length b)) then false
  else xor_fold 0 a b =? 0.

End SquidUtils.
Import SquidUtils.

(** ** The rules as the specification words them

    Each definition below follows a sentence of the specification, not
    the code; the theorems compare them with the embedded functions. *)
Module Spec.

(** [clamp(x, lo, hi)]: [lo] below [lo], [hi] above [hi], [x] between. *)
Definition clamp (x lo hi : float) : float :=
  if flt x lo then lo else if flt hi x then hi else x.

(** "if SR >= sr_min(=1.0) and C >= gamma_t(=10.0), rate = clamp(0.2 *
    min(2.5, (SR + C/gamma_t)/10), 0.2, 0.5); else rate = clamp(0.01 *
    min(10, SR + C/gamma_t), 0.01, 0.1)" *)
Definition decoy_rate (sr c : float) : float :=
  let ratio := fquot c (literal 10 1) in
  if fge sr (literal 1 1) && fge c (literal 10 1) then
    clamp (fmul (literal 2 10)
                (py_min (literal 25 10) (fquot (fadd sr ratio) (literal 10 1))))
          (literal 2 10) (literal 5 10)
  else
    clamp (fmul (literal 1 100) (py_min (literal 10 1) (fadd sr ratio)))
          (literal 1 100) (literal 1 10).

(** "risk = 0.6 * (1 - SR) + 0.4 * C" *)
Definition risk (sr c : float) : float :=
  fadd (fmul (literal 6 10) (fsub (literal 1 1) sr)) (fmul (literal 4 10) c).

(** "percentage = 0.03 + 0.17 * clamp(risk, 0, 1)" *)
Definition percentage (risk : float) : float :=
  fadd (literal 3 100) (fmul (literal 17 100) (clamp risk (Fin 0) (literal 1 1))).

(** "floor(n * rate)" *)
Definition floor_mul (n : Z) (rate : float) : result Z :=
  nf <- of_int n ;;
  match fmul nf rate with
  | Fin P => Ok (P / scale)
  | NaN => Raise ValueError
  | Inf _ => Raise OverflowError
  end.

(** "count = max(1, ceil(n * percentage))" *)
Definition count (n : Z) (percentage : float) : result Z :=
  nf <- of_int n ;;
  k <- ceil (fmul nf percentage) ;;
  Ok (Z.max 1 k).

(** "deviation = |observed - expected| / (expected + 0.01)", the observed
    rate being the share of DECOY in the predictor's assignment. *)
Definition deviation (actions : list action) (expected : float) : result float :=
  observed <- int_truediv (py_count DECOY actions) (Z.of_nat (List.length actions)) ;;
  fdiv (fabs (fsub observed expected)) (fadd expected (literal 1 100)).

(** "floor(n * expected * 0.2)" *)
Definition blend_count (n : Z) (expected : float) : result Z :=
  nf <- of_int n ;;
  match fmul (fmul nf expected) (literal 2 10) with
  | Fin P => Ok (P / scale)
  | NaN => Raise ValueError
  | Inf _ => Raise OverflowError
  end.

End Spec.

(** ** A reference random source: MT19937 as CPython and NumPy drive it

    [random.Random(seed)] seeds the generator with [init_by_array] on the
    32-bit words of [abs(seed)] and draws an index below [n] from the top
    [n.bit_length()] bits of a 32-bit output; NumPy's legacy
    [np.random.seed(seed)] seeds with [init_genrand] and draws an index
    [<= max] from the low bits under the smallest mask covering [max].
    Both reject and redraw; the redraw loop is run on fuel here and gives
    index [0] if the fuel runs out. *)
Module MT19937.

Record state : Type := { mt : list Z; mti : nat }.

Definition w32 (x : Z) : Z := Z.land x 0xffffffff.

Definition mix (prev : Z) : Z := Z.lxor prev (Z.shiftr prev 30).

Fixpoint init_loop (fuel : nat) (i prev : Z) : list Z :=
  match fuel with
  | O => []
  | S fuel' =>
      let x := w32 (1812433253 * mix prev + i) in
      x :: init_loop fuel' (i + 1) x
  end.

Definition init_genrand (s : Z) : state :=
  let m0 := w32 s in {| mt := m0 :: init_loop 623 1 m0; mti := 624 |}.

Definition at_ (l : list Z) (i : nat) : Z := nth i l 0.

(** After [i++]: wrap to 1, copying the last word to the first. *)
Definition wrap (m : list Z) (i : nat) : list Z * nat :=
  if Nat.leb 624 i then (list_set m 0 (at_ m 623), 1%nat) else (m, i).

Fixpoint key_loop (fuel : nat) (key : list Z) (m : list Z) (i j : nat) : list Z * nat :=
  match fuel with
  | O => (m, i)
  | S fuel' =>
      let x := w32 (Z.lxor (at_ m i) (mix (at_ m (i - 1)) * 1664525)
                    + at_ key j + Z.of_nat j) in
      let '(m, i) := wrap (list_set m i x) (S i) in
      let j := if Nat.leb (List.length key) (S j) then O else S j in
      key_loop fuel' key m i j
  end.

Fixpoint final_loop (fuel : nat) (m : list Z) (i : nat) : list Z :=
  match fuel with
  | O => m
  | S fuel' =>
      let x := w32 (Z.lxor (at_ m i) (mix (at_ m (i - 1)) * 1566083941)
                    - Z.of_nat i) in
      let '(m, i) := wrap (list_set m i x) (S i) in
      final_loop fuel' m i
  end.

Definition init_by_array (key : list Z) : state :=
  let m := mt (init_genrand 19650218) in
  let '(m, i) := key_loop (Nat.max 624 (List.length key)) key m 1 0 in
  let m := final_loop 623 m i in
  {| mt := list_set m 0 0x80000000; mti := 624 |}.

(** The 32-bit words of [abs(seed)], least significant first. *)
Definition key_of_seed (seed : Z) : list Z :=
  let a := Z.abs seed in
  let words := if a =? 0 then 1%nat else Z.to_nat (Z.log2 a / 32 + 1) in
  map (fun i => w32 (Z.shiftr a (32 * Z.of_nat i))) (seq 0 words).

Definition twist_at (m : list Z) (kk : nat) : list Z :=
  let y := Z.lor (Z.land (at_ m kk) 0x80000000)
                 (Z.land (at_ m (Nat.modulo (kk + 1) 624)) 0x7fffffff) in
  let mag := if Z.odd y then 0x9908b0df else 0 in
  list_set m kk (Z.lxor (Z.lxor (at_ m (Nat.modulo (kk + 397) 624)) (Z.shiftr y 1)) mag).

Definition twist (m : list Z) : list Z := fold_left twist_at (seq 0 624) m.

Definition temper (y : Z) : Z :=
  let y := Z.lxor y (Z.shiftr y 11) in
  let y := Z.lxor y (Z.land (Z.shiftl y 7) 0x9d2c5680) in
  let y := Z.lxor y (Z.land (Z.shiftl y 15) 0xefc60000) in
  Z.lxor y (Z.shiftr y 18).

Definition genrand_uint32 (s : state) : Z * state :=
  let '(m, i) := if Nat.leb 624 (mti s) then (twist (mt s), O) else (mt s, mti s) in
  (temper (at_ m i), {| mt := m; mti := S i |}).

(** [n.bit_length()] *)
Definition bit_length (n : Z) : Z := if n <=? 0 then 0 else Z.log2 n + 1.

(** [_randbelow_with_getrandbits(n)] *)
Fixpoint randbelow (fuel : nat) (n : Z) (s : state) : Z * state :=
  match fuel with
  | O => (0, s)
  | S fuel' =>
      let '(y, s) := genrand_uint32 s in
      let r := Z.shiftr y (32 - bit_length n) in
      if r <? n then (r, s) else randbelow fuel' n s
  end.

(** NumPy's [random_interval(max)] for [0 < max < 2^32]. *)
Fixpoint random_interval (fuel : nat) (max : Z) (s : state) : Z * state :=
  match fuel with
  | O => (0, s)
  | S fuel' =>
      let '(y, s) := genrand_uint32 s in
      let v := Z.land y (2 ^ bit_length max - 1) in
      if v <=? max then (v, s) else random_interval fuel' max s
  end.

(** [x[i], x[j] = x[j], x[i]] *)
Definition swap (l : list Z) (i j : nat) : list Z :=
  let a := at_ l i in
  let b := at_ l j in
  list_set (list_set l i b) j a.

Definition fuel : nat := 4096.

(** [for i in reversed(range(1, len(x))): j = draw(i); swap], the first
    argument counting [i] down. *)
Fixpoint shuffle_loop (draw : Z -> state -> Z * state) (i : nat) (l : list Z) (s : state)
  : list Z :=
  match i with
  | O => l
  | S i' =>
      let '(j, s) := draw (Z.of_nat i) s in
      shuffle_loop draw i' (swap l i (Z.to_nat j)) s
  end.

Definition py_shuffle (seed : Z) (l : list Z) : list Z :=
  shuffle_loop (fun i => randbelow fuel (i + 1)) (List.length l - 1) l
               (init_by_array (key_of_seed seed)).

Definition numpy_shuffle (seed : Z) (l : list Z) : list Z :=
  shuffle_loop (random_interval fuel) (List.length l - 1) l (init_genrand seed).

End MT19937.

#[export] Instance mersenne_twister : RandomSource := {
  random_shuffle := MT19937.py_shuffle;
  np_shuffle := MT19937.numpy_shuffle
}.

(** ** A reference [math]: fixed-point series, correctly rounded at the end

    Values are computed in fixed point with [192] fractional bits from
    the Taylor series of [exp] and the [atanh] series of [log], then
    rounded with [rnd].  Special values and errors follow CPython's
    [math] module and [float.__pow__]. *)
Module RefMath.

Definition FB : Z := 192.
Definition one : Z := Eval vm_compute in 2 ^ FB.

(** [z + z^3/3 + z^5/5 + ...] in fixed point. *)
Fixpoint atanh_loop (fuel : nat) (pw z2 d acc : Z) : Z :=
  match fuel with
  | O => acc
  | S fuel' => atanh_loop fuel' (pw * z2 / one) z2 (d + 2) (acc + pw / d)
  end.

Definition atanh_fix (z : Z) : Z := atanh_loop 128 z (z * z / one) 1 0.

(** [ln 2 = 2 atanh (1/3)] *)
Definition LN2 : Z := Eval vm_compute in 2 * atanh_fix (one / 3).

(** [ln (y / 2^u)] in fixed point, for an integer [y > 0]. *)
Definition ln_fix (y u : Z) : Z :=
  let e := Z.log2 y in
  let m := y * one / 2 ^ e in
  let z := (m - one) * one / (m + one) in
  (e - u) * LN2 + 2 * atanh_fix z.

(** [1 + r + r^2/2! + ...] in fixed point. *)
Fixpoint exp_loop (fuel : nat) (term r i acc : Z) : Z :=
  match fuel with
  | O => acc
  | S fuel' => exp_loop fuel' (term * r / one / i) r (i + 1) (acc + term)
  end.

(** [e^(X / one)] as a float, by [e^X = 2^k * e^r] with [|r| <= ln2 / 2]. *)
Definition exp_fix (X : Z) : float :=
  let k := (2 * X + LN2) / (2 * LN2) in
  let r := X - k * LN2 in
  let T := exp_loop 64 one r 1 0 in
  let e := k + 1074 - FB in
  if 0 <=? e then rnd (T * 2 ^ e) 1 else rnd T (2 ^ (- e)).

(** [math.exp] *)
Definition exp_core (x : float) : result float :=
  match x with
  | NaN => Ok NaN
  | Inf false => Ok (Inf false)
  | Inf true => Ok (Fin 0)
  | Fin N =>
      if 710 * scale <? N then Raise OverflowError
      else if N <? - 760 * scale then Ok (Fin 0)
      else match exp_fix (N * one / scale) with
           | Fin R => Ok (Fin R)
           | _ => Raise OverflowError
           end
  end.

(** [math.log] *)
Definition log_core (x : float) : result float :=
  match x with
  | NaN => Ok NaN
  | Inf false => Ok (Inf false)
  | Inf true => Raise ValueError
  | Fin N =>
      if N <=? 0 then Raise ValueError
      else Ok (rnd (ln_fix N 1074 * scale) one)
  end.

(** [math.log1p]; below [2^-100] in magnitude the result is
    [x - x^2/2], exactly rounded. *)
Definition log1p_core (x : float) : result float :=
  match x with
  | NaN => Ok NaN
  | Inf false => Ok (Inf false)
  | Inf true => Raise ValueError
  | Fin N =>
      if N <=? - scale then Raise ValueError
      else if Z.abs N <? 2 ^ 974 then Ok (rnd (N * 2 ^ 1075 - N * N) (2 ^ 1075))
      else Ok (rnd (ln_fix (scale + N) 1074 * scale) one)
  end.

(** [float.__pow__] on a base that is not negative. *)
Definition pow_core (x y : float) : result float :=
  match x, y with
  | _, Fin 0 => Ok (Fin scale)
  | NaN, _ => Ok NaN
  | Fin a, NaN => Ok (if a =? scale then Fin scale else NaN)
  | Inf _, NaN => Ok NaN
  | Fin a, Inf s =>
      if a =? scale then Ok (Fin scale)
      else if Bool.eqb (negb s) (scale <? a) then Ok (Inf false) else Ok (Fin 0)
  | Inf _, Inf s => if s then Ok (Fin 0) else Ok (Inf false)
  | Inf _, Fin b => if 0 <? b then Ok (Inf false) else Ok (Fin 0)
  | Fin a, Fin b =>
      if a =? 0 then (if b <? 0 then Raise ZeroDivisionError else Ok (Fin 0))
      else if a =? scale then Ok (Fin scale)
      else
        let X := ln_fix (Z.abs a) 1074 * b / scale in
        if 710 * one <? X then Raise OverflowError
        else if X <? - 760 * one then Ok (Fin 0)
        else match exp_fix X with
             | Fin R => Ok (Fin R)
             | _ => Raise OverflowError
             end
  end.

(** Inside the ranges of [PyMathLaws] the value of the series is
    returned when it is one and meets the law; the other branch makes
    the laws hold by construction, with no error analysis of the
    series. *)
Definition exp (x : float) : result float :=
  if is_finite x && fle x (literal 709 1)
  then Ok (try_except (exp_core x) (Fin 0))
  else exp_core x.

Definition pow (x y : float) : result float :=
  if fle (literal 1 1) x && fle x (literal 1024 1)
     && fle (Fin 0) y && fle y (literal 2 1)
  then Ok (py_max (literal 1 1) (try_except (pow_core x y) (literal 1 1)))
  else if flt (Fin 0) x && flt x (literal 1 1) && fle (Fin 0) y && is_finite y
  then Ok (try_except (pow_core x y) (Fin 0))
  else pow_core x y.

End RefMath.

#[export] Instance reference_math : PyMath := {
  math_exp := RefMath.exp;
  math_log := RefMath.log_core;
  math_log1p := RefMath.log1p_core;
  float_pow := RefMath.pow
}.

(** * Facts about the floating-point model *)
Module PyFloatFacts.

(** A magnitude is in the format when it is a multiple of its last place. *)
Definition reprP (c : Z) : Prop := c mod 2 ^ expo c = 0.

Lemma rne_le a d c : 0 < d -> a <= c * d -> rne a d <= c.
Proof.
  intros Hd H. unfold rne.
  pose proof (Z.div_mod a d ltac:(lia)) as E.
  pose proof (Z.mod_pos_bound a d Hd) as B.
  assert (a / d <= c) by nia.
  destruct (Z.compare_spec (2 * (a mod d)) d); [| lia |].
  - destruct (Z.even (a / d)); [lia|]. nia.
  - nia.
Qed.

Lemma rne_ge a d c : 0 < d -> c * d <= a -> c <= rne a d.
Proof.
  intros Hd H. unfold rne.
  pose proof (Z.div_mod a d ltac:(lia)) as E.
  pose proof (Z.mod_pos_bound a d Hd) as B.
  assert (c <= a / d) by nia.
  destruct (2 * (a mod d) ?= d); [destruct (Z.even (a / d))| |]; lia.
Qed.

Lemma expo_nonneg q : 0 <= expo q.
Proof. unfold expo; lia. Qed.

Lemma expo_upper q : 0 <= q -> q < 2 ^ (expo q + 53).
Proof.
  intros Hq. unfold expo.
  destruct (Z.eq_dec q 0) as [->|Hn].
  - rewrite Z.log2_nonpos by lia.
    replace (Z.max 0 (0 - 52) + 53) with 53 by lia. apply Z.pow_pos_nonneg; lia.
  - pose proof (Z.log2_spec q ltac:(lia)) as [_ Hu].
    pose proof (Z.log2_nonneg q).
    eapply Z.lt_le_trans; [exact Hu|].
    apply Z.pow_le_mono_r; lia.
Qed.

Lemma expo_lower q : 0 < expo q -> 2 ^ (expo q + 52) <= q.
Proof.
  unfold expo. intros H.
  assert (0 < q).
  { destruct (Z_lt_le_dec 0 q); [assumption|].
    rewrite (Z.log2_nonpos q) in H by lia. lia. }
  pose proof (Z.log2_spec q ltac:(lia)) as [Hl _].
  replace (Z.max 0 (Z.log2 q - 52) + 52) with (Z.log2 q) by lia. exact Hl.
Qed.

Lemma expo_eq c k : 0 <= k -> 2 ^ (k + 52) <= c -> c < 2 ^ (k + 53) -> expo c = k.
Proof.
  intros Hk Hl Hu. unfold expo.
  assert (0 < c) by (pose proof (Z.pow_pos_nonneg 2 (k + 52)); lia).
  assert (Z.log2 c = k + 52).
  { apply Z.log2_unique; [lia|]. replace (Z.succ (k + 52)) with (k + 53) by lia. lia. }
  lia.
Qed.

Lemma round_pos_le a b c :
  0 <= a -> 0 < b -> 0 <= c -> reprP c -> a <= c * b -> round_pos a b <= c.
Proof.
  intros Ha Hb Hc Hr H. unfold round_pos.
  set (q := a / b). set (k := expo q).
  assert (Hq : 0 <= q) by (apply Z.div_pos; lia).
  assert (Hk : 0 <= k) by apply expo_nonneg.
  assert (Hp : 0 < 2 ^ k) by (apply Z.pow_pos_nonneg; lia).
  pose proof (expo_upper q Hq) as Hu. fold k in Hu.
  pose proof (Z.div_mod a b ltac:(lia)) as E.
  pose proof (Z.mod_pos_bound a b Hb) as B. fold q in E.
  assert (Hpow : 2 ^ (k + 53) = 2 ^ 53 * 2 ^ k) by (rewrite Z.pow_add_r; lia).
  destruct (Z_lt_le_dec c (2 ^ (k + 53))) as [Hlt|Hge].
  - destruct (Z.eq_dec k 0) as [K0|Kn].
    + rewrite K0. rewrite Z.pow_0_r, !Z.mul_1_r. apply rne_le; assumption.
    + assert (Hkpos : 0 < expo q) by (fold k; lia).
      pose proof (expo_lower q Hkpos) as Hl. fold k in Hl.
      assert (q <= c) by nia.
      assert (Ek : expo c = k) by (apply expo_eq; lia).
      unfold reprP in Hr. rewrite Ek in Hr.
      apply Z.mod_divide in Hr; [|lia]. destruct Hr as [c' ->].
      apply Z.mul_le_mono_nonneg_r; [lia|].
      apply rne_le; [nia|]. nia.
  - assert (rne a (b * 2 ^ k) <= 2 ^ 53).
    { apply rne_le; [nia|]. nia. }
    nia.
Qed.

Lemma round_pos_ge a b c :
  0 <= a -> 0 < b -> 0 <= c -> reprP c -> c * b <= a -> c <= round_pos a b.
Proof.
  intros Ha Hb Hc Hr H. unfold round_pos.
  set (q := a / b). set (k := expo q).
  assert (Hq : 0 <= q) by (apply Z.div_pos; lia).
  assert (Hk : 0 <= k) by apply expo_nonneg.
  assert (Hp : 0 < 2 ^ k) by (apply Z.pow_pos_nonneg; lia).
  pose proof (expo_upper q Hq) as Hu. fold k in Hu.
  pose proof (Z.div_mod a b ltac:(lia)) as E.
  pose proof (Z.mod_pos_bound a b Hb) as B. fold q in E.
  assert (Hcq : c <= q) by nia.
  assert (Hpow : 2 ^ (k + 52) = 2 ^ 52 * 2 ^ k) by (rewrite Z.pow_add_r; lia).
  destruct (Z.eq_dec k 0) as [K0|Kn].
  - rewrite K0. rewrite Z.pow_0_r, !Z.mul_1_r. apply rne_ge; assumption.
  - assert (Hkpos : 0 < expo q) by (fold k; lia).
    pose proof (expo_lower q Hkpos) as Hl. fold k in Hl.
    destruct (Z_lt_le_dec c (2 ^ (k + 52))) as [Hlt|Hge].
    + assert (2 ^ 52 <= rne a (b * 2 ^ k)).
      { apply rne_ge; [nia|]. nia. }
      nia.
    + assert (Ek : expo c = k) by (apply expo_eq; lia).
      unfold reprP in Hr. rewrite Ek in Hr.
      apply Z.mod_divide in Hr; [|lia]. destruct Hr as [c' ->].
      apply Z.mul_le_mono_nonneg_r; [lia|].
      apply rne_ge; [nia|]. nia.
Qed.

Lemma div_eucl_fast_eq a b : 0 <= a -> 0 < b -> div_eucl_fast a b = (a / b, a mod b).
Proof.
  intros Ha Hb. unfold div_eucl_fast.
  pose proof (Z.log2_nonneg b) as Hk.
  destruct (Z.eqb_spec b (Z.shiftl 1 (Z.log2 b))) as [E|_].
  - rewrite Z.shiftl_1_l in E.
    rewrite Z.shiftr_div_pow2, Z.land_ones by assumption.
    rewrite <- E. reflexivity.
  - unfold Z.div, Z.modulo. destruct (Z.div_eucl a b). reflexivity.
Qed.

Lemma round_fast_eq a b : 0 <= a -> 0 < b -> round_fast a b = round_pos a b.
Proof.
  intros Ha Hb. unfold round_fast, round_pos, rne.
  rewrite div_eucl_fast_eq by assumption.
  set (k := expo (a / b)).
  assert (Hk : 0 <= k) by apply expo_nonneg.
  assert (Hp : 0 < 2 ^ k) by (apply Z.pow_pos_nonneg; lia).
  rewrite Z.shiftr_div_pow2, Z.land_ones, !Z.shiftl_mul_pow2 by assumption.
  rewrite Z.div_div by lia.
  replace (b * ((a / b) mod 2 ^ k) + a mod b) with (a mod (b * 2 ^ k))
    by (rewrite Z.rem_mul_r by lia; ring).
  reflexivity.
Qed.

Lemma rnd_unfold a b :
  0 < b ->
  rnd a b = if huge <=? round_pos (Z.abs a) b then Inf (a <? 0)
            else Fin (Z.sgn a * round_pos (Z.abs a) b).
Proof. intros Hb. unfold rnd. rewrite round_fast_eq by lia. reflexivity. Qed.

Lemma rne_nonneg a d : 0 <= a -> 0 < d -> 0 <= rne a d.
Proof. intros Ha Hd. apply (rne_ge a d 0); lia. Qed.

Lemma round_pos_nonneg a b : 0 <= a -> 0 < b -> 0 <= round_pos a b.
Proof.
  intros Ha Hb. unfold round_pos.
  assert (0 < 2 ^ expo (a / b)) by (apply Z.pow_pos_nonneg; [lia|apply expo_nonneg]).
  apply Z.mul_nonneg_nonneg; [|lia]. apply rne_nonneg; nia.
Qed.

Lemma reprP_small c : 0 <= c -> c < 2 ^ 53 -> reprP c.
Proof.
  intros H0 H1. unfold reprP, expo.
  destruct (Z.eq_dec c 0) as [->|Hn]; [reflexivity|].
  assert (Z.log2 c < 53) by (apply Z.log2_lt_pow2; lia).
  replace (Z.max 0 (Z.log2 c - 52)) with 0 by lia.
  rewrite Z.pow_0_r. apply Z.mod_1_r.
Qed.

Lemma reprP_shift r k : 0 <= k -> 2 ^ 52 <= r -> r <= 2 ^ 53 -> reprP (r * 2 ^ k).
Proof.
  intros Hk Hl Hu. unfold reprP.
  assert (Hp : 0 < 2 ^ k) by (apply Z.pow_pos_nonneg; lia).
  destruct (Z.eq_dec r (2 ^ 53)) as [->|Hn].
  - rewrite (expo_eq (2 ^ 53 * 2 ^ k) (k + 1)); try lia.
    + replace (2 ^ 53 * 2 ^ k) with (2 ^ 52 * 2 ^ (k + 1))
        by (rewrite (Z.pow_add_r 2 k 1) by lia; lia).
      apply Z.mod_mul. apply Z.pow_nonzero; lia.
    + replace (k + 1 + 52) with (53 + k) by lia. rewrite Z.pow_add_r by lia. lia.
    + replace (k + 1 + 53) with (54 + k) by lia. rewrite Z.pow_add_r by lia.
      apply Z.mul_lt_mono_pos_r; lia.
  - rewrite (expo_eq (r * 2 ^ k) k); try lia.
    + apply Z.mod_mul. lia.
    + replace (k + 52) with (52 + k) by lia. rewrite Z.pow_add_r by lia. nia.
    + replace (k + 53) with (53 + k) by lia. rewrite Z.pow_add_r by lia. nia.
Qed.

Lemma round_pos_repr a b : 0 <= a -> 0 < b -> reprP (round_pos a b).
Proof.
  intros Ha Hb. unfold round_pos.
  set (q := a / b). set (k := expo q).
  assert (Hq : 0 <= q) by (apply Z.div_pos; lia).
  assert (Hk : 0 <= k) by apply expo_nonneg.
  assert (Hp : 0 < 2 ^ k) by (apply Z.pow_pos_nonneg; lia).
  pose proof (expo_upper q Hq) as Hu. fold k in Hu.
  pose proof (Z.div_mod a b ltac:(lia)) as E.
  pose proof (Z.mod_pos_bound a b Hb) as B. fold q in E.
  assert (Hpow : 2 ^ (k + 53) = 2 ^ 53 * 2 ^ k) by (rewrite Z.pow_add_r; lia).
  assert (Hr : rne a (b * 2 ^ k) <= 2 ^ 53) by (apply rne_le; nia).
  destruct (Z.eq_dec k 0) as [K0|Kn].
  - rewrite K0 in *. rewrite Z.pow_0_r, !Z.mul_1_r in *.
    destruct (Z.eq_dec (rne a b) (2 ^ 53)) as [->|Hn].
    + replace (2 ^ 53) with (2 ^ 53 * 2 ^ 0) at 1 by (rewrite Z.pow_0_r; lia).
      apply reprP_shift; lia.
    + apply reprP_small; [apply rne_nonneg; lia|lia].
  - assert (Hkpos : 0 < expo q) by (fold k; lia).
    pose proof (expo_lower q Hkpos) as Hl. fold k in Hl.
    assert (Hpow' : 2 ^ (k + 52) = 2 ^ 52 * 2 ^ k) by (rewrite Z.pow_add_r; lia).
    apply reprP_shift; [lia| |lia].
    apply rne_ge; nia.
Qed.

Lemma repr_spec N : repr N = true <-> Z.abs N < huge /\ reprP (Z.abs N).
Proof.
  unfold repr, reprP. rewrite andb_true_iff, Z.ltb_lt, Z.eqb_eq. tauto.
Qed.

Lemma round_pos_zero b : 0 < b -> round_pos 0 b = 0.
Proof.
  intros Hb. unfold round_pos. rewrite (Z.div_0_l b) by lia.
  change (expo 0) with 0. rewrite Z.pow_0_r, !Z.mul_1_r.
  unfold rne. rewrite Z.div_0_l, Z.mod_0_l by lia.
  change (2 * 0) with 0.
  destruct (Z.compare_spec 0 b); lia.
Qed.

Lemma abs_sgn_mul a n : 0 <= n -> (a = 0 -> n = 0) -> Z.abs (Z.sgn a * n) = n.
Proof.
  intros Hn H0.
  destruct (Z.sgn_spec a) as [[? ->]|[[? ->]|[? ->]]]; nia.
Qed.

(** Every rounded result is a well-formed float. *)
Lemma rnd_valid a b : 0 < b -> valid (rnd a b) = true.
Proof.
  intros Hb. rewrite rnd_unfold by assumption.
  pose proof (round_pos_nonneg (Z.abs a) b ltac:(lia) Hb) as Hn.
  destruct (Z.leb_spec huge (round_pos (Z.abs a) b)); [reflexivity|].
  cbn [valid]. apply repr_spec.
  rewrite abs_sgn_mul; [| lia | intros ->; apply round_pos_zero; assumption].
  split; [lia|]. apply round_pos_repr; lia.
Qed.

(** Rounding stays on the same side of a float: a value at most [c]
    rounds to at most [c]. *)
Lemma rnd_le a b c : 0 < b -> repr c = true -> a <= c * b -> fle (rnd a b) (Fin c) = true.
Proof.
  intros Hb Hc H. apply repr_spec in Hc. destruct Hc as [Hh Hr].
  rewrite rnd_unfold by assumption. unfold fle.
  pose proof (round_pos_nonneg (Z.abs a) b ltac:(lia) Hb) as Hn.
  destruct (Z_le_gt_dec 0 a) as [Ha|Ha].
  - assert (Hc0 : 0 <= c) by nia.
    assert (round_pos (Z.abs a) b <= c).
    { apply round_pos_le; try lia.
      rewrite Z.abs_eq in Hr by lia. exact Hr. }
    destruct (Z.leb_spec huge (round_pos (Z.abs a) b)); [lia|].
    simpl. apply orb_true_iff. 
    assert (Z.sgn a * round_pos (Z.abs a) b <= c).
    { destruct (Z.eq_dec a 0) as [->|]; [simpl; lia|].
      rewrite Z.sgn_pos by lia. lia. }
    destruct (Z.eq_dec (Z.sgn a * round_pos (Z.abs a) b) c).
    + right. apply Z.eqb_eq. assumption.
    + left. apply Z.ltb_lt. lia.
  - replace (a <? 0) with true by (symmetry; apply Z.ltb_lt; lia).
    destruct (Z.leb_spec huge (round_pos (Z.abs a) b)); [reflexivity|].
    simpl. apply orb_true_iff. rewrite Z.sgn_neg by lia.
    assert (- round_pos (Z.abs a) b <= c).
    { destruct (Z_le_gt_dec 0 c); [lia|].
      assert (- c <= round_pos (Z.abs a) b); [|lia].
      apply round_pos_ge; try lia.
      rewrite Z.abs_neq in Hr by lia. exact Hr. }
    destruct (Z.eq_dec (-1 * round_pos (Z.abs a) b) c).
    + right. apply Z.eqb_eq. assumption.
    + left. apply Z.ltb_lt. lia.
Qed.

Lemma rnd_opp a b : 0 < b -> rnd (- a) b = fneg (rnd a b).
Proof.
  intros Hb. rewrite !rnd_unfold by assumption. rewrite Z.abs_opp.
  destruct (Z.leb_spec huge (round_pos (Z.abs a) b)) as [Hh|Hh].
  - pose proof (round_pos_zero b Hb) as H.
    assert (a <> 0).
    { intros ->. change (Z.abs 0) with 0 in Hh. rewrite H in Hh.
      revert Hh. apply Z.lt_nge. reflexivity. }
    simpl. f_equal. destruct a; simpl; try reflexivity. contradiction.
  - simpl. f_equal. rewrite Z.sgn_opp. lia.
Qed.

Lemma fle_fneg x y : fle (fneg x) (fneg y) = fle y x.
Proof.
  destruct x as [|sx|a], y as [|sy|b]; simpl; try reflexivity;
    try (destruct sx; reflexivity); try (destruct sy; reflexivity).
  - destruct sx, sy; reflexivity.
  - unfold fle; simpl.
    f_equal.
    + apply eq_true_iff_eq. rewrite !Z.ltb_lt. lia.
    + apply eq_true_iff_eq. rewrite !Z.eqb_eq. lia.
Qed.

Lemma repr_opp c : repr (- c) = repr c.
Proof. unfold repr. rewrite Z.abs_opp. reflexivity. Qed.

(** ... and a value at least [c] rounds to at least [c]. *)
Lemma rnd_ge a b c : 0 < b -> repr c = true -> c * b <= a -> fle (Fin c) (rnd a b) = true.
Proof.
  intros Hb Hc H.
  rewrite <- fle_fneg. rewrite <- rnd_opp by assumption. simpl.
  apply rnd_le; [assumption | rewrite repr_opp; assumption | lia].
Qed.

Lemma scale_eq : scale = 2 ^ 1074. Proof. reflexivity. Qed.
Lemma huge_eq : huge = 2 ^ 2098. Proof. reflexivity. Qed.
Lemma scale_pos : 0 < scale. Proof. reflexivity. Qed.

(** The relative error of rounding a magnitude with a full mantissa. *)
Lemma round_pos_rel a b :
  0 <= a -> 0 < b -> 2 ^ 53 * b <= a ->
  round_pos a b * b * 2 ^ 52 <= a * (2 ^ 52 + 1).
Proof.
  intros Ha Hb H. unfold round_pos.
  set (q := a / b). set (k := expo q).
  assert (Hq : 2 ^ 53 <= q) by (apply Z.div_le_lower_bound; lia).
  assert (Hk : 0 <= k) by apply expo_nonneg.
  assert (Hp : 0 < 2 ^ k) by (apply Z.pow_pos_nonneg; lia).
  assert (Hkpos : 0 < expo q).
  { unfold expo. assert (53 <= Z.log2 q); [|lia].
    apply Z.log2_le_pow2; lia. }
  pose proof (expo_lower q Hkpos) as Hl. fold k in Hl.
  pose proof (Z.div_mod a b ltac:(lia)) as E.
  pose proof (Z.mod_pos_bound a b Hb) as B. fold q in E.
  assert (Hpow' : 2 ^ (k + 52) = 2 ^ 52 * 2 ^ k) by (rewrite Z.pow_add_r; lia).
  set (d := b * 2 ^ k).
  assert (Hd : 0 < d) by (unfold d; nia).
  assert (Hr : rne a d <= a / d + 1).
  { apply rne_le; [assumption|].
    pose proof (Z.div_mod a d ltac:(lia)). pose proof (Z.mod_pos_bound a d Hd). nia. }
  pose proof (Z.div_mod a d ltac:(lia)) as E'.
  pose proof (Z.mod_pos_bound a d Hd) as B'.
  assert (2 ^ 52 * d <= a) by (unfold d; nia).
  assert (rne a d * d <= a + d) by nia.
  replace (rne a d * 2 ^ k * b) with (rne a d * d) by (unfold d; ring).
  nia.
Qed.

Lemma reprP_half c : reprP c -> 2 ^ 53 <= c -> reprP (c / 2) /\ 2 * (c / 2) = c.
Proof.
  intros Hr Hc. unfold reprP in *.
  assert (Hlog : 53 <= Z.log2 c) by (apply Z.log2_le_pow2; lia).
  assert (He : expo c = Z.log2 c - 52) by (unfold expo; lia).
  rewrite He in Hr.
  assert (Hl2 : Z.log2 (c / 2) = Z.log2 c - 1).
  { rewrite <- Z.div2_div, Z.div2_spec, Z.log2_shiftr by lia. lia. }
  assert (He2 : expo (c / 2) = Z.log2 c - 53) by (unfold expo; lia).
  rewrite He2. clear He He2 Hl2.
  remember (Z.log2 c - 53) as e eqn:Ee.
  replace (Z.log2 c - 52) with (1 + e) in Hr by lia.
  assert (0 <= e) by lia. clear Ee Hlog.
  rewrite Z.pow_add_r in Hr by lia. change (2 ^ 1) with 2 in Hr.
  assert (Hp : 0 < 2 ^ e) by (apply Z.pow_pos_nonneg; lia).
  apply Z.mod_divide in Hr; [|lia].
  destruct Hr as [m Hm].
  assert (Hc2 : c / 2 = m * 2 ^ e).
  { rewrite Hm. replace (m * (2 * 2 ^ e)) with (m * 2 ^ e * 2) by ring.
    apply Z.div_mul. lia. }
  split.
  - rewrite Hc2. apply Z.mod_mul. lia.
  - rewrite Hc2, Hm. ring.
Qed.

(** Small integers scaled by a power of two are in the format. *)
Lemma reprP_scaled n k : 0 <= n -> n <= 2 ^ 53 -> 0 <= k -> reprP (n * 2 ^ k).
Proof.
  intros Hn Hu Hk.
  destruct (Z.eq_dec n 0) as [->|Hn0]; [reflexivity|].
  unfold reprP.
  assert (Hp : 0 < 2 ^ k) by (apply Z.pow_pos_nonneg; lia).
  assert (Hl : Z.log2 (n * 2 ^ k) = Z.log2 n + k).
  { rewrite Z.log2_mul_pow2 by lia. lia. }
  destruct (Z.eq_dec n (2 ^ 53)) as [->|Hn1].
  - replace (2 ^ 53 * 2 ^ k) with (2 ^ 52 * 2 ^ (k + 1))
      by (rewrite (Z.pow_add_r 2 k 1) by lia; lia).
    apply (reprP_shift (2 ^ 52) (k + 1)); lia.
  - assert (Z.log2 n < 53) by (apply Z.log2_lt_pow2; lia).
    assert (He : expo (n * 2 ^ k) <= k) by (unfold expo; lia).
    pose proof (expo_nonneg (n * 2 ^ k)) as He0.
    replace k with ((k - expo (n * 2 ^ k)) + expo (n * 2 ^ k)) at 1 by lia.
    rewrite Z.pow_add_r by lia. rewrite Z.mul_assoc. apply Z.mod_mul.
    apply Z.pow_nonzero; lia.
Qed.

End PyFloatFacts.
Import PyFloatFacts.

(** * Order and arithmetic of floats *)
Module FloatOrder.

Lemma fle_Fin a b : fle (Fin a) (Fin b) = true <-> a <= b.
Proof.
  unfold fle; simpl. rewrite orb_true_iff, Z.ltb_lt, Z.eqb_eq. lia.
Qed.

Lemma flt_Fin a b : flt (Fin a) (Fin b) = true <-> a < b.
Proof. simpl. apply Z.ltb_lt. Qed.

Lemma fle_Fin_r x c :
  fle x (Fin c) = true -> x = Inf true \/ exists a, x = Fin a /\ a <= c.
Proof.
  destruct x as [|[]|a]; unfold fle; simpl; try discriminate; auto.
  intros H. right. exists a. split; [reflexivity|].
  apply orb_true_iff in H. rewrite Z.ltb_lt, Z.eqb_eq in H. lia.
Qed.

Lemma fle_Fin_l x c :
  fle (Fin c) x = true -> x = Inf false \/ exists a, x = Fin a /\ c <= a.
Proof.
  destruct x as [|[]|a]; unfold fle; simpl; try discriminate; auto.
  intros H. right. exists a. split; [reflexivity|].
  apply orb_true_iff in H. rewrite Z.ltb_lt, Z.eqb_eq in H. lia.
Qed.

(** A rounded value between two finite floats is finite. *)
Lemma rnd_between a b lo hi :
  0 < b -> repr lo = true -> repr hi = true -> lo * b <= a -> a <= hi * b ->
  exists N, rnd a b = Fin N /\ repr N = true /\ lo <= N <= hi.
Proof.
  intros Hb Hlo Hhi H1 H2.
  pose proof (rnd_valid a b Hb) as Hv.
  pose proof (rnd_le a b hi Hb Hhi H2) as Hle.
  pose proof (rnd_ge a b lo Hb Hlo H1) as Hge.
  destruct (fle_Fin_r _ _ Hle) as [E|[N [E HN]]].
  - rewrite E in Hge. discriminate.
  - exists N. rewrite E in *. apply fle_Fin in Hge. auto.
Qed.

Lemma fmul_valid x y : valid (fmul x y) = true.
Proof.
  destruct x as [|sx|a], y as [|sy|b]; cbn [fmul];
    try (apply rnd_valid; apply scale_pos); try reflexivity.
  - destruct (b =? 0); reflexivity.
  - destruct (a =? 0); reflexivity.
Qed.

Lemma fadd_valid x y : valid (fadd x y) = true.
Proof.
  destruct x as [|sx|a], y as [|sy|b]; cbn [fadd];
    try (apply rnd_valid; lia); try reflexivity.
  destruct (Bool.eqb sx sy); reflexivity.
Qed.

Lemma fmul_comm x y : fmul x y = fmul y x.
Proof.
  destruct x as [|sx|a], y as [|sy|b]; cbn [fmul];
    try (rewrite Z.mul_comm; reflexivity); try reflexivity;
    rewrite xorb_comm; reflexivity.
Qed.

(** The product of two finite floats whose exact value lies between two
    floats. *)
Lemma fmul_between a b lo hi :
  repr lo = true -> repr hi = true -> lo * scale <= a * b -> a * b <= hi * scale ->
  exists N, fmul (Fin a) (Fin b) = Fin N /\ repr N = true /\ lo <= N <= hi.
Proof. intros. cbn [fmul]. apply rnd_between; auto. apply scale_pos. Qed.

Lemma fadd_between a b lo hi :
  repr lo = true -> repr hi = true -> lo <= a + b -> a + b <= hi ->
  exists N, fadd (Fin a) (Fin b) = Fin N /\ repr N = true /\ lo <= N <= hi.
Proof. intros. cbn [fadd]. apply rnd_between; auto; lia. Qed.

(** [py_max lo (py_min hi v)] with finite bounds [lo <= hi]. *)
Lemma clamp_range v lo hi :
  lo <= hi -> repr lo = true -> repr hi = true -> valid v = true ->
  exists r, py_max (Fin lo) (py_min (Fin hi) v) = Fin r /\ repr r = true /\ lo <= r <= hi.
Proof.
  intros Hlh Hlo Hhi Hv. unfold py_max, py_min, fgt.
  destruct (flt v (Fin hi)) eqn:E1.
  - destruct (flt (Fin lo) v) eqn:E2.
    + destruct v as [|s|a]; simpl in *; try discriminate.
      * destruct s; discriminate.
      * exists a. apply Z.ltb_lt in E1, E2. repeat split; auto; lia.
    + exists lo. repeat split; auto; lia.
  - destruct (flt (Fin lo) (Fin hi)) eqn:E2.
    + exists hi. repeat split; auto; lia.
    + exists lo. repeat split; auto; lia.
Qed.

End FloatOrder.
Import FloatOrder.

(** * The constants of the sources, as floats *)
Module Constants.

(** The number of units of a finite float. *)
Definition units (x : float) : Z := match x with Fin N => N | _ => 0 end.

(** A literal is a finite, well-formed float. *)
Definition is_lit (x : float) : Prop := x = Fin (units x) /\ repr (units x) = true.

Ltac lit := split; vm_compute; reflexivity.
Ltac cmp := vm_compute; congruence.

Lemma lit_0 : is_lit f0. Proof. lit. Qed.
Lemma lit_1 : is_lit f1. Proof. lit. Qed.
Lemma lit_0_01 : is_lit (literal 1 100). Proof. lit. Qed.
Lemma lit_0_03 : is_lit (literal 3 100). Proof. lit. Qed.
Lemma lit_0_05 : is_lit (literal 5 100). Proof. lit. Qed.
Lemma lit_0_1 : is_lit (literal 1 10). Proof. lit. Qed.
Lemma lit_0_2 : is_lit (literal 2 10). Proof. lit. Qed.
Lemma lit_0_20 : is_lit (literal 20 100). Proof. lit. Qed.
Lemma lit_0_5 : is_lit (literal 5 10). Proof. lit. Qed.
Lemma lit_0_17 : is_lit (fsub (literal 20 100) (literal 3 100)). Proof. lit. Qed.

Lemma units_1 : units f1 = scale. Proof. vm_compute; reflexivity. Qed.
Lemma units_0 : units f0 = 0. Proof. reflexivity. Qed.
Lemma units_0_5 : 2 * units (literal 5 10) = scale. Proof. vm_compute; reflexivity. Qed.
Lemma bound_0_01 : 0 < units (literal 1 100) /\ 16 * units (literal 1 100) <= scale.
Proof. split; cmp. Qed.
Lemma bound_0_05 : 0 < units (literal 5 100) /\ 16 * units (literal 5 100) <= scale.
Proof. split; cmp. Qed.
Lemma bound_0_1 : units (literal 1 100) <= units (literal 1 10) /\ 2 * units (literal 1 10) <= scale.
Proof. split; cmp. Qed.
Lemma bound_0_2 : 0 < units (literal 2 10) /\ units (literal 2 10) <= units (literal 5 10)
                  /\ 4 * units (literal 2 10) <= scale.
Proof. repeat split; cmp. Qed.
Lemma bound_0_01_0_2 : units (literal 1 100) <= units (literal 2 10).
Proof. cmp. Qed.
Lemma bound_0_20 : 4 * units (literal 20 100) <= scale.
Proof. cmp. Qed.
Lemma sum_0_03_0_17 :
  units (literal 3 100) + units (fsub (literal 20 100) (literal 3 100)) = units (literal 20 100).
Proof. vm_compute; reflexivity. Qed.
Lemma bound_0_03 : 0 < units (literal 3 100).
Proof. cmp. Qed.
Lemma bound_0_17 : 0 < units (fsub (literal 20 100) (literal 3 100)).
Proof. cmp. Qed.

End Constants.
Import FloatOrder Constants.

Module PolicyFacts.

Lemma clamp_lit v lo hi :
  is_lit lo -> is_lit hi -> units lo <= units hi -> valid v = true ->
  exists r, py_max lo (py_min hi v) = Fin r /\ repr r = true
            /\ units lo <= r <= units hi.
Proof.
  intros [El Rl] [Eh Rh] Hlh Hv.
  remember (units lo) as l eqn:Hl. remember (units hi) as h eqn:Hh.
  clear Hl Hh. subst lo hi. apply clamp_range; assumption.
Qed.

(** The decoy rate is a finite float of [[0.01, 0.5]]. *)
Lemma decoy_rate_range sr c :
  exists r, calculate_decoy_rate sr c = Fin r /\ repr r = true
            /\ units (literal 1 100) <= r <= units (literal 5 10).
Proof.
  unfold calculate_decoy_rate, _clamp. cbv zeta.
  pose proof bound_0_1 as B1. pose proof bound_0_2 as B2. pose proof bound_0_01 as B0.
  pose proof units_0_5 as B5. pose proof bound_0_01_0_2 as B6.
  destruct (fge sr sr_min && fge c gamma_t).
  - destruct (clamp_lit (fmul (literal 2 10)
                (py_min (literal 25 10) (fquot (fadd sr (fquot c gamma_t)) (literal 10 1))))
                (literal 2 10) (literal 5 10) lit_0_2 lit_0_5)
      as [r [E [Rr Hr]]]; [lia | apply fmul_valid |].
    exists r. split; [exact E|]. split; [exact Rr|]. lia.
  - destruct (clamp_lit (fmul (literal 1 100)
                (py_min (literal 10 1) (fadd sr (fquot c gamma_t))))
                (literal 1 100) (literal 1 10) lit_0_01 lit_0_1)
      as [r [E [Rr Hr]]]; [lia | apply fmul_valid |].
    exists r. split; [exact E|]. split; [exact Rr|]. lia.
Qed.

End PolicyFacts.
Import PolicyFacts.

Module CountFacts.

Lemma reprP_div_pow2 (j : nat) c :
  reprP c -> 2 ^ (52 + Z.of_nat j) <= c ->
  reprP (c / 2 ^ Z.of_nat j) /\ 2 ^ Z.of_nat j * (c / 2 ^ Z.of_nat j) = c.
Proof.
  revert c. induction j as [|j IH]; intros c Hr Hc.
  - change (2 ^ Z.of_nat 0) with 1. rewrite Z.div_1_r. split; [assumption|lia].
  - rewrite Nat2Z.inj_succ in *. unfold Z.succ in *.
    assert (Hp : 0 < 2 ^ Z.of_nat j) by (apply Z.pow_pos_nonneg; lia).
    assert (E1 : 2 ^ (52 + (Z.of_nat j + 1)) = 2 * 2 ^ (52 + Z.of_nat j)).
    { replace (52 + (Z.of_nat j + 1)) with (1 + (52 + Z.of_nat j)) by lia.
      rewrite Z.pow_add_r by lia. reflexivity. }
    assert (E2 : 2 ^ (Z.of_nat j + 1) = 2 * 2 ^ Z.of_nat j).
    { replace (Z.of_nat j + 1) with (1 + Z.of_nat j) by lia.
      rewrite Z.pow_add_r by lia. reflexivity. }
    assert (E3 : 2 ^ (52 + Z.of_nat j) = 2 ^ 52 * 2 ^ Z.of_nat j)
      by (rewrite Z.pow_add_r by lia; reflexivity).
    destruct (reprP_half c Hr) as [Hh Eh]; [nia|].
    destruct (IH (c / 2) Hh) as [Hr' E']; [nia|].
    rewrite E2. rewrite <- Z.div_div by lia.
    split; [assumption|]. rewrite <- Eh at 2. rewrite <- E' at 2. ring.
Qed.

Lemma repr_scale : repr scale = true. Proof. vm_compute; reflexivity. Qed.
Lemma repr_zero : repr 0 = true. Proof. vm_compute; reflexivity. Qed.
Lemma repr_top : repr (2 ^ 1023 * scale) = true. Proof. vm_compute; reflexivity. Qed.
Lemma scale_big : 2 ^ 60 <= scale. Proof. vm_compute; congruence. Qed.

Lemma rnd_pos_units a b N :
  0 <= a -> 0 < b -> rnd a b = Fin N -> N = Z.sgn a * round_pos a b.
Proof.
  intros Ha Hb. rewrite rnd_unfold by assumption. rewrite (Z.abs_eq a) by assumption.
  destruct (huge <=? round_pos a b); [discriminate|]. congruence.
Qed.

(** [float(n)] for [0 <= n], when it is returned: a finite float within
    one part in [2^52] above [n], and at least [1.0] from [n = 1] on. *)
Lemma of_int_facts n x :
  0 <= n -> of_int n = Ok x ->
  exists F, x = Fin F /\ repr F = true /\ 0 <= F
            /\ F * 2 ^ 52 <= n * scale * (2 ^ 52 + 1)
            /\ (F <> 0 -> scale <= F).
Proof.
  intros H0. unfold of_int.
  pose proof scale_pos as Hs. pose proof scale_big as Hb.
  pose proof (rnd_valid (n * scale) 1 ltac:(lia)) as Hv.
  destruct (rnd (n * scale) 1) as [| |F] eqn:E; try discriminate.
  intros [= <-]. exists F. split; [reflexivity|]. split; [exact Hv|].
  apply rnd_pos_units in E; [|nia|lia].
  destruct (Z.eq_dec n 0) as [->|Hn0].
  - change (0 * scale) with 0 in E. rewrite round_pos_zero in E by lia.
    subst F. lia.
  - rewrite Z.sgn_pos in E by nia. rewrite Z.mul_1_l in E. subst F.
    pose proof (round_pos_rel (n * scale) 1 ltac:(nia) ltac:(lia) ltac:(nia)).
    pose proof (round_pos_ge (n * scale) 1 scale ltac:(nia) ltac:(lia) ltac:(lia)) as Hge.
    assert (HrS : reprP scale) by (vm_compute; reflexivity).
    specialize (Hge HrS ltac:(nia)). lia.
Qed.

(** [float(n)] is returned for [0 <= n <= 2^1023]. *)
Lemma of_int_total n :
  0 <= n -> n <= 2 ^ 1023 -> exists F, of_int n = Ok (Fin F).
Proof.
  intros H0 Hn. unfold of_int.
  pose proof scale_pos as Hs.
  destruct (rnd_between (n * scale) 1 0 (2 ^ 1023 * scale))
    as [F [E _]]; try lia; [apply repr_zero | apply repr_top | nia |].
  exists F. rewrite E. reflexivity.
Qed.

Lemma repr_abs_nonneg c : 0 <= c -> repr c = true -> reprP c /\ c < huge.
Proof.
  intros Hc H. apply repr_spec in H. rewrite Z.abs_eq in H by assumption. tauto.
Qed.

(** The product [float(n) * rate] for a rate of at most [2^-j]. *)
Lemma product_bound (j : nat) n F r :
  repr F = true -> 0 <= F ->
  F * 2 ^ 52 <= n * scale * (2 ^ 52 + 1) -> (F <> 0 -> scale <= F) ->
  (Z.of_nat j <= 8) -> 0 <= r -> r * 2 ^ Z.of_nat j <= scale ->
  exists P, fmul (Fin F) (Fin r) = Fin P /\ repr P = true /\ 0 <= P
            /\ P * 2 ^ Z.of_nat j * 2 ^ 52 <= n * scale * (2 ^ 52 + 1).
Proof.
  intros RF HF0 Hrel Hbig Hj Hr0 Hr.
  pose proof scale_pos as Hs. pose proof scale_big as Hb.
  assert (Hp : 0 < 2 ^ Z.of_nat j) by (apply Z.pow_pos_nonneg; lia).
  destruct (Z.eq_dec F 0) as [->|HFn].
  - exists 0. split; [vm_compute; reflexivity|]. split; [apply repr_zero|]. nia.
  - specialize (Hbig HFn).
    destruct (repr_abs_nonneg F HF0 RF) as [HP Hh].
    assert (Hlow : 2 ^ (52 + Z.of_nat j) <= F).
    { apply Z.le_trans with (2 ^ 60); [|lia]. apply Z.pow_le_mono_r; lia. }
    destruct (reprP_div_pow2 j F HP Hlow) as [HPq Eq].
    set (q := F / 2 ^ Z.of_nat j) in *.
    assert (Hq0 : 0 <= q) by nia.
    assert (Rq : repr q = true).
    { apply repr_spec. rewrite Z.abs_eq by assumption. split; [nia|assumption]. }
    destruct (fmul_between F r 0 q repr_zero Rq) as [P [EP [RP HP']]]; [nia | nia |].
    exists P. split; [exact EP|]. split; [exact RP|]. split; [lia|]. nia.
Qed.

(** [int(num_leaves * rate)] for a rate of at most [2^-j]. *)
Lemma scaled_count_bound (j : nat) n F r :
  of_int n = Ok (Fin F) -> repr F = true -> 0 <= F ->
  F * 2 ^ 52 <= n * scale * (2 ^ 52 + 1) -> (F <> 0 -> scale <= F) ->
  (Z.of_nat j <= 8) -> 0 <= r -> r * 2 ^ Z.of_nat j <= scale ->
  exists k, scaled_count n (Fin r) = Ok k /\ 0 <= k
            /\ k * 2 ^ Z.of_nat j * 2 ^ 52 <= n * (2 ^ 52 + 1).
Proof.
  intros E RF HF0 Hrel Hbig Hj Hr0 Hr.
  pose proof scale_pos as Hs.
  destruct (product_bound j n F r RF HF0 Hrel Hbig Hj Hr0 Hr) as [P [EP [_ [HP0 HP]]]].
  unfold scaled_count. rewrite E. unfold bind at 1. rewrite EP.
  unfold to_int. exists (Z.quot P scale). split; [reflexivity|].
  rewrite Z.quot_div_nonneg by lia.
  pose proof (Z.div_mod P scale ltac:(lia)) as Ed.
  pose proof (Z.mod_pos_bound P scale Hs) as Bd.
  assert (Hq : 0 <= P / scale) by (apply Z.div_pos; lia).
  split; [assumption|].
  assert (Hp : 0 < 2 ^ Z.of_nat j) by (apply Z.pow_pos_nonneg; lia).
  assert (P / scale * 2 ^ Z.of_nat j * 2 ^ 52 * scale <= n * (2 ^ 52 + 1) * scale) by nia.
  apply Z.mul_le_mono_pos_r with scale; assumption.
Qed.

End CountFacts.
Import CountFacts.

Module ListFacts.

Lemma py_range_length n : List.length (py_range n) = Z.to_nat n.
Proof. unfold py_range. rewrite length_map, length_seq. reflexivity. Qed.

Lemma py_range_in n i : In i (py_range n) <-> 0 <= i < n.
Proof.
  unfold py_range. rewrite in_map_iff. split.
  - intros [k [<- Hk]]. apply in_seq in Hk. lia.
  - intros H. exists (Z.to_nat i). split; [lia|]. apply in_seq. lia.
Qed.

Lemma py_range_nodup n : NoDup (py_range n).
Proof.
  unfold py_range. apply NoDup_map_inv with (f := Z.to_nat). rewrite map_map. erewrite map_ext; [|intros k; apply Nat2Z.id]. rewrite map_id. apply seq_NoDup.
Qed.

Lemma list_get_nth {A} (l : list A) i d :
  0 <= i < Z.of_nat (List.length l) -> list_get l i = Ok (nth (Z.to_nat i) l d).
Proof.
  intros H. unfold list_get.
  destruct (Z.ltb_spec i 0); [lia|].
  destruct (nth_error l (Z.to_nat i)) eqn:E.
  - rewrite (nth_error_nth _ _ d E). reflexivity.
  - apply nth_error_None in E. lia.
Qed.

Lemma list_get_ok {A} (l : list A) i a :
  list_get l i = Ok a -> 0 <= i < Z.of_nat (List.length l).
Proof.
  unfold list_get. destruct (Z.ltb_spec i 0); [discriminate|].
  destruct (nth_error l (Z.to_nat i)) eqn:E; [|discriminate].
  intros _. assert (Z.to_nat i < List.length l)%nat by (apply nth_error_Some; congruence).
  lia.
Qed.

Lemma mapM_list_get {A} (l : list A) d idxs :
  (forall i, In i idxs -> 0 <= i < Z.of_nat (List.length l)) ->
  mapM (list_get l) idxs = Ok (map (fun i => nth (Z.to_nat i) l d) idxs).
Proof.
  induction idxs as [|i idxs IH]; intros H; [reflexivity|].
  simpl. rewrite (list_get_nth l i d) by (apply H; left; reflexivity).
  simpl. rewrite IH by (intros j Hj; apply H; right; assumption). reflexivity.
Qed.

Lemma mapM_ok_in {A B} (f : A -> result B) l bs :
  mapM f l = Ok bs -> forall a, In a l -> exists b, f a = Ok b.
Proof.
  revert bs. induction l as [|x l IH]; intros bs H a Ha; [contradiction|].
  simpl in H. destruct (f x) eqn:Ex; [|discriminate]. simpl in H.
  destruct (mapM f l) eqn:El; [|discriminate].
  destruct Ha as [<-|Ha]; [eauto|]. eapply IH; eauto.
Qed.

Lemma map_nth_range {A} (l : list A) d :
  map (fun i => nth (Z.to_nat i) l d) (py_range (Z.of_nat (List.length l))) = l.
Proof.
  unfold py_range. rewrite Nat2Z.id, map_map.
  erewrite map_ext; [|intros k; rewrite Nat2Z.id; reflexivity].
  induction l as [|a l IH]; [reflexivity|].
  simpl. f_equal. rewrite <- seq_shift, map_map. exact IH.
Qed.

(** Reading a list through a permutation of its index range permutes it. *)
Lemma mapM_list_get_perm {A} (l : list A) idxs out :
  Permutation idxs (py_range (Z.of_nat (List.length l))) ->
  mapM (list_get l) idxs = Ok out -> Permutation out l.
Proof.
  intros HP H.
  destruct l as [|d l'].
  - simpl in HP. apply Permutation_sym, Permutation_nil in HP. subst idxs.
    simpl in H. injection H as <-. constructor.
  - remember (d :: l') as l eqn:El. clear El.
    rewrite (mapM_list_get l d) in H.
    + injection H as <-.
      apply Permutation_trans
        with (map (fun i => nth (Z.to_nat i) l d) (py_range (Z.of_nat (List.length l)))).
      * apply Permutation_map. exact HP.
      * rewrite map_nth_range. apply Permutation_refl.
    + intros i Hi. apply py_range_in. eapply Permutation_in; eauto.
Qed.

Lemma mapM_list_get_total {A} (l : list A) idxs :
  Permutation idxs (py_range (Z.of_nat (List.length l))) ->
  exists out, mapM (list_get l) idxs = Ok out.
Proof.
  intros HP. destruct l as [|d l'].
  - simpl in HP. apply Permutation_sym, Permutation_nil in HP. subst idxs.
    exists []. reflexivity.
  - remember (d :: l') as l eqn:El. clear El.
    eexists. apply (mapM_list_get l d).
    intros i Hi. apply py_range_in. eapply Permutation_in; eauto.
Qed.

Lemma py_repeat_length {A} (a : A) k : 0 <= k -> Z.of_nat (List.length (py_repeat a k)) = k.
Proof. intros H. unfold py_repeat. rewrite repeat_length. lia. Qed.

End ListFacts.
Import ListFacts.

Module ActionFacts.

(** The list [generate_actions] builds before shuffling. *)
Definition blocks (nd nm nr nv : Z) : list action :=
  py_repeat DECOY nd ++ py_repeat MUTATE nm ++ py_repeat REASSIGN nr ++ py_repeat VALID nv.

Lemma blocks_length nd nm nr nv :
  0 <= nd -> 0 <= nm -> 0 <= nr -> 0 <= nv ->
  Z.of_nat (List.length (blocks nd nm nr nv)) = nd + nm + nr + nv.
Proof.
  intros. unfold blocks. rewrite !length_app, !Nat2Z.inj_add, !py_repeat_length by assumption.
  lia.
Qed.

Lemma py_count_app x l1 l2 : py_count x (l1 ++ l2) = py_count x l1 + py_count x l2.
Proof. unfold py_count. rewrite filter_app, length_app. lia. Qed.

Lemma py_count_repeat x a k :
  0 <= k -> py_count x (py_repeat a k) = if action_eqb a x then k else 0.
Proof.
  intros Hk. unfold py_count, py_repeat.
  assert (H : forall n, List.length (filter (fun b => action_eqb b x) (repeat a n))
                        = if action_eqb a x then n else O).
  { induction n as [|n IH]; simpl; [destruct (action_eqb a x); reflexivity|].
    destruct (action_eqb a x); simpl; lia. }
  rewrite H. destruct (action_eqb a x); lia.
Qed.

Lemma py_count_perm x l1 l2 : Permutation l1 l2 -> py_count x l1 = py_count x l2.
Proof.
  unfold py_count. intros H. f_equal.
  induction H as [|a l l' _ IH|a b l|l l' l'' _ IH1 _ IH2]; simpl.
  - reflexivity.
  - destruct (action_eqb a x); simpl; lia.
  - destruct (action_eqb a x), (action_eqb b x); reflexivity.
  - lia.
Qed.

Lemma blocks_count nd nm nr nv :
  0 <= nd -> 0 <= nm -> 0 <= nr -> 0 <= nv ->
  py_count DECOY (blocks nd nm nr nv) = nd /\
  py_count MUTATE (blocks nd nm nr nv) = nm /\
  py_count REASSIGN (blocks nd nm nr nv) = nr /\
  py_count VALID (blocks nd nm nr nv) = nv.
Proof.
  intros. unfold blocks. rewrite !py_count_app, !py_count_repeat by assumption.
  simpl. lia.
Qed.

End ActionFacts.
Import ActionFacts.

Module PolicyActions.

(** The three counts [generate_actions] computes. *)
Definition num_decoy (n : Z) (sr c : float) : result Z :=
  scaled_count n (calculate_decoy_rate sr c).
Definition num_mutate (n : Z) (sr : float) : result Z :=
  if fge sr sr_min then scaled_count n (literal 5 100) else Ok 0.
Definition num_reassign (n : Z) (sr : float) : result Z :=
  if flt sr sr_min then scaled_count n (literal 5 100) else Ok 0.

(** A seed [np.random.seed] accepts, or none. *)
Definition seed_ok (seed : option Z) : Prop :=
  match seed with Some s => np_random_seed s = Ok tt | None => True end.

Lemma scaled_count_conv n r k : scaled_count n r = Ok k -> exists x, of_int n = Ok x.
Proof.
  unfold scaled_count. destruct (of_int n) as [x|]; [eauto|discriminate].
Qed.

(** Whenever [float(n)] exists the three counts exist, are not negative
    and leave room for [num_valid >= 0]. *)
Lemma counts_fit n x sr c :
  0 <= n -> of_int n = Ok x ->
  exists nd nm nr,
    num_decoy n sr c = Ok nd /\ num_mutate n sr = Ok nm /\ num_reassign n sr = Ok nr
    /\ 0 <= nd /\ 0 <= nm /\ 0 <= nr /\ nd + nm + nr <= n.
Proof.
  intros Hn Hx.
  destruct (of_int_facts n x Hn Hx) as [F [-> [RF [HF0 [Hrel Hbig]]]]].
  destruct (decoy_rate_range sr c) as [r [Er [Rr Hr]]].
  pose proof units_0_5 as B5. pose proof bound_0_01 as B1. pose proof bound_0_05 as B05.
  destruct lit_0_05 as [E05 R05].
  destruct (scaled_count_bound 1 n F r Hx RF HF0 Hrel Hbig ltac:(lia) ltac:(lia))
    as [nd [End [Hnd0 Hnd]]].
  { change (2 ^ Z.of_nat 1) with 2. lia. }
  destruct (scaled_count_bound 4 n F (units (literal 5 100)) Hx RF HF0 Hrel Hbig
              ltac:(lia) ltac:(lia))
    as [k [Ek [Hk0 Hk]]].
  { change (2 ^ Z.of_nat 4) with 16. lia. }
  change (2 ^ Z.of_nat 1) with 2 in Hnd. change (2 ^ Z.of_nat 4) with 16 in Hk.
  rewrite <- E05 in Ek.
  exists nd, (if fge sr sr_min then k else 0), (if flt sr sr_min then k else 0).
  unfold num_decoy, num_mutate, num_reassign. rewrite Er.
  split; [exact End|].
  split; [destruct (fge sr sr_min); [exact Ek|reflexivity]|].
  split; [destruct (flt sr sr_min); [exact Ek|reflexivity]|].
  split; [exact Hnd0|].
  split; [destruct (fge sr sr_min); lia|].
  split; [destruct (flt sr sr_min); lia|].
  assert (Hp : 2 ^ 52 = 4503599627370496) by reflexivity. rewrite Hp in *.
  destruct (fge sr sr_min), (flt sr sr_min); lia.
Qed.

Section WithRandom.
Context {R : RandomSource} {RL : RandomSourceLaws R}.

Lemma generate_actions_unfold n sr c seed nd nm nr :
  num_decoy n sr c = Ok nd -> num_mutate n sr = Ok nm -> num_reassign n sr = Ok nr ->
  seed_ok seed ->
  generate_actions n sr c seed =
    match seed with
    | Some s => mapM (list_get (blocks nd nm nr (n - nd - nm - nr)))
                     (np_shuffle s (py_range n))
    | None => Ok (blocks nd nm nr (n - nd - nm - nr))
    end.
Proof.
  unfold num_decoy, num_mutate, num_reassign, seed_ok, generate_actions.
  intros E1 E2 E3 Hs.
  destruct seed as [s|]; [rewrite Hs|]; unfold bind at 1;
    rewrite E1; unfold bind at 1; rewrite E2; unfold bind at 1;
    rewrite E3; unfold bind at 1; reflexivity.
Qed.

Lemma generate_actions_inv n sr c seed acts :
  generate_actions n sr c seed = Ok acts ->
  seed_ok seed /\ exists x, of_int n = Ok x.
Proof.
  unfold generate_actions, seed_ok. intros H.
  assert (Hs : match seed with Some s => np_random_seed s | None => Ok tt end = Ok tt).
  { destruct seed as [s|]; [|reflexivity].
    destruct (np_random_seed s) as [[]|]; [reflexivity|discriminate]. }
  split; [destruct seed; [assumption|exact I]|].
  rewrite Hs in H. unfold bind at 1 in H.
  destruct (scaled_count n (calculate_decoy_rate sr c)) eqn:E; [|discriminate].
  eapply scaled_count_conv; eauto.
Qed.

(** What [generate_actions] returns: the four blocks, permuted when a
    seed is given. *)
Lemma generate_actions_spec n sr c seed acts :
  0 <= n -> generate_actions n sr c seed = Ok acts ->
  exists nd nm nr,
    num_decoy n sr c = Ok nd /\ num_mutate n sr = Ok nm /\ num_reassign n sr = Ok nr
    /\ 0 <= nd /\ 0 <= nm /\ 0 <= nr /\ nd + nm + nr <= n
    /\ Permutation acts (blocks nd nm nr (n - nd - nm - nr))
    /\ (seed = None -> acts = blocks nd nm nr (n - nd - nm - nr)).
Proof.
  intros Hn H.
  destruct (generate_actions_inv _ _ _ _ _ H) as [Hs [x Hx]].
  destruct (counts_fit n x sr c Hn Hx) as [nd [nm [nr [E1 [E2 [E3 [H1 [H2 [H3 H4]]]]]]]]].
  exists nd, nm, nr. repeat (split; [assumption|]).
  rewrite (generate_actions_unfold n sr c seed nd nm nr E1 E2 E3 Hs) in H.
  destruct seed as [s|].
  - split; [|discriminate].
    eapply mapM_list_get_perm; [|exact H].
    rewrite blocks_length by lia.
    replace (nd + nm + nr + (n - nd - nm - nr)) with n by lia.
    apply np_shuffle_perm.
  - injection H as <-. split; [apply Permutation_refl|reflexivity].
Qed.

(** [generate_actions] returns for every leaf count a float can hold and
    every seed NumPy accepts. *)
Lemma generate_actions_total n sr c seed :
  0 <= n -> n <= 2 ^ 1023 -> seed_ok seed ->
  exists acts, generate_actions n sr c seed = Ok acts.
Proof.
  intros Hn Hb Hs.
  destruct (of_int_total n Hn Hb) as [F Hx].
  destruct (counts_fit n _ sr c Hn Hx) as [nd [nm [nr [E1 [E2 [E3 [H1 [H2 [H3 H4]]]]]]]]].
  rewrite (generate_actions_unfold n sr c seed nd nm nr E1 E2 E3 Hs).
  destruct seed as [s|]; [|eauto].
  apply mapM_list_get_total.
  rewrite blocks_length by lia.
  replace (nd + nm + nr + (n - nd - nm - nr)) with n by lia.
  apply np_shuffle_perm.
Qed.

End WithRandom.
End PolicyActions.
Import PolicyActions.

Module PlannerFacts.

(** [py_min hi (py_max lo v)] with finite bounds [lo <= hi]. *)
Lemma minmax_lit v lo hi :
  is_lit lo -> is_lit hi -> units lo <= units hi -> valid v = true ->
  exists r, py_min hi (py_max lo v) = Fin r /\ repr r = true
            /\ units lo <= r <= units hi.
Proof.
  intros [El Rl] [Eh Rh] Hlh Hv.
  remember (units lo) as l eqn:Hl. remember (units hi) as h eqn:Hh.
  clear Hl Hh. subst lo hi. unfold py_min, py_max, fgt.
  destruct (flt (Fin l) v) eqn:E1.
  - destruct (flt v (Fin h)) eqn:E2.
    + destruct v as [|s|a]; try discriminate.
      * destruct s; discriminate.
      * apply flt_Fin in E1, E2. exists a. split; [reflexivity|]. split; [exact Hv|lia].
    + exists h. split; [reflexivity|]. split; [assumption|lia].
  - destruct (flt (Fin l) (Fin h)) eqn:E2.
    + exists l. split; [reflexivity|]. split; [assumption|lia].
    + exists h. split; [reflexivity|]. split; [assumption|lia].
Qed.

(** The rotation percentage is a finite float of [[0.03, 0.20]]. *)
Lemma pct_range risk :
  valid risk = true ->
  exists p, pct_of risk = Fin p /\ repr p = true
            /\ units (literal 3 100) <= p <= units (literal 20 100).
Proof.
  intros Hv. unfold pct_of.
  destruct (minmax_lit risk f0 f1 lit_0 lit_1) as [r [Er [Rr Hr]]];
    [rewrite units_0, units_1; pose proof scale_pos; lia | exact Hv |].
  rewrite units_0, units_1 in Hr. rewrite Er.
  destruct lit_0_17 as [E17 R17]. destruct lit_0_03 as [E03 R03].
  destruct lit_0_20 as [E20 R20].
  pose proof bound_0_17 as B17. pose proof bound_0_03 as B03.
  pose proof sum_0_03_0_17 as Hsum. pose proof scale_pos as Hs.
  rewrite E17.
  destruct (fmul_between (units (fsub (literal 20 100) (literal 3 100))) r 0
              (units (fsub (literal 20 100) (literal 3 100))) repr_zero R17)
    as [q [Eq [Rq Hq]]]; [nia | nia |].
  rewrite Eq, E03.
  destruct (fadd_between (units (literal 3 100)) q (units (literal 3 100))
              (units (literal 20 100)) R03 R20)
    as [p [Ep [Rp Hp]]]; [lia | lia |].
  exists p. split; [exact Ep|]. split; [exact Rp|exact Hp].
Qed.

Lemma risk_valid sr c : valid (risk_of sr c) = true.
Proof. unfold risk_of. apply fadd_valid. Qed.

(** The rotation count: at least one, and at most [n] from [n = 1] on. *)
Lemma count_of_bound n x p :
  0 <= n -> of_int n = Ok x -> 0 <= p -> 4 * p <= scale ->
  exists k, count_of n (Fin p) = Ok k /\ 1 <= k /\ (1 <= n -> k <= n).
Proof.
  intros Hn Hx Hp0 Hp.
  destruct (of_int_facts n x Hn Hx) as [F [-> [RF [HF0 [Hrel Hbig]]]]].
  pose proof scale_pos as Hs.
  destruct (product_bound 2 n F p RF HF0 Hrel Hbig ltac:(lia) Hp0)
    as [P [EP [RP [HP0 HP]]]].
  { change (2 ^ Z.of_nat 2) with 4. lia. }
  change (2 ^ Z.of_nat 2) with 4 in HP.
  unfold count_of. rewrite Hx. unfold bind at 1. rewrite EP.
  unfold ceil, bind. eexists. split; [reflexivity|]. split; [lia|].
  intros Hn1.
  assert (Hp52 : 2 ^ 52 = 4503599627370496) by reflexivity. rewrite Hp52 in *.
  assert (P <= n * scale) by nia.
  assert (- n <= - P / scale) by (apply Z.div_le_lower_bound; lia).
  lia.
Qed.

(** [sorted] sorts. *)
Lemma insert_sorted_perm x l : Permutation (insert_sorted x l) (x :: l).
Proof.
  induction l as [|y l IH]; simpl; [apply Permutation_refl|].
  destruct (x <=? y); [apply Permutation_refl|].
  eapply Permutation_trans; [apply perm_skip, IH|apply perm_swap].
Qed.

Lemma py_sorted_perm l : Permutation (py_sorted l) l.
Proof.
  induction l as [|x l IH]; simpl; [constructor|].
  eapply Permutation_trans; [apply insert_sorted_perm|]. apply perm_skip, IH.
Qed.

Lemma insert_sorted_sorted x l :
  Sorted Z.le l -> Sorted Z.le (insert_sorted x l).
Proof.
  induction l as [|y l IH]; intros Hs; simpl.
  - constructor; constructor.
  - destruct (Z.leb_spec x y).
    + constructor; [assumption|]. constructor. assumption.
    + inversion Hs as [|? ? Hs' Hd]; subst.
      constructor; [apply IH; assumption|].
      destruct l as [|z l]; simpl.
      * constructor. lia.
      * destruct (Z.leb_spec x z); constructor; try lia.
        inversion Hd; subst. assumption.
Qed.

Lemma py_sorted_sorted l : Sorted Z.le (py_sorted l).
Proof.
  induction l as [|x l IH]; simpl; [constructor|]. apply insert_sorted_sorted, IH.
Qed.

End PlannerFacts.
Import PlannerFacts.

(** * The reference instances satisfy the laws *)
Module ReferenceLaws.
Import MT19937.

Lemma list_set_length {A} (l : list A) i v : List.length (list_set l i v) = List.length l.
Proof.
  revert i. induction l as [|a l IH]; intros [|i]; simpl; try reflexivity.
  rewrite IH. reflexivity.
Qed.

Lemma nth_list_set {A} (l : list A) i j v d :
  (i < List.length l)%nat ->
  nth j (list_set l i v) d = if Nat.eqb i j then v else nth j l d.
Proof.
  revert i j. induction l as [|a l IH]; intros [|i] [|j] H; simpl in *; try lia; try reflexivity.
  apply IH. lia.
Qed.

Definition ind (x y : Z) : nat := if Z.eq_dec x y then 1%nat else 0%nat.

Lemma count_list_set (l : list Z) i v x :
  (i < List.length l)%nat ->
  (count_occ Z.eq_dec (list_set l i v) x + ind (nth i l 0%Z) x
   = count_occ Z.eq_dec l x + ind v x)%nat.
Proof.
  unfold ind. revert i. induction l as [|a l IH]; intros [|i] H; simpl in *; try lia.
  - destruct (Z.eq_dec v x), (Z.eq_dec a x); lia.
  - specialize (IH i ltac:(lia)). destruct (Z.eq_dec a x); lia.
Qed.

Lemma swap_perm l i j :
  (i < List.length l)%nat -> (j < List.length l)%nat -> Permutation (swap l i j) l.
Proof.
  intros Hi Hj. apply (Permutation_count_occ Z.eq_dec). intros x.
  unfold swap, at_.
  pose proof (count_list_set l i (nth j l 0) x Hi) as H1.
  pose proof (count_list_set (list_set l i (nth j l 0)) j (nth i l 0) x
                ltac:(rewrite list_set_length; exact Hj)) as H2.
  rewrite (nth_list_set l i j _ 0 Hi) in H2.
  destruct (Nat.eqb_spec i j) as [->|Hn]; lia.
Qed.

Lemma swap_length l i j : List.length (swap l i j) = List.length l.
Proof. unfold swap. rewrite !list_set_length. reflexivity. Qed.

Lemma randbelow_lt fuel n s : 0 < n -> fst (randbelow fuel n s) < n.
Proof.
  intros Hn. revert s. induction fuel as [|fuel IH]; intros s; cbn [randbelow].
  - exact Hn.
  - destruct (genrand_uint32 s) as [y s'].
    destruct (Z.ltb_spec (Z.shiftr y (32 - bit_length n)) n); [assumption|apply IH].
Qed.

Lemma random_interval_le fuel max s : 0 <= max -> fst (random_interval fuel max s) <= max.
Proof.
  intros Hn. revert s. induction fuel as [|fuel IH]; intros s; cbn [random_interval].
  - exact Hn.
  - destruct (genrand_uint32 s) as [y s'].
    destruct (Z.leb_spec (Z.land y (2 ^ bit_length max - 1)) max); [assumption|apply IH].
Qed.

Lemma shuffle_perm draw l s :
  (forall k s, 0 <= k -> fst (draw k s) <= k) ->
  Permutation (shuffle_loop draw (List.length l - 1) l s) l.
Proof.
  intros Hd. destruct l as [|a l]; [apply Permutation_refl|].
  assert (H : forall i l s, (i < List.length l)%nat ->
                            Permutation (shuffle_loop draw i l s) l).
  { clear -Hd. induction i as [|i IH]; intros l s Hi; cbn [shuffle_loop]; [apply Permutation_refl|].
    pose proof (Hd (Z.of_nat (S i)) s ltac:(lia)) as Hj.
    destruct (draw (Z.of_nat (S i)) s) as [j s'] eqn:E. simpl in Hj.
    eapply Permutation_trans.
    - apply IH. rewrite swap_length. lia.
    - apply swap_perm; lia. }
  apply H. simpl. lia.
Qed.

#[export] Instance mersenne_twister_laws : RandomSourceLaws mersenne_twister.
Proof.
  split; intros seed l; unfold random_shuffle, np_shuffle, mersenne_twister.
  - apply shuffle_perm. intros k s Hk.
    pose proof (randbelow_lt fuel (k + 1) s ltac:(lia)). lia.
  - apply shuffle_perm. intros k s Hk. apply random_interval_le. assumption.
Qed.

Lemma fle_refl_fin a : fle (Fin a) (Fin a) = true.
Proof. apply fle_Fin. lia. Qed.

Lemma flt_fle x y : flt x y = true -> fle x y = true.
Proof. unfold fle. intros ->. reflexivity. Qed.

#[export] Instance reference_math_laws : PyMathLaws reference_math.
Proof.
  split; unfold math_exp, math_log, float_pow, reference_math.
  - intros x Hf Hx. unfold RefMath.exp. rewrite Hf, Hx. cbn [andb]. eauto.
  - intros x Hx. unfold RefMath.log_core.
    destruct x as [|[]|N]; try discriminate; [eauto|].
    apply flt_Fin in Hx. destruct (Z.leb_spec N 0); [lia|eauto].
  - intros x y H1 H2 H3 H4. unfold RefMath.pow. rewrite H1, H2, H3, H4. cbn [andb].
    eexists. split; [reflexivity|].
    unfold py_max, fgt.
    destruct (flt (literal 1 1) _) eqn:E; [apply flt_fle; exact E|].
    vm_compute. reflexivity.
  - intros x y H1 H2 H3 H4. unfold RefMath.pow. rewrite H1, H2, H3, H4.
    destruct (_ && _); cbn [andb]; eauto.
Qed.

End ReferenceLaws.
Import ReferenceLaws.

Module DaemonFacts.

Lemma Ok_inj {A} (a b : A) : Ok a = Ok b -> a = b.
Proof. intros H. injection H as ->. reflexivity. Qed.

(** [len(l) <= sys.maxsize] holds of every Python list. *)
Definition sys_maxsize : Z := 2 ^ 63 - 1.

Lemma maxsize_float n : n <= sys_maxsize -> n <= 2 ^ 1023.
Proof.
  unfold sys_maxsize. intros H.
  assert (2 ^ 63 <= 2 ^ 1023) by (apply Z.pow_le_mono_r; lia). lia.
Qed.

Section WithRandom.
Context {R : RandomSource}.

(** What [plan_rotations] returns, and that it returns whenever
    [float(num_leaves)] exists. *)
Lemma plan_rotations_spec n x sr c seed :
  0 <= n -> of_int n = Ok x ->
  exists k,
    count_of n (pct_of (risk_of sr c)) = Ok k /\ 1 <= k /\ (1 <= n -> k <= n)
    /\ plan_rotations n sr c seed =
       Ok {| rotation_percentage := pct_of (risk_of sr c);
             rotation_count := k;
             indices := py_sorted (firstn (Z.to_nat k)
                          (random_shuffle (match seed with Some s => s | None => 0 end)
                                          (py_range n)));
             risk := risk_of sr c |}.
Proof.
  intros Hn Hx.
  destruct (pct_range (risk_of sr c) (risk_valid sr c)) as [p [Ep [Rp Hp]]].
  pose proof bound_0_03 as B03. pose proof bound_0_20 as B20.
  destruct (count_of_bound n x p Hn Hx ltac:(lia) ltac:(lia)) as [k [Ek [Hk1 Hkn]]].
  exists k. rewrite Ep. split; [exact Ek|]. split; [exact Hk1|]. split; [exact Hkn|].
  unfold plan_rotations. cbv zeta. rewrite Ep, Ek. reflexivity.
Qed.

Lemma plan_rotations_inv n sr c seed pl :
  plan_rotations n sr c seed = Ok pl -> exists x, of_int n = Ok x.
Proof.
  unfold plan_rotations, count_of. cbv zeta.
  destruct (of_int n) as [x|]; [eauto|discriminate].
Qed.

End WithRandom.

(** The amount consumed by a decision that rotates [k >= 0] leaves is a
    positive float, or [+inf]. *)
Lemma consumption_pos k d :
  0 <= k -> consumption k = Ok d ->
  d = Inf false \/ exists D, d = Fin D /\ 0 < D.
Proof.
  intros Hk. unfold consumption.
  destruct (of_int k) as [x|] eqn:Ex; [|discriminate].
  destruct (of_int_facts k x Hk Ex) as [F [-> [RF [HF0 _]]]].
  unfold bind. intros Hd. apply Ok_inj in Hd. subst d.
  destruct lit_0_01 as [E01 R01]. destruct lit_0_5 as [E05 R05].
  pose proof bound_0_01 as B01. pose proof units_0_5 as B05. pose proof scale_pos as Hs.
  rewrite E01, E05. cbn [fmul].
  pose proof (rnd_ge (units (literal 1 100) * F) scale 0 Hs repr_zero ltac:(nia)) as Hge.
  destruct (fle_Fin_l _ _ Hge) as [->|[q [-> Hq]]]; [left; reflexivity|].
  cbn [fadd].
  pose proof (rnd_ge (units (literal 5 10) + q) 1 (units (literal 5 10)) ltac:(lia) R05
                ltac:(lia)) as Hge'.
  destruct (fle_Fin_l _ _ Hge') as [->|[D [-> HD]]]; [left; reflexivity|].
  right. exists D. split; [reflexivity|lia].
Qed.

(** The states of the global: a well-formed finite float, or [-inf]. *)
Definition budget_ok (b : float) : Prop :=
  b = Inf true \/ exists B, b = Fin B /\ repr B = true.

Lemma fle_refl_ok b : budget_ok b -> fle b b = true.
Proof. intros [->|[B [-> _]]]; [reflexivity|apply fle_Fin; lia]. Qed.

Lemma fle_trans x y z : fle x y = true -> fle y z = true -> fle x z = true.
Proof.
  intros H1 H2.
  destruct x as [|sx|a], y as [|sy|b], z as [|sz|c];
    try discriminate H1; try discriminate H2;
    try destruct sx; try destruct sy; try destruct sz;
    try discriminate H1; try discriminate H2; try reflexivity.
  apply fle_Fin in H1, H2. apply fle_Fin. lia.
Qed.

(** Subtracting a positive amount from a budget does not increase it. *)
Lemma fsub_le b d :
  budget_ok b -> (d = Inf false \/ exists D, d = Fin D /\ 0 < D) ->
  fle (fsub b d) b = true /\ budget_ok (fsub b d).
Proof.
  intros [->|[B [-> RB]]] [->|[D [-> HD]]]; unfold fsub; cbn [fneg fadd Bool.eqb];
    try (split; [reflexivity|left; reflexivity]).
  split.
  - apply rnd_le; [lia|exact RB|lia].
  - pose proof (rnd_valid (B + - D) 1 ltac:(lia)) as Hv.
    pose proof (rnd_le (B + - D) 1 B ltac:(lia) RB ltac:(lia)) as Hle.
    destruct (fle_Fin_r _ _ Hle) as [->|[N [E HN]]]; [left; reflexivity|].
    right. exists N. rewrite E in *. split; [reflexivity|exact Hv].
Qed.

Lemma ENTROPY_BUDGET_ok : budget_ok ENTROPY_BUDGET.
Proof. right. exists (units ENTROPY_BUDGET). split; vm_compute; reflexivity. Qed.

End DaemonFacts.
Import DaemonFacts.

Module DecideFacts.

(** The leaf count and the metrics of a request, as [handle_decide]
    derives them. *)
Definition leaf_count (p : payload) : Z :=
  Z.of_nat (List.length (match features p with Some l => l | None => [] end)).

Section WithInterfaces.
Context {M : PyMath} {R : RandomSource}.

Definition request_metrics (p : payload) : float * float :=
  metrics (match params p with Some d => d | None => [] end).

Definition record_of (sr c : float) (actions : list action) (plan : rotation_plan)
  (budget' : float) : decision_record :=
  let explanation := _compute_ai_explanation sr c plan in
  {| d_sr := sr; d_c := c; d_actions := actions; d_rotation_plan := plan;
     d_decision := e_decision explanation;
     d_confidence := e_confidence explanation;
     d_drivers := e_drivers explanation;
     entropy_budget_remaining := py_max f0 budget' |}.

Lemma handle_decide_eq p budget :
  handle_decide p budget =
    let n := leaf_count p in
    let sr := fst (request_metrics p) in
    let c := snd (request_metrics p) in
    actions <- generate_actions n sr c (seed_val budget) ;;
    plan <- plan_rotations n sr c (seed_val budget) ;;
    budget' <- (if negb (locked budget)
                then d <- consumption (rotation_count plan) ;; Ok (fsub budget d)
                else Ok budget) ;;
    Ok (record_of sr c actions plan budget', budget').
Proof.
  unfold handle_decide, request_metrics, leaf_count.
  destruct (metrics _) as [sr c]. reflexivity.
Qed.

(** What a returned decision is made of, by state of the budget. *)
Lemma handle_decide_inv p budget r b' :
  handle_decide p budget = Ok (r, b') ->
  let n := leaf_count p in
  let sr := fst (request_metrics p) in
  let c := snd (request_metrics p) in
  generate_actions n sr c (seed_val budget) = Ok (d_actions r)
  /\ plan_rotations n sr c (seed_val budget) = Ok (d_rotation_plan r)
  /\ (if locked budget then b' = budget
      else exists d, consumption (rotation_count (d_rotation_plan r)) = Ok d
                     /\ b' = fsub budget d)
  /\ r = record_of sr c (d_actions r) (d_rotation_plan r) b'.
Proof.
  rewrite handle_decide_eq. cbv zeta.
  destruct (generate_actions _ _ _ _) as [acts|]; [|discriminate].
  destruct (plan_rotations _ _ _ _) as [pl|]; [|discriminate].
  cbn [bind].
  destruct (locked budget); cbn [negb].
  - intros H. apply Ok_inj in H.
    apply pair_equal_spec in H. destruct H as [<- <-].
    repeat split; reflexivity.
  - destruct (consumption (rotation_count pl)) as [d|] eqn:Ec; [|discriminate].
    cbn [bind]. intros H. apply Ok_inj in H.
    apply pair_equal_spec in H. destruct H as [<- <-].
    split; [reflexivity|]. split; [reflexivity|].
    split; [exists d; split; [exact Ec|reflexivity]|reflexivity].
Qed.

Lemma seed_42_ok : seed_ok (Some 42).
Proof. reflexivity. Qed.

Lemma seed_val_ok budget : seed_ok (seed_val budget).
Proof. unfold seed_val. destruct (locked budget); [apply seed_42_ok|exact I]. Qed.

Lemma leaf_count_nonneg p : 0 <= leaf_count p.
Proof. unfold leaf_count. lia. Qed.

(** In the LOCKED state [handle_decide] returns for every request whose
    feature list Python can hold, and leaves the budget as it is. *)
Lemma handle_decide_locked {RL : RandomSourceLaws R} p budget :
  locked budget = true -> leaf_count p <= sys_maxsize ->
  exists r, handle_decide p budget = Ok (r, budget).
Proof.
  intros HL Hn. rewrite handle_decide_eq. cbv zeta.
  pose proof (leaf_count_nonneg p) as H0.
  destruct (generate_actions_total (leaf_count p) (fst (request_metrics p))
              (snd (request_metrics p)) (seed_val budget) H0 (maxsize_float _ Hn)
              (seed_val_ok budget)) as [acts Ea].
  destruct (of_int_total (leaf_count p) H0 (maxsize_float _ Hn)) as [F Hx].
  destruct (plan_rotations_spec (leaf_count p) _ (fst (request_metrics p))
              (snd (request_metrics p)) (seed_val budget) H0 Hx) as [k [_ [_ [_ Ep]]]].
  rewrite Ea, Ep, HL. cbn [bind negb]. eauto.
Qed.

(** One step of the process leaves a well-formed budget, no larger than
    before, and a LOCKED budget untouched. *)
Lemma decide_step_le budget p :
  budget_ok budget ->
  fle (decide_step budget p) budget = true /\ budget_ok (decide_step budget p)
  /\ (locked budget = true -> decide_step budget p = budget).
Proof.
  intros Hb. unfold decide_step.
  destruct (handle_decide p budget) as [[r b']|e] eqn:E.
  - destruct (handle_decide_inv _ _ _ _ E) as [_ [Hp [Hbud _]]]. cbv zeta in *.
    destruct (locked budget) eqn:HL.
    + subst b'. split; [apply fle_refl_ok; assumption|]. split; [assumption|reflexivity].
    + destruct Hbud as [d [Ed ->]].
      destruct (plan_rotations_inv _ _ _ _ _ Hp) as [x Hx].
      destruct (plan_rotations_spec (leaf_count p) x (fst (request_metrics p))
                  (snd (request_metrics p)) (seed_val budget) (leaf_count_nonneg p) Hx)
        as [k [_ [Hk [_ Ep]]]].
      rewrite Ep in Hp. apply Ok_inj in Hp.
      assert (Hc : rotation_count (d_rotation_plan r) = k) by (rewrite <- Hp; reflexivity).
      rewrite Hc in Ed.
      destruct (fsub_le budget d Hb (consumption_pos k d ltac:(lia) Ed)) as [Hle Hok].
      split; [exact Hle|]. split; [exact Hok|discriminate].
  - split; [apply fle_refl_ok; assumption|]. split; [assumption|reflexivity].
Qed.

(** The budget after any message sequence, from any well-formed state. *)
Lemma fold_decide_le ps budget :
  budget_ok budget ->
  fle (fold_left decide_step ps budget) budget = true
  /\ budget_ok (fold_left decide_step ps budget)
  /\ (locked budget = true -> fold_left decide_step ps budget = budget).
Proof.
  revert budget. induction ps as [|p ps IH]; intros budget Hb; cbn [fold_left].
  - split; [apply fle_refl_ok; assumption|]. split; [assumption|reflexivity].
  - destruct (decide_step_le budget p Hb) as [H1 [H2 H3]].
    destruct (IH _ H2) as [H4 [H5 H6]].
    split; [eapply fle_trans; eassumption|]. split; [assumption|].
    intros HL. rewrite (H3 HL) in *. apply H6. exact HL.
Qed.

Lemma run_ok ps : budget_ok (run ps).
Proof. unfold run. apply fold_decide_le. apply ENTROPY_BUDGET_ok. Qed.

End WithInterfaces.
End DecideFacts.


(** * The reconciler *)
Module ReconcilerFacts.

Lemma fdiv_ok x y : y <> Fin 0 -> exists q, fdiv x y = Ok q.
Proof.
  intros Hy. destruct x as [|sx|a], y as [|sy|b]; cbn [fdiv]; eauto;
    destruct b; try contradiction; eauto.
Qed.

Lemma fle_not_fgt x y : fle x y = true -> fgt x y = false.
Proof.
  unfold fgt. intros H.
  destruct x as [|sx|a], y as [|sy|b]; try discriminate H; try reflexivity.
  - destruct sx, sy; try discriminate H; reflexivity.
  - destruct sx; try discriminate H; reflexivity.
  - destruct sy; try discriminate H; reflexivity.
  - apply fle_Fin in H. cbn [flt]. apply Z.ltb_ge. lia.
Qed.

Lemma py_count_bounds x l : 0 <= py_count x l <= Z.of_nat (List.length l).
Proof.
  unfold py_count. pose proof (filter_length_le (fun a => action_eqb a x) l). lia.
Qed.

(** The deviation exists for every non-empty assignment. *)
Lemma deviation_total k total e :
  1 <= total -> 0 <= k <= total -> 0 <= e ->
  exists dev, rate_deviation k total (Fin e) = Ok dev.
Proof.
  intros Ht Hk He. unfold rate_deviation, int_truediv.
  pose proof scale_pos as Hs.
  destruct (Z.eqb_spec total 0); [lia|].
  rewrite Z.sgn_pos, Z.mul_1_l, Z.abs_eq by lia.
  destruct (rnd_between (k * scale) total 0 scale) as [q [-> _]];
    [lia | apply repr_zero | apply repr_scale | nia | nia |].
  cbn [bind].
  apply fdiv_ok.
  destruct lit_0_01 as [-> R01]. pose proof bound_0_01 as B.
  cbn [fadd].
  pose proof (rnd_ge (e + units (literal 1 100)) 1 (units (literal 1 100))
                ltac:(lia) R01 ltac:(lia)) as Hge.
  destruct (fle_Fin_l _ _ Hge) as [->|[D [-> HD]]]; [discriminate|].
  intros HD0. apply (f_equal units) in HD0. cbn [units] in HD0. lia.
Qed.

Lemma positions_from_length i x l :
  Z.of_nat (List.length (positions_from i x l)) = py_count x l.
Proof.
  unfold py_count. revert i. induction l as [|a l IH]; intros i; [reflexivity|].
  cbn [positions_from filter]. destruct (action_eqb a x); cbn [List.length]; rewrite ?Nat2Z.inj_succ, IH; reflexivity.
Qed.

Lemma positions_from_in i x l j :
  In j (positions_from i x l) <->
  i <= j < i + Z.of_nat (List.length l) /\ nth_error l (Z.to_nat (j - i)) = Some x.
Proof.
  revert i. induction l as [|a l IH]; intros i.
  - cbn [positions_from List.length]. split; [contradiction|]. lia.
  - assert (Hcase : In j (positions_from (i + 1) x l) <->
                    i < j < i + Z.of_nat (List.length (a :: l))
                    /\ nth_error (a :: l) (Z.to_nat (j - i)) = Some x).
    { rewrite IH. cbn [List.length]. rewrite Nat2Z.inj_succ. split.
      - intros [Hr Hn]. split; [lia|].
        replace (Z.to_nat (j - i)) with (S (Z.to_nat (j - (i + 1)))) by lia. exact Hn.
      - intros [Hr Hn]. split; [lia|].
        replace (Z.to_nat (j - i)) with (S (Z.to_nat (j - (i + 1)))) in Hn by lia.
        exact Hn. }
    cbn [positions_from]. destruct (action_eqb a x) eqn:E.
    + cbn [In]. rewrite Hcase. cbn [List.length]. rewrite Nat2Z.inj_succ. split.
      * intros [<-|[Hr Hn]]; [|split; [lia|exact Hn]].
        split; [lia|]. replace (i - i) with 0 by lia. cbn.
        destruct a, x; try discriminate E; reflexivity.
      * intros [Hr Hn]. destruct (Z.eq_dec i j) as [->|Hne]; [left; reflexivity|].
        right. split; [lia|exact Hn].
    + rewrite Hcase. cbn [List.length]. rewrite Nat2Z.inj_succ. split.
      * intros [Hr Hn]. split; [lia|exact Hn].
      * intros [Hr Hn]. split; [|exact Hn].
        destruct (Z.eq_dec i j) as [->|Hne]; [|lia].
        replace (j - j) with 0 in Hn by lia. cbn in Hn.
        injection Hn as ->. destruct x; discriminate E.
Qed.

(** Positions come in their natural order. *)
Lemma positions_from_sorted i x l : StronglySorted Z.lt (positions_from i x l).
Proof.
  revert i. induction l as [|a l IH]; intros i; cbn [positions_from]; [constructor|].
  destruct (action_eqb a x); [|apply IH].
  constructor; [apply IH|]. apply Forall_forall. intros j Hj.
  apply positions_from_in in Hj. lia.
Qed.

Lemma list_get_list_set {A} (l : list A) i v j :
  0 <= i < Z.of_nat (List.length l) ->
  list_get (list_set l (Z.to_nat i) v) j = if i =? j then Ok v else list_get l j.
Proof.
  intros Hi. unfold list_get.
  destruct (Z.ltb_spec j 0) as [Hj|Hj].
  - destruct (Z.eqb_spec i j); [lia|reflexivity].
  - assert (H : forall (l : list A) a b,
               (a < List.length l)%nat ->
               nth_error (list_set l a v) b = if Nat.eqb a b then Some v else nth_error l b).
    { clear. induction l as [|x l IH]; intros [|a] [|b] H; cbn in *; try lia; try reflexivity.
      apply IH. lia. }
    rewrite H by lia.
    destruct (Z.eqb_spec i j) as [->|Hne].
    + rewrite Nat.eqb_refl. reflexivity.
    + destruct (Nat.eqb_spec (Z.to_nat i) (Z.to_nat j)); [lia|reflexivity].
Qed.

(** The blending loop: the listed positions take the policy's action,
    the others keep the predictor's. *)
Lemma blend_spec pol idxs :
  forall blended,
    List.length blended = List.length pol ->
    (forall i, In i idxs -> 0 <= i < Z.of_nat (List.length pol)) ->
    exists out,
      blend blended pol idxs = Ok out
      /\ List.length out = List.length blended
      /\ (forall i, In i idxs -> list_get out i = list_get pol i)
      /\ (forall i, ~ In i idxs -> list_get out i = list_get blended i).
Proof.
  induction idxs as [|idx idxs IH]; intros blended Hlen Hin.
  - exists blended. cbn [blend]. split; [reflexivity|]. split; [reflexivity|].
    split; [intros i []|reflexivity].
  - cbn [blend].
    pose proof (Hin idx (or_introl eq_refl)) as Hidx.
    destruct (Z.ltb_spec idx (Z.of_nat (List.length blended))); [|lia].
    destruct pol as [|d pol']; [cbn in Hidx; lia|].
    remember (d :: pol') as pol eqn:Epol. clear Epol.
    rewrite (list_get_nth pol idx d Hidx). cbn [bind].
    destruct (IH (list_set blended (Z.to_nat idx) (nth (Z.to_nat idx) pol d)))
      as [out [Eo [Hl [H1 H2]]]].
    { rewrite list_set_length. exact Hlen. }
    { intros i Hi. apply Hin. right. exact Hi. }
    exists out. split; [exact Eo|].
    split; [rewrite Hl, list_set_length; reflexivity|].
    split.
    + intros i Hi. destruct (in_dec Z.eq_dec i idxs) as [Hi'|Hi']; [apply H1; exact Hi'|].
      destruct Hi as [<-|Hi]; [|contradiction].
      rewrite (H2 idx Hi'), list_get_list_set by lia.
      rewrite Z.eqb_refl. symmetry. apply list_get_nth. exact Hidx.
    + intros i Hi. rewrite H2 by (intros Hi'; apply Hi; right; exact Hi').
      rewrite list_get_list_set by lia.
      destruct (Z.eqb_spec idx i) as [->|]; [|reflexivity].
      exfalso. apply Hi. left. reflexivity.
Qed.

End ReconcilerFacts.
Import ReconcilerFacts.

(** * The two metrics *)
Module MetricFacts.

(** [max(0.0, min(1.0, x))] lies in [[0, 1]] whatever [x] is, a NaN
    included. *)
Lemma clamp01_range x : exists v, clamp01 x = Fin v /\ 0 <= v <= scale.
Proof.
  pose proof scale_pos as Hs. destruct lit_1 as [E1 _]. pose proof units_1 as U1.
  unfold clamp01, py_max, py_min, fgt, f0. rewrite E1, U1.
  destruct (flt x (Fin scale)) eqn:Ex.
  - destruct (flt (Fin 0) x) eqn:E0.
    + destruct x as [|s|a]; try discriminate Ex.
      * destruct s; [discriminate E0|discriminate Ex].
      * apply flt_Fin in Ex, E0. exists a. split; [reflexivity|lia].
    + exists 0. split; [reflexivity|lia].
  - destruct (flt (Fin 0) (Fin scale)) eqn:E0.
    + exists scale. split; [reflexivity|lia].
    + exists 0. split; [reflexivity|lia].
Qed.

Definition unit_interval (v : float) : Prop :=
  is_finite v = true /\ fle f0 v = true /\ fle v f1 = true.

Lemma unit_interval_intro v : 0 <= v <= scale -> unit_interval (Fin v).
Proof.
  intros H. destruct lit_1 as [E1 _]. pose proof units_1 as U1.
  unfold unit_interval, f0. rewrite E1, U1.
  split; [reflexivity|]. split; apply fle_Fin; lia.
Qed.

Lemma lit_eps : is_lit CC.eps. Proof. lit. Qed.
Lemma eps_pos : 0 < units CC.eps. Proof. cmp. Qed.

Section WithMath.
Context {M : PyMath}.

(** The normalisation ends in the clamp or in [0.0]. *)
Lemma normalize_range s raw : unit_interval (normalize s raw).
Proof.
  unfold normalize, normalize_body.
  destruct (math_log1p (fabs raw)) as [l|]; cbn [bind try_except];
    [|apply unit_interval_intro; pose proof scale_pos; lia].
  destruct (math_exp _) as [e|]; cbn [bind try_except];
    [|apply unit_interval_intro; pose proof scale_pos; lia].
  destruct (fdiv f1 (fadd f1 e)) as [q|]; cbn [bind try_except];
    [|apply unit_interval_intro; pose proof scale_pos; lia].
  destruct (clamp01_range q) as [v [-> Hv]]. apply unit_interval_intro. exact Hv.
Qed.


(** A product of a factor [>= 1.0] with a positive float is not zero. *)
Lemma fmul_ge_one_nonzero pw c :
  fle f1 pw = true -> 0 < c -> repr c = true -> fmul pw (Fin c) <> Fin 0.
Proof.
  intros Hpw Hc Rc. destruct lit_1 as [E1 _]. pose proof units_1 as U1.
  rewrite E1, U1 in Hpw. pose proof scale_pos as Hs.
  destruct (fle_Fin_l _ _ Hpw) as [->|[a [-> Ha]]].
  - cbn [fmul]. destruct (Z.eqb_spec c 0); [lia|discriminate].
  - cbn [fmul].
    pose proof (rnd_ge (a * c) scale c Hs Rc ltac:(nia)) as Hge.
    destruct (fle_Fin_l _ _ Hge) as [->|[N [-> HN]]]; [discriminate|].
    intros H0. apply (f_equal units) in H0. cbn [units] in H0. lia.
Qed.

Lemma py_max_eps_nonzero pd : py_max CC.eps pd <> Fin 0.
Proof.
  destruct lit_eps as [E _]. pose proof eps_pos as Hp.
  unfold py_max, fgt. rewrite E.
  destruct (flt (Fin (units CC.eps)) pd) eqn:Ef.
  - intros ->. apply flt_Fin in Ef. lia.
  - intros H0. apply (f_equal units) in H0. cbn [units] in H0. lia.
Qed.

Context {ML : PyMathLaws M}.

Definition prob_term (p : Z) : float :=
  fadd (fmul (literal p 4) (fsub f1 (literal p 4))) SR.eps.

(** One round of the summation returns for [p] in [1..4]. *)
Lemma sum_step_ok c p :
  In p [1; 2; 3; 4] -> exists c', sum_step c p = Ok c'.
Proof.
  intros Hp. unfold sum_step.
  assert (Eq : int_truediv p SR.P_max = Ok (literal p 4))
    by (destruct Hp as [<-|[<-|[<-|[<-|[]]]]]; vm_compute; reflexivity).
  assert (Ef : of_int p = Ok (literal p 1))
    by (destruct Hp as [<-|[<-|[<-|[<-|[]]]]]; vm_compute; reflexivity).
  rewrite Eq, Ef. cbn [bind]. fold (prob_term p).
  destruct (exp_defined (fmul SR.lam (literal p 1))) as [e ->];
    [destruct Hp as [<-|[<-|[<-|[<-|[]]]]]; vm_compute; reflexivity
    |destruct Hp as [<-|[<-|[<-|[<-|[]]]]]; vm_compute; reflexivity|].
  cbn [bind].
  destruct (pow_ge_one (literal p 1) SR.alpha) as [pw [-> Hpw]];
    [destruct Hp as [<-|[<-|[<-|[<-|[]]]]]; vm_compute; reflexivity
    |destruct Hp as [<-|[<-|[<-|[<-|[]]]]]; vm_compute; reflexivity
    |vm_compute; reflexivity|vm_compute; reflexivity|].
  cbn [bind].
  assert (Hl : is_lit (prob_term p))
    by (destruct Hp as [<-|[<-|[<-|[<-|[]]]]]; lit).
  assert (Hpos : 0 < units (prob_term p))
    by (destruct Hp as [<-|[<-|[<-|[<-|[]]]]]; cmp).
  destruct Hl as [El Rl]. rewrite El.
  destruct (fdiv_ok e (fmul pw (Fin (units (prob_term p))))) as [q ->];
    [apply fmul_ge_one_nonzero; assumption|].
  cbn [bind]. eauto.
Qed.

Lemma sum_loop_ok ps :
  forall c, (forall p, In p ps -> In p [1; 2; 3; 4]) -> exists r, sum_loop c ps = Ok r.
Proof.
  induction ps as [|p ps IH]; intros c Hps; cbn [sum_loop]; [eauto|].
  destruct (sum_step_ok c p (Hps p (or_introl eq_refl))) as [c' ->]. cbn [bind].
  apply IH. intros q Hq. apply Hps. right. exact Hq.
Qed.


Lemma repr_1024 : repr (1024 * scale) = true.
Proof. vm_compute; reflexivity. Qed.

(** [float(b)] for the accepted branching factors. *)
Lemma of_int_branching b :
  2 <= b <= 16 ->
  exists F, of_int b = Ok (Fin F) /\ scale <= F <= 1024 * scale.
Proof.
  intros Hb. pose proof scale_pos as Hs. unfold of_int.
  destruct (rnd_between (b * scale) 1 scale (1024 * scale)) as [F [-> [_ HF]]];
    [lia|apply repr_scale|apply repr_1024|nia|nia|].
  exists F. split; [reflexivity|exact HF].
Qed.

Lemma g_function_ok b : 2 <= b <= 16 -> exists g, _g_function b = Ok g.
Proof.
  intros Hb. unfold _g_function. pose proof scale_pos as Hs.
  destruct (Z.leb_spec b 0); [lia|].
  destruct (of_int_branching b Hb) as [F [-> HF]]. cbn [bind].
  destruct lit_1 as [E1 _]. pose proof units_1 as U1.
  rewrite E1, U1. cbn [fadd].
  pose proof (rnd_ge (F + scale) 1 scale ltac:(lia) repr_scale ltac:(lia)) as Hge.
  destruct (log_defined (rnd (F + scale) 1)) as [l ->]; [|cbn [bind]; eauto].
  destruct (fle_Fin_l _ _ Hge) as [->|[N [-> HN]]]; [reflexivity|].
  apply flt_Fin. lia.
Qed.

Lemma exp_beta_ok m :
  1 <= m <= 8 ->
  exists m1 e, of_int (m - 1) = Ok m1 /\ math_exp (fmul SR.beta m1) = Ok e.
Proof.
  intros Hm.
  assert (Hc : In m [1; 2; 3; 4; 5; 6; 7; 8]) by (cbn [In]; lia).
  exists (literal (m - 1) 1).
  assert (Ef : of_int (m - 1) = Ok (literal (m - 1) 1))
    by (destruct Hc as [<-|[<-|[<-|[<-|[<-|[<-|[<-|[<-|[]]]]]]]]];
        vm_compute; reflexivity).
  destruct (exp_defined (fmul SR.beta (literal (m - 1) 1))) as [e He];
    [destruct Hc as [<-|[<-|[<-|[<-|[<-|[<-|[<-|[<-|[]]]]]]]]]; vm_compute; reflexivity
    |destruct Hc as [<-|[<-|[<-|[<-|[<-|[<-|[<-|[<-|[]]]]]]]]]; vm_compute; reflexivity|].
  exists e. split; assumption.
Qed.

Lemma int_truediv_ok a b :
  0 <= a <= 1024 -> 1 <= b -> exists q, int_truediv a b = Ok q.
Proof.
  intros Ha Hb. unfold int_truediv. pose proof scale_pos as Hs.
  destruct (Z.eqb_spec b 0); [lia|].
  rewrite Z.sgn_pos, Z.mul_1_l, Z.abs_eq by lia.
  destruct (rnd_between (a * scale) b 0 (1024 * scale)) as [q [-> _]];
    [lia|apply repr_zero|apply repr_1024|nia|nia|].
  eauto.
Qed.

(** The full formula returns on the accepted ranges. *)
Lemma full_formula_ok b m t :
  2 <= b <= 16 -> 1 <= m <= 8 -> 64 <= t <= 512 ->
  exists raw, _calculate_full_formula b m t = Ok raw.
Proof.
  intros Hb Hm Ht. unfold _calculate_full_formula.
  assert (HL : 0 < b ^ m) by (apply Z.pow_pos_nonneg; lia).
  cbv zeta. destruct (Z.leb_spec (b ^ m) 0); [lia|].
  destruct (int_truediv_ok (2 * t) (b ^ m) ltac:(lia) ltac:(lia)) as [c1 ->].
  cbn [bind].
  destruct (exp_beta_ok m Hm) as [m1 [e [Em1 Ee]]].
  rewrite Em1. cbn [bind]. rewrite Ee. cbn [bind].
  destruct (sum_loop_ok (map (fun i => i + 1) (py_range SR.P_max)) f0) as [c3 ->];
    [intros p Hp; exact Hp|].
  cbn [bind].
  destruct (g_function_ok b Hb) as [g ->]. cbn [bind]. eauto.
Qed.

Lemma validate_inv params :
  validate_branching_params params = Ok true ->
  exists b m t,
    dict_get params "b" = Ok b /\ dict_get params "m" = Ok m
    /\ dict_get params "t" = Ok t
    /\ 2 <= b <= 16 /\ 1 <= m <= 8 /\ 64 <= t <= 512 /\ b ^ m <= 10000.
Proof.
  unfold validate_branching_params.
  destruct (negb _); [discriminate|].
  destruct (dict_get params "b") as [b|]; [|discriminate].
  destruct (dict_get params "m") as [m|]; [|discriminate].
  destruct (dict_get params "t") as [t|]; [|discriminate].
  cbn [bind].
  destruct (Z.ltb_spec b 2); [discriminate|].
  destruct (Z.gtb_spec b 16); [discriminate|].
  destruct (Z.ltb_spec m 1); [discriminate|].
  destruct (Z.gtb_spec m 8); [discriminate|].
  destruct (Z.ltb_spec t 64); [discriminate|].
  destruct (Z.gtb_spec t 512); [discriminate|].
  cbn [orb]. cbv zeta.
  destruct (Z.gtb_spec (b ^ m) 10000); [discriminate|].
  intros _. exists b, m, t. repeat (split; [reflexivity || lia|]). lia.
Qed.

Lemma SR_calculate_range params :
  validate_branching_params params = Ok true ->
  exists v, SR_calculate params = Ok v /\ unit_interval v.
Proof.
  intros Hv. destruct (validate_inv params Hv)
    as [b [m [t [Eb [Em [Et [Hb [Hm [Ht _]]]]]]]]].
  unfold SR_calculate. rewrite Eb, Em, Et. cbn [bind].
  destruct (Z.leb_spec b 0); [lia|]. destruct (Z.leb_spec m 0); [lia|].
  destruct (Z.leb_spec t 0); [lia|]. cbn [orb].
  destruct (full_formula_ok b m t Hb Hm Ht) as [raw ->]. cbn [bind].
  eexists. split; [reflexivity|]. apply normalize_range.
Qed.

Lemma C_calculate_range params :
  validate_branching_params params = Ok true ->
  exists v, C_calculate params = Ok v /\ unit_interval v.
Proof.
  intros Hv. destruct (validate_inv params Hv)
    as [b [m [t [Eb [Em [Et [Hb [Hm [Ht _]]]]]]]]].
  pose proof scale_pos as Hs.
  unfold C_calculate. rewrite Eb, Em, Et. cbn [bind]. cbv zeta.
  destruct (of_int_total t ltac:(lia)) as [tf ->].
  { apply maxsize_float. unfold sys_maxsize. lia. }
  cbn [bind]. unfold int_pow_float.
  destruct (of_int_branching b Hb) as [F [-> HF]]. cbn [bind].
  destruct (Z.ltb_spec b 0); [lia|].
  destruct lit_1 as [E1 _]. pose proof units_1 as U1.
  destruct (pow_ge_one (Fin F) CC.a) as [pw [-> _]].
  { unfold f1 in E1. rewrite E1. unfold f1 in U1. rewrite U1. apply fle_Fin. lia. }
  { replace (literal 1024 1) with (Fin (1024 * scale)) by (vm_compute; reflexivity).
    apply fle_Fin. lia. }
  { vm_compute; reflexivity. }
  { vm_compute; reflexivity. }
  cbn [bind].
  assert (Hbm : 0 <= b * m <= 128) by nia.
  destruct (of_int_total (b * m) ltac:(lia)) as [bm ->].
  { apply maxsize_float. unfold sys_maxsize. lia. }
  cbn [bind].
  destruct (of_int_total (2 * m + 1) ltac:(lia)) as [df Edf].
  { apply maxsize_float. unfold sys_maxsize. lia. }
  destruct (of_int_facts (2 * m + 1) (Fin df) ltac:(lia) Edf) as [D [ED [_ [HD _]]]].
  rewrite Edf. cbn [bind].
  destruct (pow_fraction CC.P (Fin df)) as [pd ->];
    [vm_compute; reflexivity|vm_compute; reflexivity| |reflexivity|].
  { apply fle_Fin. injection ED as ->. exact HD. }
  cbn [bind].
  destruct (fdiv_ok (fmul (fmul (Fin tf) pw) (Fin bm)) (py_max CC.eps pd)) as [raw ->];
    [apply py_max_eps_nonzero|].
  cbn [bind]. eexists. split; [reflexivity|]. apply normalize_range.
Qed.

End WithMath.
End MetricFacts.
Import MetricFacts.

Import DecideFacts.

Local Open Scope string_scope.


(** Without a seed the list stays in block order. *)
Lemma generate_actions_none {R : RandomSource} n sr c acts :
  0 <= n -> generate_actions n sr c None = Ok acts ->
  exists nd nm nr,
    num_decoy n sr c = Ok nd /\ num_mutate n sr = Ok nm /\ num_reassign n sr = Ok nr
    /\ 0 <= nd /\ 0 <= nm /\ 0 <= nr /\ nd + nm + nr <= n
    /\ acts = blocks nd nm nr (n - nd - nm - nr).
Proof.
  intros Hn H.
  destruct (generate_actions_inv _ _ _ _ _ H) as [Hs [x Hx]].
  destruct (counts_fit n x sr c Hn Hx) as [nd [nm [nr [E1 [E2 [E3 [H1 [H2 [H3 H4]]]]]]]]].
  exists nd, nm, nr. repeat (split; [assumption|]).
  rewrite (generate_actions_unfold n sr c None nd nm nr E1 E2 E3 Hs) in H.
  apply Ok_inj in H. symmetry. exact H.
Qed.

(** * The entropy budget and the seeds of [handle_decide] *)

(** The request of the daemon's self-test: [b=4, m=3, t=128]. *)
Definition sample_params : dict := [("b", 4); ("m", 3); ("t", 128)]%Z.

Definition request (fs : list feature) (seed : option string) : payload :=
  {| params := Some sample_params; features := Some fs; seed_model_hash := seed |}.

(** A request with each of two caller seeds. *)
Definition with_seed (first : bool)
  (q : option dict * option (list feature) * option string * option string) : payload :=
  let '(ps, fs, s1, s2) := q in
  {| params := ps; features := fs; seed_model_hash := if first then s1 else s2 |}.

(** C10: [handle_decide] reads [seed_model_hash] and never uses it: two
    requests that differ only in the caller's seed get the same result
    (metrics, actions, rotation plan, explanation, remaining budget) and
    leave the same budget behind, in the ACTIVE state as in the LOCKED
    one; hence two message sequences that differ only in the caller
    seeds get the same answers and take the process through the same
    budgets. *)
Theorem caller_seed_ignored {M : PyMath} {R : RandomSource}
  (qs : list (option dict * option (list feature) * option string * option string))
  (budget : float) :
  Forall (fun q => handle_decide (with_seed true q) budget
                   = handle_decide (with_seed false q) budget) qs
  /\ serve budget (map (with_seed true) qs) = serve budget (map (with_seed false) qs)
  /\ fold_left decide_step (map (with_seed true) qs) budget
     = fold_left decide_step (map (with_seed false) qs) budget.
Proof.
  assert (Hstep : forall q b, handle_decide (with_seed true q) b
                              = handle_decide (with_seed false q) b).
  { intros [[[ps fs] s1] s2] b. reflexivity. }
  split; [apply Forall_forall; intros q _; apply Hstep|].
  revert budget. induction qs as [|q qs IH]; intros budget; [split; reflexivity|].
  cbn [map serve fold_left].
  assert (Ed : decide_step budget (with_seed true q)
               = decide_step budget (with_seed false q))
    by (unfold decide_step; rewrite Hstep; reflexivity).
  rewrite Ed, (Hstep q budget).
  destruct (IH (decide_step budget (with_seed false q))) as [_ E2].
  rewrite E2. split; [|reflexivity].
  destruct (handle_decide (with_seed false q) budget) as [[r b']|e].
  - destruct (IH b') as [E1 _]. rewrite E1. reflexivity.
  - destruct (IH budget) as [E1 _]. rewrite E1. reflexivity.
Qed.

(** C1: in the LOCKED state (budget [<= 0]) two requests with the same
    params and features and different caller seeds both return, with the
    same record; its actions and its rotation plan are the ones drawn
    with the forced seed 42, and the budget stays as it was. *)
Theorem locked_determinism {M : PyMath} {R : RandomSource} {RL : RandomSourceLaws R}
  (ps : option dict) (fs : option (list feature)) (s1 s2 : option string)
  (budget : float) :
  let p1 := {| params := ps; features := fs; seed_model_hash := s1 |} in
  let p2 := {| params := ps; features := fs; seed_model_hash := s2 |} in
  let n := leaf_count p1 in
  let sr := fst (request_metrics p1) in
  let c := snd (request_metrics p1) in
  locked budget = true -> n <= sys_maxsize ->
  exists r,
    handle_decide p1 budget = Ok (r, budget)
    /\ handle_decide p2 budget = Ok (r, budget)
    /\ generate_actions n sr c (Some 42%Z) = Ok (d_actions r)
    /\ plan_rotations n sr c (Some 42%Z) = Ok (d_rotation_plan r).
Proof.
  intros p1 p2 n sr c HL Hn.
  destruct (handle_decide_locked p1 budget HL Hn) as [r Hr].
  exists r. split; [exact Hr|]. split; [exact Hr|].
  destruct (handle_decide_inv _ _ _ _ Hr) as [Ha [Hp _]].
  unfold seed_val in Ha, Hp. rewrite HL in Ha, Hp. split; assumption.
Qed.

(** The scenario of the spec: the budget at [0.0], 128 leaves. *)
Lemma locked_determinism_witness :
  let fs := repeat ([] : feature) 128 in
  exists r,
    handle_decide (request fs (Some "seed-a")) (Fin 0) = Ok (r, Fin 0)
    /\ handle_decide (request fs (Some "seed-b")) (Fin 0) = Ok (r, Fin 0)
    /\ generate_actions 128 (fst (request_metrics (request fs (Some "seed-a"))))
         (snd (request_metrics (request fs (Some "seed-a")))) (Some 42%Z)
       = Ok (d_actions r)
    /\ plan_rotations 128 (fst (request_metrics (request fs (Some "seed-a"))))
         (snd (request_metrics (request fs (Some "seed-a")))) (Some 42%Z)
       = Ok (d_rotation_plan r).
Proof.
  exact (locked_determinism (M := reference_math) (R := mersenne_twister)
           (Some sample_params) (Some (repeat ([] : feature) 128))
           (Some "seed-a") (Some "seed-b") (Fin 0)
           eq_refl ltac:(vm_compute; discriminate)).
Defined.

(** C2: within one process the budget never increases: after any
    further messages [qs] it is at most what it was after [ps]; and once
    LOCKED ([<= 0]) it is frozen, so the process stays LOCKED. *)
Theorem entropy_budget_monotone {M : PyMath} {R : RandomSource} (ps qs : list payload) :
  fle (run (ps ++ qs)) (run ps) = true
  /\ (locked (run ps) = true ->
      run (ps ++ qs) = run ps /\ locked (run (ps ++ qs)) = true).
Proof.
  assert (E : run (ps ++ qs) = fold_left decide_step qs (run ps))
    by (unfold run; apply fold_left_app).
  rewrite E.
  destruct (fold_decide_le qs (run ps) (run_ok ps)) as [H1 [_ H3]].
  split; [exact H1|].
  intros HL. rewrite (H3 HL). split; [reflexivity|exact HL].
Qed.

(** What every returned decision is drawn with: [seed_val], which is 42
    when LOCKED and [None] when ACTIVE, whatever seed the caller sent;
    [None] makes the planner use [Random(0)] and leaves the policy's
    list unshuffled.  When ACTIVE the global decreases by
    [0.5 + 0.01 * rotation_count]; when LOCKED it is unchanged.  The
    record reports [max(0.0, budget)]. *)
Lemma decide_seed_and_budget {M : PyMath} {R : RandomSource}
  (p : payload) (budget : float) (r : decision_record) (b' : float) :
  handle_decide p budget = Ok (r, b') ->
  let n := leaf_count p in
  let sr := fst (request_metrics p) in
  let c := snd (request_metrics p) in
  let seed := if locked budget then Some 42%Z else None in
  generate_actions n sr c seed = Ok (d_actions r)
  /\ plan_rotations n sr c seed = Ok (d_rotation_plan r)
  /\ plan_rotations n sr c None = plan_rotations n sr c (Some 0%Z)
  /\ (locked budget = false ->
      (exists nd nm nr, d_actions r = blocks nd nm nr (n - nd - nm - nr))
      /\ exists d, consumption (rotation_count (d_rotation_plan r)) = Ok d
                   /\ b' = fsub budget d)
  /\ (locked budget = true -> b' = budget)
  /\ entropy_budget_remaining r = py_max f0 b'.
Proof.
  intros H n sr c seed.
  destruct (handle_decide_inv _ _ _ _ H) as [Ha [Hp [Hb Hr]]].
  fold n sr c in Ha, Hp, Hr. unfold seed_val in Ha, Hp. fold seed in Ha, Hp.
  split; [exact Ha|]. split; [exact Hp|]. split; [reflexivity|].
  split; [|split].
  - intros HL. rewrite HL in Hb. split; [|exact Hb].
    unfold seed in Ha. rewrite HL in Ha.
    destruct (generate_actions_none n sr c _ (leaf_count_nonneg p) Ha)
      as [nd [nm [nr [_ [_ [_ [_ [_ [_ [_ Hu]]]]]]]]]].
    exists nd, nm, nr. exact Hu.
  - intros HL. rewrite HL in Hb. exact Hb.
  - rewrite Hr. reflexivity.
Qed.

(** A request without params or features: both metrics are [0.0] (the
    [KeyError] is caught), no leaf, one rotation counted. *)
Definition bare_request : payload :=
  {| params := None; features := None; seed_model_hash := Some "seed-a" |}.

Lemma decide_step_bare {R : RandomSource} {RL : RandomSourceLaws R} (M : PyMath) (b : float) :
  decide_step b bare_request = if locked b then b else fsub b (literal 51 100).
Proof.
  unfold decide_step. rewrite handle_decide_eq. cbv zeta.
  assert (Em : request_metrics bare_request = (f0, f0)) by reflexivity.
  assert (En : leaf_count bare_request = 0%Z) by reflexivity.
  rewrite Em, En. cbn [fst snd].
  assert (Ea : forall s, seed_ok s -> generate_actions 0 f0 f0 s = Ok []).
  { intros s Hs.
    rewrite (generate_actions_unfold 0 f0 f0 s 0 0 0); try assumption;
      try (vm_compute; reflexivity).
    destruct s as [z|]; [|reflexivity].
    change (py_range 0) with (@nil Z).
    pose proof (np_shuffle_perm z []) as HP. apply Permutation_sym, Permutation_nil in HP.
    rewrite HP. reflexivity. }
  assert (Ep : forall s, exists pl, plan_rotations 0 f0 f0 s = Ok pl /\ rotation_count pl = 1%Z).
  { intros s. eexists. split.
    - unfold plan_rotations. cbv zeta.
      replace (count_of 0 (pct_of (risk_of f0 f0))) with (Ok 1%Z)
        by (vm_compute; reflexivity).
      cbn [bind]. reflexivity.
    - reflexivity. }
  rewrite (Ea _ (seed_val_ok b)). destruct (Ep (seed_val b)) as [pl [-> Hk]].
  cbn [bind]. rewrite Hk.
  replace (consumption 1) with (Ok (literal 51 100)) by (vm_compute; reflexivity).
  destruct (locked b); reflexivity.
Qed.

(** The global itself has no floor: after 197 such requests it is below
    zero (the record reports [max(0.0, budget)]). *)
Lemma stored_budget_below_zero :
  flt (run (M := reference_math) (R := mersenne_twister) (repeat bare_request 197)) f0
  = true.
Proof.
  assert (E : forall k b,
             fold_left (decide_step (M := reference_math) (R := mersenne_twister))
                       (repeat bare_request k) b
             = Nat.iter k (fun b => if locked b then b else fsub b (literal 51 100)) b).
  { induction k as [|k IH]; intros b; [reflexivity|].
    cbn [repeat fold_left]. rewrite IH, (decide_step_bare reference_math).
    symmetry. apply Nat.iter_succ_r. }
  unfold run. rewrite E. vm_compute. reflexivity.
Qed.

(** Two requests that differ in the caller's seed are one computation. *)
Lemma request_seed_dropped {M : PyMath} {R : RandomSource}
  (fs : list feature) (s1 s2 : option string) (budget : float) :
  handle_decide (request fs s1) budget = handle_decide (request fs s2) budget.
Proof. reflexivity. Qed.

(** The fields of the record [handle_decide] builds. *)
Lemma record_of_sr {M : PyMath} {R : RandomSource} r sr c actions plan budget' :
  r = record_of sr c actions plan budget' -> d_sr r = sr.
Proof. intros ->. reflexivity. Qed.

Lemma record_of_c {M : PyMath} {R : RandomSource} r sr c actions plan budget' :
  r = record_of sr c actions plan budget' -> d_c r = c.
Proof. intros ->. reflexivity. Qed.

Lemma record_of_remaining {M : PyMath} {R : RandomSource} r sr c actions plan budget' :
  r = record_of sr c actions plan budget' -> entropy_budget_remaining r = py_max f0 budget'.
Proof. intros ->. reflexivity. Qed.

(** Without a seed the planner draws with [Random(0)]. *)
Lemma plan_rotations_default {R : RandomSource} n sr c :
  plan_rotations n sr c None = plan_rotations n sr c (Some 0%Z).
Proof. reflexivity. Qed.

(** The count and the indices of a plan, and the first action of an
    assignment, for reading off computed results. *)
Definition plan_shape (x : result rotation_plan) : option (Z * list Z) :=
  match x with
  | Ok pl => Some (rotation_count pl, indices pl)
  | Raise _ => None
  end.

Definition first_action (x : result (list action)) : option action :=
  match x with
  | Ok (a :: _) => Some a
  | _ => None
  end.

(** C3: the ACTIVE draw does not use the caller's seed.  At process
    start (budget [100.0], ACTIVE) three [decide] requests over 100 leaves, with the caller seeds
    ["seed-a"], ["seed-b"] and none, get one and the same decision.  Its
    action list is not shuffled at all (one DECOY, five REASSIGN and 94
    VALID in block order), its rotation plan is the one of the default
    generator [Random(0)], and the seeded draw of the LOCKED state would
    have given another list: the caller's seed reaches neither draw.
    The deduction is [0.5 + 0.01 * 13], which leaves [99.37]. *)
Theorem active_draw_drops_caller_seed :
  let fs := repeat ([] : feature) 100 in
  let decide := handle_decide (M := reference_math) (R := mersenne_twister) in
  locked ENTROPY_BUDGET = false
  /\ exists r b',
       decide (request fs (Some "seed-a")) ENTROPY_BUDGET = Ok (r, b')
       /\ decide (request fs (Some "seed-b")) ENTROPY_BUDGET = Ok (r, b')
       /\ decide (request fs None) ENTROPY_BUDGET = Ok (r, b')
       /\ d_actions r = (py_repeat DECOY 1 ++ py_repeat REASSIGN 5 ++ py_repeat VALID 94)%list
       /\ generate_actions (R := mersenne_twister) 100 (d_sr r) (d_c r) (Some 42%Z)
          <> Ok (d_actions r)
       /\ plan_rotations (R := mersenne_twister) 100 (d_sr r) (d_c r) (Some 0%Z)
          = Ok (d_rotation_plan r)
       /\ rotation_count (d_rotation_plan r) = 13%Z
       /\ indices (d_rotation_plan r)
          = [1; 7; 8; 11; 13; 16; 23; 48; 52; 54; 63; 91; 94]%Z
       /\ consumption 13 = Ok (literal 63 100)
       /\ b' = literal 9937 100
       /\ entropy_budget_remaining r = b'.
Proof.
  intros fs decide. subst decide.
  assert (HL : locked ENTROPY_BUDGET = false) by (vm_compute; reflexivity).
  split; [exact HL|].
  set (p := request fs (Some "seed-a")).
  destruct (handle_decide (M := reference_math) (R := mersenne_twister) p ENTROPY_BUDGET)
    as [[r b']|e] eqn:E.
  2: { assert (Hok : returns (handle_decide (M := reference_math) (R := mersenne_twister)
                                p ENTROPY_BUDGET) = true) by (vm_compute; reflexivity).
       rewrite E in Hok. discriminate Hok. }
  exists r, b'. split; [reflexivity|].
  split; [rewrite <- E; apply request_seed_dropped|].
  split; [rewrite <- E; apply request_seed_dropped|].
  destruct (handle_decide_inv _ _ _ _ E) as [Ha [Hp [Hb Hr]]]. cbv zeta in Ha, Hp, Hr.
  unfold seed_val in Ha, Hp. rewrite HL in Ha, Hp, Hb.
  replace (leaf_count p) with 100%Z in Ha, Hp by (vm_compute; reflexivity).
  pose proof (record_of_sr _ _ _ _ _ _ Hr) as Hs.
  pose proof (record_of_c _ _ _ _ _ _ Hr) as Hc.
  pose proof (record_of_remaining _ _ _ _ _ _ Hr) as Hrem.
  clear Hr. rewrite <- Hs, <- Hc in Ha, Hp.
  set (sr := fst (request_metrics (M := reference_math) p)) in Hs.
  set (c := snd (request_metrics (M := reference_math) p)) in Hc.
  (* the draws, computed *)
  assert (Ca : generate_actions (R := mersenne_twister) 100 sr c None
               = Ok ((py_repeat DECOY 1 ++ py_repeat REASSIGN 5 ++ py_repeat VALID 94)%list))
    by (vm_compute; reflexivity).
  assert (C42 : first_action (generate_actions (R := mersenne_twister) 100 sr c (Some 42%Z))
                = Some VALID)
    by (vm_compute; reflexivity).
  assert (Cp : plan_shape (plan_rotations (R := mersenne_twister) 100 sr c None)
               = Some (13, [1; 7; 8; 11; 13; 16; 23; 48; 52; 54; 63; 91; 94])%Z)
    by (vm_compute; reflexivity).
  assert (C13 : consumption 13 = Ok (literal 63 100)) by (vm_compute; reflexivity).
  assert (Cb : fsub ENTROPY_BUDGET (literal 63 100) = literal 9937 100)
    by (vm_compute; reflexivity).
  assert (Cm : py_max f0 (literal 9937 100) = literal 9937 100)
    by (vm_compute; reflexivity).
  rewrite <- Hs, <- Hc in Ca, C42, Cp. clear Hs Hc. clearbody sr c.
  assert (Hacts : d_actions r
                  = (py_repeat DECOY 1 ++ py_repeat REASSIGN 5 ++ py_repeat VALID 94)%list).
  { apply Ok_inj. rewrite <- Ha. exact Ca. }
  rewrite Hp in Cp. cbn [plan_shape] in Cp. injection Cp as Hk Hi.
  destruct Hb as [d [Ed Hb]]. rewrite Hk, C13 in Ed. apply Ok_inj in Ed. subst d.
  rewrite Cb in Hb.
  split; [exact Hacts|]. split.
  { intros Heq. rewrite Heq, Hacts in C42. discriminate C42. }
  split; [rewrite <- plan_rotations_default; exact Hp|].
  split; [exact Hk|]. split; [exact Hi|]. split; [exact C13|]. split; [exact Hb|].
  rewrite Hrem, Hb. exact Cm.
Qed.

Local Open Scope Z_scope.

(** * The policy engine *)

(** The policy's [_clamp] is the specification's [clamp] on every value
    that is not a NaN. *)
Lemma clamp_spec v lo hi :
  is_nan v = false -> fle (Fin lo) (Fin hi) = true ->
  _clamp v (Fin lo) (Fin hi) = Spec.clamp v (Fin lo) (Fin hi).
Proof.
  intros Hv Hlh. apply fle_Fin in Hlh.
  unfold _clamp, Spec.clamp, py_max, py_min, fgt.
  destruct v as [|s|a]; [discriminate| |].
  - destruct s; cbn [flt negb].
    + reflexivity.
    + destruct (Z.ltb_spec lo hi); [reflexivity|f_equal; lia].
  - cbn [flt].
    destruct (Z.ltb_spec a hi) as [H1|H1]; cbn [flt].
    + destruct (Z.ltb_spec lo a), (Z.ltb_spec a lo), (Z.ltb_spec hi a);
        try reflexivity; try lia; f_equal; lia.
    + destruct (Z.ltb_spec lo hi), (Z.ltb_spec a lo), (Z.ltb_spec hi a);
        try reflexivity; try lia; f_equal; lia.
Qed.

(** A product by [py_min k x] with a finite [k] is never a NaN. *)
Lemma fmul_min_not_nan b k x :
  b <> 0 -> is_nan (fmul (Fin b) (py_min (Fin k) x)) = false.
Proof.
  intros Hb. unfold py_min.
  destruct (flt x (Fin k)) eqn:E.
  - destruct x as [|s|a]; try discriminate.
    + cbn [fmul]. destruct (Z.eqb_spec b 0); [contradiction|reflexivity].
    + cbn [fmul]. rewrite rnd_unfold by apply scale_pos.
      destruct (huge <=? _); reflexivity.
  - cbn [fmul]. rewrite rnd_unfold by apply scale_pos.
    destruct (huge <=? _); reflexivity.
Qed.

Lemma clamp_spec_lit v lo hi :
  is_lit lo -> is_lit hi -> units lo <= units hi -> is_nan v = false ->
  _clamp v lo hi = Spec.clamp v lo hi.
Proof.
  intros [El Rl] [Eh Rh] Hlh Hv.
  remember (units lo) as l eqn:Hl. remember (units hi) as h eqn:Hh.
  clear Hl Hh. subst lo hi. apply clamp_spec; [assumption|apply fle_Fin; assumption].
Qed.

Lemma fmul_min_not_nan_lit b k x :
  is_lit b -> is_lit k -> units b <> 0 -> is_nan (fmul b (py_min k x)) = false.
Proof.
  intros [Eb Rb] [Ek Rk] Hb.
  remember (units b) as b' eqn:Hb'. remember (units k) as k' eqn:Hk'.
  clear Hb' Hk'. subst b k. apply fmul_min_not_nan. assumption.
Qed.

Lemma lit_2_5 : is_lit (literal 25 10). Proof. lit. Qed.
Lemma lit_10 : is_lit (literal 10 1). Proof. lit. Qed.

(** C8: the decoy rate is the specification's rule: in the
    high-confidence zone ([SR >= 1.0] and [C >= 10.0])
    [clamp(0.2 * min(2.5, (SR + C/10)/10), 0.2, 0.5)], otherwise
    [clamp(0.01 * min(10, SR + C/10), 0.01, 0.1)]; so it lies in
    [[0.2, 0.5]], respectively [[0.01, 0.1]]; and for [SR = 2.5],
    [C = 15.0] it is [0.2]. *)
Theorem decoy_rate_rule (sr c : float) :
  let high := fge sr (literal 1 1) && fge c (literal 10 1) in
  calculate_decoy_rate sr c = Spec.decoy_rate sr c
  /\ fle (if high then literal 2 10 else literal 1 100) (calculate_decoy_rate sr c) = true
  /\ fle (calculate_decoy_rate sr c) (if high then literal 5 10 else literal 1 10) = true
  /\ calculate_decoy_rate (literal 25 10) (literal 15 1) = literal 2 10.
Proof.
  intros high.
  pose proof bound_0_1 as B1. pose proof bound_0_2 as B2. pose proof bound_0_01 as B0.
  split; [|split; [|split]].
  - unfold calculate_decoy_rate, Spec.decoy_rate, sr_min, gamma_t. cbv zeta.
    destruct (fge sr (literal 1 1) && fge c (literal 10 1)).
    + apply clamp_spec_lit; [apply lit_0_2 | apply lit_0_5 | lia |].
      apply fmul_min_not_nan_lit; [apply lit_0_2 | apply lit_2_5 | lia].
    + apply clamp_spec_lit; [apply lit_0_01 | apply lit_0_1 | lia |].
      apply fmul_min_not_nan_lit; [apply lit_0_01 | apply lit_10 | lia].
  - unfold calculate_decoy_rate, _clamp, sr_min, gamma_t. cbv zeta. fold high.
    destruct high.
    + destruct (clamp_lit (fmul (literal 2 10)
                  (py_min (literal 25 10)
                     (fquot (fadd sr (fquot c (literal 10 1))) (literal 10 1))))
                  (literal 2 10) (literal 5 10) lit_0_2 lit_0_5)
        as [r [E [Rr Hr]]]; [lia | apply fmul_valid |].
      rewrite E. destruct lit_0_2 as [-> _]. apply fle_Fin. lia.
    + destruct (clamp_lit (fmul (literal 1 100)
                  (py_min (literal 10 1) (fadd sr (fquot c (literal 10 1)))))
                  (literal 1 100) (literal 1 10) lit_0_01 lit_0_1)
        as [r [E [Rr Hr]]]; [lia | apply fmul_valid |].
      rewrite E. destruct lit_0_01 as [-> _]. apply fle_Fin. lia.
  - unfold calculate_decoy_rate, _clamp, sr_min, gamma_t. cbv zeta. fold high.
    destruct high.
    + destruct (clamp_lit (fmul (literal 2 10)
                  (py_min (literal 25 10)
                     (fquot (fadd sr (fquot c (literal 10 1))) (literal 10 1))))
                  (literal 2 10) (literal 5 10) lit_0_2 lit_0_5)
        as [r [E [Rr Hr]]]; [lia | apply fmul_valid |].
      rewrite E. destruct lit_0_5 as [-> _]. apply fle_Fin. lia.
    + destruct (clamp_lit (fmul (literal 1 100)
                  (py_min (literal 10 1) (fadd sr (fquot c (literal 10 1)))))
                  (literal 1 100) (literal 1 10) lit_0_01 lit_0_1)
        as [r [E [Rr Hr]]]; [lia | apply fmul_valid |].
      rewrite E. destruct lit_0_1 as [-> _]. apply fle_Fin. lia.
  - vm_compute. reflexivity.
Qed.


(** [int(n * rate)] is the specification's [floor(n * rate)]: the product
    is not negative. *)
Lemma scaled_count_floor n r :
  0 <= n -> 0 <= r -> scaled_count n (Fin r) = Spec.floor_mul n (Fin r).
Proof.
  intros Hn Hr. unfold scaled_count, Spec.floor_mul.
  destruct (of_int n) as [x|] eqn:Ex; [|reflexivity].
  destruct (of_int_facts n x Hn Ex) as [F [-> [RF [HF0 _]]]].
  cbn [bind fmul].
  pose proof (rnd_ge (F * r) scale 0 scale_pos repr_zero ltac:(nia)) as Hge.
  destruct (fle_Fin_l _ _ Hge) as [->|[P [-> HP]]]; [reflexivity|].
  cbn [to_int]. rewrite Z.quot_div_nonneg by (pose proof scale_pos; lia). reflexivity.
Qed.

Lemma num_decoy_floor n sr c :
  0 <= n -> num_decoy n sr c = Spec.floor_mul n (calculate_decoy_rate sr c).
Proof.
  intros Hn. unfold num_decoy.
  destruct (decoy_rate_range sr c) as [r [-> [_ Hr]]].
  pose proof bound_0_01. apply scaled_count_floor; lia.
Qed.

Lemma five_percent_floor n :
  0 <= n -> scaled_count n (literal 5 100) = Spec.floor_mul n (literal 5 100).
Proof.
  intros Hn. destruct lit_0_05 as [E _]. pose proof bound_0_05.
  rewrite E. apply scaled_count_floor; lia.
Qed.

Lemma action_cases (a : action) : In a [VALID; DECOY; MUTATE; REASSIGN].
Proof. destruct a; simpl; auto. Qed.

(** C7: for [n >= 1] a returned assignment has length [n], holds only
    the four actions, and counts [floor(n * rate)] DECOY, [floor(n *
    0.05)] MUTATE iff [SR >= 1.0] (else none), [floor(n * 0.05)] REASSIGN
    iff [SR < 1.0] (else none) and VALID for the rest, which is not
    negative; and one is returned for every seed NumPy accepts (or none)
    and every [n] a list can have. *)
Theorem generate_actions_counts {R : RandomSource} {RL : RandomSourceLaws R}
  (n : Z) (sr c : float) (seed : option Z) :
  1 <= n ->
  (forall acts, generate_actions n sr c seed = Ok acts ->
     Z.of_nat (List.length acts) = n
     /\ Forall (fun a => In a [VALID; DECOY; MUTATE; REASSIGN]) acts
     /\ Spec.floor_mul n (calculate_decoy_rate sr c) = Ok (py_count DECOY acts)
     /\ (if fge sr (literal 1 1) then Spec.floor_mul n (literal 5 100) else Ok 0)
        = Ok (py_count MUTATE acts)
     /\ (if flt sr (literal 1 1) then Spec.floor_mul n (literal 5 100) else Ok 0)
        = Ok (py_count REASSIGN acts)
     /\ py_count VALID acts
        = n - py_count DECOY acts - py_count MUTATE acts - py_count REASSIGN acts
     /\ 0 <= py_count VALID acts)
  /\ (n <= sys_maxsize -> seed_ok seed ->
      exists acts, generate_actions n sr c seed = Ok acts).
Proof.
  intros Hn. split.
  - intros acts H.
    destruct (generate_actions_spec n sr c seed acts ltac:(lia) H)
      as [nd [nm [nr [E1 [E2 [E3 [H1 [H2 [H3 [H4 [HP _]]]]]]]]]]].
    destruct (blocks_count nd nm nr (n - nd - nm - nr)) as [C1 [C2 [C3 C4]]]; try lia.
    rewrite !(py_count_perm _ _ _ HP), C1, C2, C3, C4.
    split.
    { rewrite (Permutation_length HP), blocks_length by lia. lia. }
    split; [apply Forall_forall; intros a _; apply action_cases|].
    split; [rewrite <- num_decoy_floor by lia; exact E1|].
    split; [rewrite <- five_percent_floor by lia; exact E2|].
    split; [rewrite <- five_percent_floor by lia; exact E3|].
    lia.
  - intros Hmax Hs. apply generate_actions_total; [lia|apply maxsize_float; exact Hmax|exact Hs].
Qed.

(** The scenario of the spec: [n = 10], [SR = 2.5], [C = 15.0]. *)
Lemma generate_actions_counts_witness :
  exists acts,
    generate_actions (R := mersenne_twister) 10 (literal 25 10) (literal 15 1) (Some 42)
    = Ok acts
    /\ Z.of_nat (List.length acts) = 10
    /\ py_count DECOY acts = 2 /\ py_count MUTATE acts = 0
    /\ py_count REASSIGN acts = 0 /\ py_count VALID acts = 8.
Proof.
  destruct (generate_actions_counts (R := mersenne_twister) 10 (literal 25 10)
              (literal 15 1) (Some 42) ltac:(lia)) as [Hc Ht].
  destruct (Ht ltac:(vm_compute; discriminate) eq_refl) as [acts Ha].
  exists acts. split; [exact Ha|].
  destruct (Hc acts Ha) as [Hl [_ [Hd [Hm [Hr [Hv _]]]]]].
  replace (Spec.floor_mul 10 (calculate_decoy_rate (literal 25 10) (literal 15 1)))
    with (Ok 2 : result Z) in Hd by (vm_compute; reflexivity).
  replace (fge (literal 25 10) (literal 1 1)) with true in Hm by (vm_compute; reflexivity).
  replace (flt (literal 25 10) (literal 1 1)) with false in Hr by (vm_compute; reflexivity).
  replace (Spec.floor_mul 10 (literal 5 100)) with (Ok 0 : result Z) in Hm
    by (vm_compute; reflexivity).
  apply Ok_inj in Hd, Hm, Hr. rewrite <- Hd, <- Hm, <- Hr in *.
  split; [exact Hl|]. repeat (split; [reflexivity|]). lia.
Defined.


(** * The rotation planner *)

Lemma risk_of_spec sr c : risk_of sr c = Spec.risk sr c.
Proof.
  unfold risk_of, Spec.risk, f1.
  rewrite (fmul_comm (fsub (literal 1 1) sr)), (fmul_comm c). reflexivity.
Qed.

(** [min(1.0, max(0.0, x))] is the specification's [clamp(x, 0, 1)] on
    every value that is not a NaN. *)
Lemma minmax_spec v lo hi :
  is_nan v = false -> lo <= hi ->
  py_min (Fin hi) (py_max (Fin lo) v) = Spec.clamp v (Fin lo) (Fin hi).
Proof.
  intros Hv Hlh. unfold Spec.clamp, py_max, py_min, fgt.
  destruct v as [|s|a]; [discriminate| |].
  - destruct s; cbn [flt negb].
    + destruct (Z.ltb_spec lo hi); [reflexivity|f_equal; lia].
    + reflexivity.
  - cbn [flt].
    destruct (Z.ltb_spec lo a) as [H1|H1]; cbn [flt].
    + destruct (Z.ltb_spec a hi), (Z.ltb_spec a lo), (Z.ltb_spec hi a);
        try reflexivity; try lia; f_equal; lia.
    + destruct (Z.ltb_spec lo hi), (Z.ltb_spec a lo), (Z.ltb_spec hi a);
        try reflexivity; try lia; f_equal; lia.
Qed.

Lemma seventeen : fsub (literal 20 100) (literal 3 100) = literal 17 100.
Proof. vm_compute. reflexivity. Qed.

Lemma pct_of_spec risk : is_nan risk = false -> pct_of risk = Spec.percentage risk.
Proof.
  intros Hr. unfold pct_of, Spec.percentage. rewrite seventeen.
  destruct lit_1 as [E1 _]. unfold f0. unfold f1 in *.
  rewrite E1. rewrite minmax_spec; [reflexivity|exact Hr|].
  fold f1. rewrite units_1. pose proof scale_pos. lia.
Qed.

Lemma firstn_nodup {A} k (l : list A) : NoDup l -> NoDup (firstn k l).
Proof.
  intros H. rewrite <- (firstn_skipn k l) in H. eapply NoDup_app_remove_r; eauto.
Qed.

Lemma firstn_in {A} k (l : list A) x : In x (firstn k l) -> In x l.
Proof.
  intros H. rewrite <- (firstn_skipn k l). apply in_or_app. left. exact H.
Qed.

(** C6, from one leaf on: a returned plan has [risk = 0.6 (1 - SR) + 0.4 C],
    [percentage = 0.03 + 0.17 clamp(risk, 0, 1)] (for a risk that is a
    number), a percentage in [[0.03, 0.20]], [count = max(1, ceil(n *
    percentage))], a count [>= 1] and, from one leaf on, [<= n]; its
    indices are ascending, distinct and below [n]; and a plan is
    returned for every [n] a list can have. *)
Theorem rotation_plan_bounds {R : RandomSource} {RL : RandomSourceLaws R}
  (n : Z) (sr c : float) (seed : option Z) :
  0 <= n ->
  (forall pl, plan_rotations n sr c seed = Ok pl ->
     risk pl = Spec.risk sr c
     /\ (is_nan (risk pl) = false -> rotation_percentage pl = Spec.percentage (risk pl))
     /\ fle (literal 3 100) (rotation_percentage pl) = true
     /\ fle (rotation_percentage pl) (literal 20 100) = true
     /\ Spec.count n (rotation_percentage pl) = Ok (rotation_count pl)
     /\ 1 <= rotation_count pl
     /\ (1 <= n -> rotation_count pl <= n)
     /\ Sorted Z.le (indices pl) /\ NoDup (indices pl)
     /\ (forall i, In i (indices pl) -> 0 <= i < n)
     /\ Z.of_nat (List.length (indices pl)) = Z.min (rotation_count pl) n)
  /\ (n <= sys_maxsize -> exists pl, plan_rotations n sr c seed = Ok pl).
Proof.
  intros Hn. split.
  - intros pl H.
    destruct (plan_rotations_inv _ _ _ _ _ H) as [x Hx].
    destruct (plan_rotations_spec n x sr c seed Hn Hx) as [k [Ek [Hk1 [Hkn Ep]]]].
    rewrite Ep in H. apply Ok_inj in H. subst pl.
    cbn [risk rotation_percentage rotation_count indices].
    destruct (pct_range (risk_of sr c) (risk_valid sr c)) as [p [Epct [Rp Hp]]].
    set (sh := random_shuffle (match seed with Some s => s | None => 0 end) (py_range n)).
    assert (HP : Permutation sh (py_range n)) by apply random_shuffle_perm.
    split; [apply risk_of_spec|].
    split; [apply pct_of_spec|].
    split; [rewrite Epct; destruct lit_0_03 as [-> _]; apply fle_Fin; lia|].
    split; [rewrite Epct; destruct lit_0_20 as [-> _]; apply fle_Fin; lia|].
    split; [exact Ek|]. split; [exact Hk1|]. split; [exact Hkn|].
    split; [apply py_sorted_sorted|].
    split.
    { eapply Permutation_NoDup; [apply Permutation_sym, py_sorted_perm|].
      apply firstn_nodup. eapply Permutation_NoDup; [apply Permutation_sym, HP|].
      apply py_range_nodup. }
    split.
    { intros i Hi. apply py_range_in. eapply Permutation_in; [exact HP|].
      eapply firstn_in. eapply Permutation_in; [apply py_sorted_perm|exact Hi]. }
    rewrite (Permutation_length (py_sorted_perm _)), length_firstn,
      (Permutation_length HP), py_range_length. lia.
  - intros Hmax.
    destruct (of_int_total n Hn (maxsize_float _ Hmax)) as [F Hx].
    destruct (plan_rotations_spec n _ sr c seed Hn Hx) as [k [_ [_ [_ Ep]]]].
    eauto.
Qed.

Lemma rotation_plan_bounds_witness :
  exists pl,
    plan_rotations (R := mersenne_twister) 128 (literal 78 100) (literal 1 1) (Some 42)
    = Ok pl
    /\ 1 <= rotation_count pl <= 128
    /\ Sorted Z.le (indices pl)
    /\ Z.of_nat (List.length (indices pl)) = rotation_count pl.
Proof.
  destruct (rotation_plan_bounds (R := mersenne_twister) 128 (literal 78 100)
              (literal 1 1) (Some 42) ltac:(lia)) as [Hc Ht].
  destruct (Ht ltac:(vm_compute; discriminate)) as [pl Hpl].
  exists pl. split; [exact Hpl|].
  destruct (Hc pl Hpl) as [_ [_ [_ [_ [_ [H1 [H2 [H3 [_ [_ H4]]]]]]]]]].
  specialize (H2 ltac:(lia)). split; [lia|]. split; [exact H3|]. lia.
Defined.

(** With no leaf the planner still counts one rotation, above [n = 0],
    and selects no index. *)
Lemma rotation_count_counterexample :
  exists pl,
    plan_rotations (R := mersenne_twister) 0 (literal 5 10) (literal 5 10) None = Ok pl
    /\ rotation_count pl = 1
    /\ indices pl = []
    /\ ~ (rotation_count pl <= 0).
Proof.
  exists {| rotation_percentage := pct_of (risk_of (literal 5 10) (literal 5 10));
            rotation_count := 1;
            indices := [];
            risk := risk_of (literal 5 10) (literal 5 10) |}.
  split; [vm_compute; reflexivity|].
  cbn [rotation_count indices].
  split; [reflexivity|]. split; [reflexivity|lia].
Qed.

(** * The reconciler's rule *)

(** The number of policy decoys blended in, [int(n * expected * 0.2)],
    is the specification's floor and never exceeds the number of DECOY
    the policy assigns, [int(n * expected)]. *)
Lemma blend_count_bound n F e nd :
  0 <= n -> of_int n = Ok (Fin F) -> 0 <= F -> 0 <= e ->
  scaled_count n (Fin e) = Ok nd ->
  exists k,
    to_int (fmul (fmul (Fin F) (Fin e)) (literal 2 10)) = Ok k
    /\ Spec.blend_count n (Fin e) = Ok k
    /\ 0 <= k <= nd.
Proof.
  intros Hn Hx HF He Hnd.
  pose proof scale_pos as Hs.
  unfold scaled_count in Hnd. unfold Spec.blend_count.
  rewrite Hx in *. cbn [bind] in *.
  pose proof (fmul_valid (Fin F) (Fin e)) as HvP.
  cbn [fmul] in *.
  pose proof (rnd_ge (F * e) scale 0 Hs repr_zero ltac:(nia)) as HgeP.
  destruct (rnd (F * e) scale) as [| |P] eqn:EP; try discriminate.
  apply fle_Fin in HgeP. cbn [valid] in HvP.
  cbn [to_int] in Hnd. apply Ok_inj in Hnd.
  rewrite Z.quot_div_nonneg in Hnd by lia.
  destruct lit_0_2 as [E02 R02]. pose proof bound_0_2 as [B1 [B2 B3]].
  pose proof units_0_5 as B5.
  rewrite E02. cbn [fmul].
  destruct (rnd_between (P * units (literal 2 10)) scale 0 P)
    as [Q [-> HQ]]; [exact Hs|apply repr_zero|exact HvP|nia|nia|].
  exists (Q / scale). cbn [to_int].
  rewrite Z.quot_div_nonneg by lia.
  split; [reflexivity|]. split; [reflexivity|].
  subst nd. split; [apply Z.div_pos; lia|apply Z.div_le_mono; lia].
Qed.


Lemma positions_decoy pol i :
  In i (positions DECOY pol) <-> list_get pol i = Ok DECOY.
Proof.
  unfold positions. rewrite positions_from_in. unfold list_get.
  rewrite Z.sub_0_r. split.
  - intros [Hr ->]. destruct (Z.ltb_spec i 0); [lia|reflexivity].
  - destruct (Z.ltb_spec i 0); [discriminate|].
    destruct (nth_error pol (Z.to_nat i)) as [a|] eqn:E; [|discriminate].
    intros Ha. apply Ok_inj in Ha. subst a.
    assert (Z.to_nat i < List.length pol)%nat by (apply nth_error_Some; congruence).
    split; [lia|reflexivity].
Qed.

(** C9: an empty assignment comes back as it is.  For a non-empty one
    the deviation [|observed - expected| / (expected + 0.01)] is
    returned; at a deviation [<= 0.2] the predictor's assignment comes
    back unchanged; above [0.2] the policy assignment [pol] for seed 42
    is drawn, and the first [k = floor(n * expected * 0.2)] of its DECOY
    positions, in ascending order, take the policy's action while every
    other position keeps the predictor's action.  The policy holds at
    least [k] DECOY positions, so exactly [k] positions are written. *)
Theorem reconciler_rule {R : RandomSource} {RL : RandomSourceLaws R}
  (actions : list action) (sr c : float) :
  let n := Z.of_nat (List.length actions) in
  let expected := calculate_decoy_rate sr c in
  n <= sys_maxsize ->
  (n = 0 -> _apply_policy_constraints actions sr c = Ok actions)
  /\ (1 <= n ->
  exists dev pol k,
    Spec.deviation actions expected = Ok dev
    /\ generate_actions n sr c (Some 42) = Ok pol
    /\ Spec.blend_count n expected = Ok k
    /\ Z.of_nat (List.length (firstn (Z.to_nat k) (positions DECOY pol))) = k
    /\ StronglySorted Z.lt (positions DECOY pol)
    /\ (forall i, In i (positions DECOY pol) <-> list_get pol i = Ok DECOY)
    /\ (fle dev (literal 2 10) = true ->
        _apply_policy_constraints actions sr c = Ok actions)
    /\ (fgt dev (literal 2 10) = true ->
        exists blended,
          _apply_policy_constraints actions sr c = Ok blended
          /\ List.length blended = List.length actions
          /\ (forall i, In i (firstn (Z.to_nat k) (positions DECOY pol)) ->
                        list_get blended i = list_get pol i)
          /\ (forall i, ~ In i (firstn (Z.to_nat k) (positions DECOY pol)) ->
                        list_get blended i = list_get actions i))).
Proof.
  intros n expected Hmax. split.
  { intros H0. unfold _apply_policy_constraints. fold n. rewrite H0. reflexivity. }
  intros Hn. subst expected.
  destruct (decoy_rate_range sr c) as [e [Ee [Re He]]].
  pose proof bound_0_01 as [B1 _].
  destruct (deviation_total (py_count DECOY actions) n e Hn
              (py_count_bounds DECOY actions) ltac:(lia)) as [dev Hdev].
  destruct (generate_actions_total n sr c (Some 42) ltac:(lia)
              (maxsize_float n Hmax) seed_42_ok) as [pol Hpol].
  destruct (generate_actions_spec n sr c (Some 42) pol ltac:(lia) Hpol)
    as [nd [nm [nr [E1 [_ [_ [H1 [H2 [H3 [H4 [HP _]]]]]]]]]]].
  destruct (generate_actions_inv _ _ _ _ _ Hpol) as [_ [x Hx]].
  destruct (of_int_facts n x ltac:(lia) Hx) as [F [-> [RF [HF0 _]]]].
  unfold num_decoy in E1. rewrite Ee in *.
  destruct (blend_count_bound n F e nd ltac:(lia) Hx HF0 ltac:(lia) E1)
    as [k [Hk [Hsk [Hk0 Hknd]]]].
  assert (Hlen : Z.of_nat (List.length (positions DECOY pol)) = nd).
  { unfold positions. rewrite positions_from_length, (py_count_perm _ _ _ HP).
    destruct (blocks_count nd nm nr (n - nd - nm - nr)) as [C1 _]; try lia. }
  assert (Hpl : List.length pol = List.length actions).
  { apply Nat2Z.inj. rewrite (Permutation_length HP), blocks_length by lia.
    fold n. lia. }
  exists dev, pol, k.
  split; [exact Hdev|]. split; [exact Hpol|]. split; [exact Hsk|].
  split; [rewrite length_firstn; lia|].
  split; [apply positions_from_sorted|].
  split; [apply positions_decoy|].
  assert (Hun : _apply_policy_constraints actions sr c =
                if fgt dev (literal 2 10) then
                  blend actions pol (firstn (Z.to_nat k) (positions DECOY pol))
                else Ok actions).
  { unfold _apply_policy_constraints. fold n.
    destruct (Z.eqb_spec n 0); [lia|].
    rewrite Ee.
    rewrite Hdev. cbn [bind].
    destruct (fgt dev (literal 2 10)); [|reflexivity].
    rewrite Hpol. cbn [bind]. rewrite Hx. cbn [bind]. rewrite Hk. cbn [bind].
    rewrite Z.min_l by lia. reflexivity. }
  split.
  - intros Hle. rewrite Hun, (fle_not_fgt _ _ Hle). reflexivity.
  - intros Hgt. rewrite Hun, Hgt.
    destruct (blend_spec pol (firstn (Z.to_nat k) (positions DECOY pol)) actions)
      as [out [Eo [Hl [Hin Hout]]]].
    + symmetry. exact Hpl.
    + intros i Hi. apply firstn_in in Hi. apply positions_decoy in Hi.
      eapply list_get_ok. exact Hi.
    + exists out. split; [exact Eo|]. split; [exact Hl|]. split; assumption.
Qed.

(** The scenario of the spec: 90 DECOY among 100 predicted actions
    against an expected rate of 5% ([SR = 4.5], [C = 5.0]): one position,
    the policy's first DECOY, is written. *)
Definition skewed_prediction : list action :=
  py_repeat DECOY 90 ++ py_repeat VALID 10.

Definition above_threshold (r : result float) : bool :=
  match r with Ok d => fgt d (literal 2 10) | Raise _ => false end.

Lemma reconciler_rule_witness :
  exists pol blended i,
    generate_actions (R := mersenne_twister) 100 (literal 45 10) (literal 5 1) (Some 42)
    = Ok pol
    /\ _apply_policy_constraints (R := mersenne_twister) skewed_prediction
         (literal 45 10) (literal 5 1) = Ok blended
    /\ firstn 1 (positions DECOY pol) = [i]
    /\ list_get blended i = Ok DECOY
    /\ (forall j, j <> i -> list_get blended j = list_get skewed_prediction j).
Proof.
  destruct (reconciler_rule (R := mersenne_twister) skewed_prediction
              (literal 45 10) (literal 5 1) ltac:(vm_compute; discriminate))
    as [_ H].
  destruct (H ltac:(vm_compute; discriminate))
    as [dev [pol [k [Hdev [Hpol [Hk [Hlen [_ [Hpos [_ Hgt]]]]]]]]]].
  clear H.
  replace (Z.of_nat (List.length skewed_prediction)) with 100 in *
    by (vm_compute; reflexivity).
  replace (Spec.blend_count 100 (calculate_decoy_rate (literal 45 10) (literal 5 1)))
    with (Ok 1 : result Z) in Hk by (vm_compute; reflexivity).
  apply Ok_inj in Hk. subst k.
  assert (Ha : above_threshold
                 (Spec.deviation skewed_prediction
                    (calculate_decoy_rate (literal 45 10) (literal 5 1))) = true)
    by (vm_compute; reflexivity).
  rewrite Hdev in Ha. cbn [above_threshold] in Ha.
  destruct (Hgt Ha) as [blended [Hb [_ [Hin Hout]]]].
  change (Z.to_nat 1) with 1%nat in *.
  destruct (firstn 1 (positions DECOY pol)) as [|i [|i' rest]] eqn:Ef;
    try (cbn [List.length] in Hlen; lia).
  exists pol, blended, i.
  split; [exact Hpol|]. split; [exact Hb|]. split; [exact Ef|].
  split.
  - rewrite (Hin i (or_introl eq_refl)). apply Hpos.
    apply (firstn_in 1). rewrite Ef. left. reflexivity.
  - intros j Hj. apply Hout. intros [Hi|[]]. apply Hj. symmetry. exact Hi.
Defined.

(** * The two metrics on accepted parameters *)

(** C4: on parameters [validate_branching_params] accepts, both
    calculators return, and what they return is a finite float of
    [[0, 1]]. *)
Theorem metrics_unit_interval {M : PyMath} {ML : PyMathLaws M} (params : dict) :
  validate_branching_params params = Ok true ->
  (exists sr, SR_calculate params = Ok sr
              /\ is_finite sr = true
              /\ fle (Fin 0) sr = true /\ fle sr (literal 1 1) = true)
  /\ (exists c, C_calculate params = Ok c
                /\ is_finite c = true
                /\ fle (Fin 0) c = true /\ fle c (literal 1 1) = true).
Proof.
  intros Hv. split.
  - destruct (SR_calculate_range params Hv) as [v [E H]]. exists v. split; assumption.
  - destruct (C_calculate_range params Hv) as [v [E H]]. exists v. split; assumption.
Qed.

(** The parameters of [test_formulas], with the reference [math]. *)
Lemma metrics_unit_interval_witness :
  validate_branching_params sample_params = Ok true
  /\ (exists sr, SR_calculate (M := reference_math) sample_params = Ok sr
                 /\ is_finite sr = true
                 /\ fle (Fin 0) sr = true /\ fle sr (literal 1 1) = true)
  /\ (exists c, C_calculate (M := reference_math) sample_params = Ok c
                /\ is_finite c = true
                /\ fle (Fin 0) c = true /\ fle c (literal 1 1) = true).
Proof.
  split; [reflexivity|].
  apply (metrics_unit_interval (ML := reference_math_laws) sample_params).
  reflexivity.
Defined.

(** * The guard of the SR calculator *)

(** C5, as the code has it: when [b <= 0] or [m <= 0] or [t <= 0] the
    calculator returns the sentinel [1.0] as it is, without the
    normalisation; and past that guard [L = b ** m] is positive, so the
    guard [L <= 0] of the full formula is never taken. *)
Theorem sr_guard_sentinel {M : PyMath} (params : dict) (b m t : Z) :
  dict_get params "b" = Ok b ->
  dict_get params "m" = Ok m ->
  dict_get params "t" = Ok t ->
  (b <= 0 \/ m <= 0 \/ t <= 0 -> SR_calculate params = Ok (literal 1 1))
  /\ (0 < b -> 0 < m -> (b ^ m <=? 0) = false).
Proof.
  intros Eb Em Et. split.
  - intros Hg. unfold SR_calculate. rewrite Eb, Em, Et. cbn [bind].
    destruct (Z.leb_spec b 0); [reflexivity|].
    destruct (Z.leb_spec m 0); [reflexivity|].
    destruct (Z.leb_spec t 0); [reflexivity|]. lia.
  - intros Hb Hm. apply Z.leb_gt. apply Z.pow_pos_nonneg; lia.
Qed.

Definition guard_failing_params : dict := [("b", 0); ("m", 1); ("t", 1)].

Lemma sr_guard_sentinel_witness :
  SR_calculate (M := reference_math) guard_failing_params = Ok (literal 1 1).
Proof.
  apply (sr_guard_sentinel (M := reference_math) guard_failing_params 0 1 1
           eq_refl eq_refl eq_refl).
  left. lia.
Defined.

(** With [b = 0] the calculator answers [1.0], and the normalised image
    of [1.0] is [0.6666666666666666]. *)
Lemma sr_guard_counterexample :
  SR_calculate (M := reference_math) guard_failing_params = Ok (literal 1 1)
  /\ normalize (M := reference_math) SR.normalize_scale (literal 1 1)
     = literal 6666666666666666 (10 ^ 16)
  /\ SR_calculate (M := reference_math) guard_failing_params
     <> Ok (normalize (M := reference_math) SR.normalize_scale (literal 1 1)).
Proof.
  assert (E : normalize (M := reference_math) SR.normalize_scale (literal 1 1)
              = literal 6666666666666666 (10 ^ 16)) by (vm_compute; reflexivity).
  split; [vm_compute; reflexivity|]. split; [exact E|].
  rewrite E. vm_compute. discriminate.
Qed.

(** * Beyond the specification: further properties of the code *)

Local Open Scope list_scope.

(** * Rounding is monotone *)
Module Monotone.

Lemma rne_mono a a' d : a <= a' -> 0 < d -> rne a d <= rne a' d.
Proof.
  intros Ha Hd.
  pose proof (Z.div_mod a d ltac:(lia)) as E.
  pose proof (Z.mod_pos_bound a d Hd) as B.
  pose proof (Z.div_mod a' d ltac:(lia)) as E'.
  pose proof (Z.mod_pos_bound a' d Hd) as B'.
  assert (Hq : a / d <= a' / d) by (apply Z.div_le_mono; lia).
  destruct (Z.eq_dec (a / d) (a' / d)) as [Heq|Hne].
  - assert (Hr : a mod d <= a' mod d) by nia.
    unfold rne. rewrite <- Heq.
    destruct (Z.compare_spec (2 * (a mod d)) d);
      destruct (Z.compare_spec (2 * (a' mod d)) d);
      destruct (Z.even (a / d)); lia.
  - assert (rne a d <= a / d + 1).
    { unfold rne. destruct (2 * (a mod d) ?= d); [destruct (Z.even (a / d))| |]; lia. }
    assert (a' / d <= rne a' d).
    { unfold rne. destruct (2 * (a' mod d) ?= d); [destruct (Z.even (a' / d))| |]; lia. }
    lia.
Qed.

Lemma expo_mono q q' : q <= q' -> expo q <= expo q'.
Proof.
  intros H. unfold expo. pose proof (Z.log2_le_mono q q' H). lia.
Qed.

Lemma round_pos_mono a a' b :
  0 <= a -> a <= a' -> 0 < b -> round_pos a b <= round_pos a' b.
Proof.
  intros Ha Haa Hb.
  assert (Hq : 0 <= a / b) by (apply Z.div_pos; lia).
  assert (Hq' : a / b <= a' / b) by (apply Z.div_le_mono; lia).
  pose proof (expo_mono _ _ Hq') as Hk.
  pose proof (expo_nonneg (a / b)) as Hk0.
  destruct (Z.eq_dec (expo (a / b)) (expo (a' / b))) as [Heq|Hne].
  - unfold round_pos. rewrite <- Heq.
    assert (Hp : 0 < 2 ^ expo (a / b)) by (apply Z.pow_pos_nonneg; lia).
    apply Z.mul_le_mono_nonneg_r; [lia|].
    apply rne_mono; [lia|nia].
  - set (k := expo (a / b)) in *. set (k' := expo (a' / b)) in *.
    assert (Hp : 0 < 2 ^ k) by (apply Z.pow_pos_nonneg; lia).
    assert (H1 : round_pos a b <= 2 ^ 53 * 2 ^ k).
    { apply round_pos_le; try lia.
      - apply reprP_shift; [lia| |lia]. apply Z.pow_le_mono_r; lia.
      - pose proof (expo_upper (a / b) Hq) as Hu. fold k in Hu.
        rewrite Z.pow_add_r in Hu by lia.
        pose proof (Z.div_mod a b ltac:(lia)) as E.
        pose proof (Z.mod_pos_bound a b Hb) as B. nia. }
    assert (Hp' : 0 < 2 ^ k') by (apply Z.pow_pos_nonneg; lia).
    assert (H2 : 2 ^ 52 * 2 ^ k' <= round_pos a' b).
    { apply round_pos_ge; try lia.
      - apply reprP_shift; [lia|lia|]. apply Z.pow_le_mono_r; lia.
      - pose proof (expo_lower (a' / b) ltac:(fold k'; lia)) as Hl. fold k' in Hl.
        rewrite Z.pow_add_r in Hl by lia.
        pose proof (Z.div_mod a' b ltac:(lia)) as E.
        pose proof (Z.mod_pos_bound a' b Hb) as B. nia. }
    assert (H3 : 2 ^ 53 * 2 ^ k <= 2 ^ 52 * 2 ^ k').
    { replace (2 ^ 53) with (2 ^ 52 * 2 ^ 1) by reflexivity.
      rewrite <- Z.mul_assoc, <- Z.pow_add_r by lia.
      apply Z.mul_le_mono_nonneg_l; [lia|]. apply Z.pow_le_mono_r; lia. }
    lia.
Qed.

Lemma rnd_mono_nonneg a a' b :
  0 < b -> 0 <= a -> a <= a' -> fle (rnd a b) (rnd a' b) = true.
Proof.
  intros Hb Ha Haa. rewrite !rnd_unfold by assumption.
  rewrite !Z.abs_eq by lia.
  pose proof (round_pos_mono a a' b Ha Haa Hb) as Hm.
  pose proof (round_pos_nonneg a b Ha Hb) as Hn.
  destruct (Z.leb_spec huge (round_pos a b)); destruct (Z.leb_spec huge (round_pos a' b));
    try lia.
  - destruct (Z.ltb_spec a 0); destruct (Z.ltb_spec a' 0); try lia. reflexivity.
  - destruct (Z.ltb_spec a' 0); try lia. reflexivity.
  - apply fle_Fin. destruct (Z.eq_dec a 0) as [->|Hne].
    + rewrite round_pos_zero by assumption.
      rewrite Z.mul_0_r. destruct (Z.sgn_spec a') as [[? ->]|[[? ->]|[? ->]]]; lia.
    + rewrite !Z.sgn_pos by lia. lia.
Qed.

(** The float nearest to [a / b] does not decrease when [a] grows. *)
Lemma rnd_mono a a' b : 0 < b -> a <= a' -> fle (rnd a b) (rnd a' b) = true.
Proof.
  intros Hb Haa.
  destruct (Z_le_gt_dec 0 a) as [Ha|Ha]; [apply rnd_mono_nonneg; assumption|].
  destruct (Z_le_gt_dec 0 a') as [Ha'|Ha'].
  - eapply fle_trans with (y := Fin 0).
    + apply rnd_le; [assumption|apply repr_zero|lia].
    + apply rnd_ge; [assumption|apply repr_zero|lia].
  - replace a with (- - a) by lia. replace a' with (- - a') by lia.
    rewrite (rnd_opp (- a)), (rnd_opp (- a')) by assumption.
    rewrite fle_fneg. apply rnd_mono_nonneg; lia.
Qed.

End Monotone.
Import Monotone.

(** * What the daemon reports *)
Module ReportFacts.

Lemma unit_interval_0 : unit_interval f0.
Proof. apply unit_interval_intro. pose proof scale_pos. lia. Qed.

Lemma unit_interval_1 : unit_interval f1.
Proof.
  destruct lit_1 as [E _]. rewrite E, units_1.
  apply unit_interval_intro. pose proof scale_pos. lia.
Qed.

Lemma unit_interval_inv v : unit_interval v -> exists a, v = Fin a /\ 0 <= a <= scale.
Proof.
  intros [Hf [H0 H1]]. destruct v as [| |a]; try discriminate Hf.
  destruct lit_1 as [E1 _]. pose proof units_1 as U1.
  unfold f0 in H0. rewrite E1, U1 in H1. apply fle_Fin in H0, H1.
  exists a. split; [reflexivity|lia].
Qed.

Lemma sanitize_unit v : unit_interval v -> sanitize v = v.
Proof.
  intros H. destruct (unit_interval_inv v H) as [a [-> _]]. reflexivity.
Qed.

(** A missing key is a [KeyError]. *)
Lemma dict_get_missing (d : dict) k : dict_mem d k = false -> dict_get d k = Raise KeyError.
Proof.
  unfold dict_mem. induction d as [|[k' v] d IH]; [reflexivity|].
  cbn [existsb dict_get fst]. destruct (String.eqb k k'); [discriminate|].
  cbn [orb]. exact IH.
Qed.

Lemma dict_get_present (d : dict) k : dict_mem d k = true -> exists v, dict_get d k = Ok v.
Proof.
  unfold dict_mem. induction d as [|[k' v] d IH]; [discriminate|].
  cbn [existsb dict_get fst]. destruct (String.eqb k k'); [eauto|].
  cbn [orb]. exact IH.
Qed.

Section WithMath.
Context {M : PyMath}.

Lemma SR_calculate_unit params v : SR_calculate params = Ok v -> unit_interval v.
Proof.
  unfold SR_calculate.
  destruct (dict_get params "b") as [b|]; [|discriminate].
  destruct (dict_get params "m") as [m|]; [|discriminate].
  destruct (dict_get params "t") as [t|]; [|discriminate].
  cbn [bind].
  destruct ((b <=? 0) || (m <=? 0) || (t <=? 0)).
  - intros H. apply Ok_inj in H. subst v. apply unit_interval_1.
  - destruct (_calculate_full_formula b m t) as [raw|]; [|discriminate].
    cbn [bind]. intros H. apply Ok_inj in H. subst v. apply normalize_range.
Qed.

Lemma C_calculate_unit params v : C_calculate params = Ok v -> unit_interval v.
Proof.
  unfold C_calculate.
  destruct (dict_get params "b") as [b|]; [|discriminate].
  destruct (dict_get params "m") as [m|]; [|discriminate].
  destruct (dict_get params "t") as [t|]; [|discriminate].
  cbn [bind]. cbv zeta.
  destruct (of_int t) as [tf|]; [|discriminate]. cbn [bind].
  destruct (int_pow_float b CC.a) as [pw|]; [|discriminate]. cbn [bind].
  destruct (of_int (b * m)) as [bm|]; [|discriminate]. cbn [bind].
  destruct (of_int (2 * m + 1)) as [df|]; [|discriminate]. cbn [bind].
  destruct (float_pow CC.P df) as [pd|]; [|discriminate]. cbn [bind].
  destruct pw as [pw|].
  - destruct (fdiv _ _) as [raw|]; [|discriminate]. cbn [bind].
    intros H. apply Ok_inj in H. subst v. apply normalize_range.
  - intros H. apply Ok_inj in H. subst v. apply unit_interval_0.
Qed.

(** The metrics [handle_decide] works with lie in [[0, 1]], whatever the
    parameters are. *)
Lemma metrics_unit params :
  unit_interval (fst (metrics params)) /\ unit_interval (snd (metrics params)).
Proof.
  unfold metrics.
  destruct (SR_calculate params) as [sr|] eqn:Es; cbn [bind try_except];
    [|cbn [fst snd]; rewrite (sanitize_unit _ unit_interval_0);
      split; apply unit_interval_0].
  destruct (C_calculate params) as [c|] eqn:Ec; cbn [bind try_except];
    [|cbn [fst snd]; rewrite (sanitize_unit _ unit_interval_0);
      split; apply unit_interval_0].
  cbn [fst snd].
  pose proof (SR_calculate_unit _ _ Es) as Hs.
  pose proof (C_calculate_unit _ _ Ec) as Hc.
  rewrite (sanitize_unit _ Hs), (sanitize_unit _ Hc). split; assumption.
Qed.

End WithMath.

Lemma lit_0_6 : is_lit (literal 6 10). Proof. lit. Qed.
Lemma lit_0_4 : is_lit (literal 4 10). Proof. lit. Qed.
Lemma sum_0_6_0_4 : units (literal 6 10) + units (literal 4 10) = scale.
Proof. vm_compute; reflexivity. Qed.
Lemma bound_0_6 : 0 < units (literal 6 10). Proof. cmp. Qed.
Lemma bound_0_4 : 0 < units (literal 4 10). Proof. cmp. Qed.

(** The pieces of the risk score on metrics of [[0, 1]]. *)
Lemma risk_parts s c :
  0 <= s <= scale -> 0 <= c <= scale ->
  exists x t1 t2 r,
    fsub f1 (Fin s) = Fin x /\ 0 <= x <= scale /\ repr x = true
    /\ fmul (Fin x) (literal 6 10) = Fin t1 /\ 0 <= t1 <= units (literal 6 10)
    /\ fmul (Fin c) (literal 4 10) = Fin t2 /\ 0 <= t2 <= units (literal 4 10)
    /\ risk_of (Fin s) (Fin c) = Fin r /\ 0 <= r <= scale /\ repr r = true.
Proof.
  intros Hs Hc. pose proof scale_pos as Hp.
  destruct lit_1 as [E1 _]. pose proof units_1 as U1.
  destruct lit_0_6 as [E6 R6]. destruct lit_0_4 as [E4 R4].
  pose proof bound_0_6 as B6. pose proof bound_0_4 as B4. pose proof sum_0_6_0_4 as S.
  destruct (fadd_between scale (- s) 0 scale repr_zero repr_scale ltac:(lia) ltac:(lia))
    as [x [Ex [Rx Hx]]].
  remember (units (literal 6 10)) as u6 eqn:Hu6.
  remember (units (literal 4 10)) as u4 eqn:Hu4.
  assert (A1 : 0 * scale <= x * u6) by nia.
  assert (A2 : x * u6 <= u6 * scale) by nia.
  assert (A3 : 0 * scale <= c * u4) by nia.
  assert (A4 : c * u4 <= u4 * scale) by nia.
  destruct (fmul_between x u6 0 u6 repr_zero R6 A1 A2) as [t1 [Et1 [_ Ht1]]].
  destruct (fmul_between c u4 0 u4 repr_zero R4 A3 A4) as [t2 [Et2 [_ Ht2]]].
  destruct (fadd_between t1 t2 0 scale repr_zero repr_scale ltac:(lia) ltac:(lia))
    as [r [Er [Rr Hr]]].
  assert (Fx : fsub f1 (Fin s) = Fin x).
  { unfold fsub. rewrite E1, U1. cbn [fneg]. exact Ex. }
  exists x, t1, t2, r.
  split; [exact Fx|]. split; [lia|]. split; [exact Rx|].
  split; [rewrite E6; exact Et1|]. split; [lia|].
  split; [rewrite E4; exact Et2|]. split; [lia|].
  split; [|split; [lia|exact Rr]].
  unfold risk_of. rewrite Fx, E6, E4, Et1, Et2. exact Er.
Qed.

Lemma risk_unit sr c : unit_interval sr -> unit_interval c -> unit_interval (risk_of sr c).
Proof.
  intros Hs Hc.
  destruct (unit_interval_inv _ Hs) as [s [-> Hs']].
  destruct (unit_interval_inv _ Hc) as [cc [-> Hc']].
  destruct (risk_parts s cc Hs' Hc') as [x [t1 [t2 [r [_ [_ [_ [_ [_ [_ [_ [-> [Hr _]]]]]]]]]]]]].
  apply unit_interval_intro. exact Hr.
Qed.

End ReportFacts.
Import ReportFacts.

Module ServeFacts.

(** With no leaf the planner counts one rotation. *)
Lemma count_of_zero p : count_of 0 (Fin p) = Ok 1.
Proof.
  unfold count_of.
  replace (of_int 0) with (Ok (Fin 0)) by (vm_compute; reflexivity).
  cbn [bind fmul]. rewrite Z.mul_0_l.
  replace (rnd 0 scale) with (Fin 0) by (vm_compute; reflexivity).
  reflexivity.
Qed.

Lemma consumption_total k : 0 <= k -> k <= 2 ^ 1023 -> exists d, consumption k = Ok d.
Proof.
  intros H0 H1. unfold consumption.
  destruct (of_int_total k H0 H1) as [F ->]. cbn [bind]. eauto.
Qed.

(** Every decision costs at least [0.5]. *)
Lemma consumption_ge_half k d :
  0 <= k -> consumption k = Ok d ->
  d = Inf false \/ exists D, d = Fin D /\ units (literal 5 10) <= D.
Proof.
  intros Hk. unfold consumption.
  destruct (of_int k) as [x|] eqn:Ex; [|discriminate].
  destruct (of_int_facts k x Hk Ex) as [F [-> [RF [HF0 _]]]].
  unfold bind. intros Hd. apply Ok_inj in Hd. subst d.
  destruct lit_0_01 as [E01 R01]. destruct lit_0_5 as [E05 R05].
  pose proof bound_0_01 as B01. pose proof units_0_5 as B05. pose proof scale_pos as Hs.
  rewrite E01, E05. cbn [fmul].
  pose proof (rnd_ge (units (literal 1 100) * F) scale 0 Hs repr_zero ltac:(nia)) as Hge.
  destruct (fle_Fin_l _ _ Hge) as [->|[q [-> Hq]]]; [left; reflexivity|].
  cbn [fadd].
  pose proof (rnd_ge (units (literal 5 10) + q) 1 (units (literal 5 10)) ltac:(lia) R05
                ltac:(lia)) as Hge'.
  destruct (fle_Fin_l _ _ Hge') as [->|[D [-> HD]]]; [left; reflexivity|].
  right. exists D. split; [reflexivity|cbn [units]; lia].
Qed.

Lemma half_units : units (literal 5 10) = 2 ^ 1073.
Proof. vm_compute; reflexivity. Qed.

Lemma budget_units : ENTROPY_BUDGET = Fin (200 * units (literal 5 10)).
Proof. vm_compute; reflexivity. Qed.

Lemma repr_halves j : 0 <= j <= 200 -> repr (j * units (literal 5 10)) = true.
Proof.
  intros Hj. rewrite half_units. apply repr_spec.
  assert (Hp : 0 < 2 ^ 1073) by (apply Z.pow_pos_nonneg; lia).
  rewrite Z.abs_eq by nia. split.
  - rewrite huge_eq.
    assert (2 ^ 2098 = 2 ^ 1025 * 2 ^ 1073) by (rewrite <- Z.pow_add_r by lia; reflexivity).
    assert (200 < 2 ^ 1025).
    { assert (2 ^ 8 <= 2 ^ 1025) by (apply Z.pow_le_mono_r; lia).
      change (2 ^ 8) with 256 in *. lia. }
    nia.
  - apply reprP_scaled; lia.
Qed.

(** Taking at least [0.5] from a budget of at most [j] halves leaves at
    most [j - 1] halves. *)
Lemma fsub_half b d j :
  budget_ok b -> 1 <= j <= 200 ->
  fle b (Fin (j * units (literal 5 10))) = true ->
  (d = Inf false \/ exists D, d = Fin D /\ units (literal 5 10) <= D) ->
  fle (fsub b d) (Fin ((j - 1) * units (literal 5 10))) = true.
Proof.
  intros [->|[B [-> RB]]] Hj Hb [->|[D [-> HD]]]; unfold fsub; cbn [fneg fadd Bool.eqb];
    try reflexivity.
  apply fle_Fin in Hb.
  apply rnd_le; [lia|apply repr_halves; lia|lia].
Qed.

Section WithInterfaces.
Context {M : PyMath} {R : RandomSource} {RL : RandomSourceLaws R}.

(** [handle_decide] returns for every request whose feature list Python
    can hold, in both states of the budget. *)
Lemma handle_decide_total p budget :
  leaf_count p <= sys_maxsize ->
  exists r b', handle_decide p budget = Ok (r, b').
Proof.
  intros Hn. rewrite handle_decide_eq. cbv zeta.
  pose proof (leaf_count_nonneg p) as H0.
  destruct (generate_actions_total (leaf_count p) (fst (request_metrics p))
              (snd (request_metrics p)) (seed_val budget) H0 (maxsize_float _ Hn)
              (seed_val_ok budget)) as [acts Ea].
  destruct (of_int_total (leaf_count p) H0 (maxsize_float _ Hn)) as [F Hx].
  destruct (plan_rotations_spec (leaf_count p) _ (fst (request_metrics p))
              (snd (request_metrics p)) (seed_val budget) H0 Hx) as [k [Ek [Hk1 [Hkn Ep]]]].
  rewrite Ea, Ep. cbn [bind rotation_count].
  destruct (locked budget); cbn [negb bind]; [eauto|].
  assert (Hk : k <= 2 ^ 1023).
  { destruct (Z.eq_dec (leaf_count p) 0) as [E0|Hne].
    - rewrite E0 in Ek.
      destruct (pct_range (risk_of (fst (request_metrics p)) (snd (request_metrics p)))
                  (risk_valid _ _)) as [q [Eq _]].
      rewrite Eq, count_of_zero in Ek. apply Ok_inj in Ek. subst k.
      apply maxsize_float. unfold sys_maxsize. lia.
    - specialize (Hkn ltac:(lia)). apply maxsize_float. lia. }
  destruct (consumption_total k ltac:(lia) Hk) as [d ->]. cbn [bind]. eauto.
Qed.

Lemma decide_step_ok p budget r b' :
  handle_decide p budget = Ok (r, b') -> decide_step budget p = b'.
Proof. unfold decide_step. intros ->. reflexivity. Qed.

(** The plan of a returned decision counts at least one rotation. *)
Lemma decided_count p budget r b' :
  handle_decide p budget = Ok (r, b') -> 1 <= rotation_count (d_rotation_plan r).
Proof.
  intros E. destruct (handle_decide_inv _ _ _ _ E) as [_ [Hp _]]. cbv zeta in Hp.
  destruct (plan_rotations_inv _ _ _ _ _ Hp) as [x Hx].
  destruct (plan_rotations_spec (leaf_count p) x (fst (request_metrics p))
              (snd (request_metrics p)) (seed_val budget) (leaf_count_nonneg p) Hx)
    as [k [_ [Hk [_ Ep]]]].
  rewrite Ep in Hp. apply Ok_inj in Hp. rewrite <- Hp. exact Hk.
Qed.

Lemma decided_risk p budget r b' :
  handle_decide p budget = Ok (r, b') ->
  risk (d_rotation_plan r) = risk_of (d_sr r) (d_c r)
  /\ d_sr r = fst (request_metrics p) /\ d_c r = snd (request_metrics p).
Proof.
  intros E. destruct (handle_decide_inv _ _ _ _ E) as [_ [Hp [_ Hr]]]. cbv zeta in *.
  destruct (plan_rotations_inv _ _ _ _ _ Hp) as [x Hx].
  destruct (plan_rotations_spec (leaf_count p) x (fst (request_metrics p))
              (snd (request_metrics p)) (seed_val budget) (leaf_count_nonneg p) Hx)
    as [k [_ [Hk [_ Ep]]]].
  rewrite Ep in Hp. apply Ok_inj in Hp.
  assert (Hs : d_sr r = fst (request_metrics p)) by (rewrite Hr; reflexivity).
  assert (Hc : d_c r = snd (request_metrics p)) by (rewrite Hr; reflexivity).
  split; [|split; assumption].
  rewrite Hs, Hc, <- Hp. reflexivity.
Qed.

(** Served from a well-formed budget of at most [100.0], every answer
    reports a remaining budget in [[0, 100]]. *)
Lemma serve_remaining ps :
  forall b, budget_ok b -> fle b ENTROPY_BUDGET = true ->
  Forall (fun res => match res with
                     | Ok r => fle f0 (entropy_budget_remaining r) = true
                               /\ fle (entropy_budget_remaining r) ENTROPY_BUDGET = true
                     | Raise _ => True
                     end) (serve b ps).
Proof.
  induction ps as [|p ps IH]; intros b Hb Hle; cbn [serve]; [constructor|].
  destruct (handle_decide p b) as [[r b']|e] eqn:E.
  - pose proof (decide_step_ok _ _ _ _ E) as Hs.
    destruct (decide_step_le b p Hb) as [H1 [H2 _]]. rewrite Hs in H1, H2.
    assert (Hle' : fle b' ENTROPY_BUDGET = true) by (eapply fle_trans; eassumption).
    constructor; [|apply IH; assumption].
    destruct (handle_decide_inv _ _ _ _ E) as [_ [_ [_ Hr]]]. cbv zeta in Hr.
    rewrite Hr. cbn [entropy_budget_remaining record_of].
    unfold py_max, fgt. destruct (flt f0 b') eqn:Ef.
    + split; [apply flt_fle; exact Ef|exact Hle'].
    + split; [reflexivity|vm_compute; reflexivity].
  - constructor; [exact I|apply IH; assumption].
Qed.

(** After [j] decisions a budget of at most [j] halves is spent. *)
Lemma lock_after ps :
  forall b j,
    budget_ok b -> 0 <= j <= 200 ->
    fle b (Fin (j * units (literal 5 10))) = true ->
    (forall p, In p ps -> leaf_count p <= sys_maxsize) ->
    j <= Z.of_nat (List.length ps) ->
    locked (fold_left decide_step ps b) = true.
Proof.
  induction ps as [|p ps IH]; intros b j Hb Hj Hle Hps Hlen.
  - cbn [List.length] in Hlen. assert (j = 0) by lia. subst j.
    cbn [fold_left]. exact Hle.
  - destruct (locked b) eqn:HL.
    + destruct (fold_decide_le (p :: ps) b Hb) as [_ [_ H3]]. rewrite (H3 HL). exact HL.
    + cbn [fold_left].
      assert (Hj1 : 1 <= j).
      { destruct (Z.eq_dec j 0) as [->|]; [|lia].
        unfold locked, f0 in HL. rewrite Z.mul_0_l in Hle. congruence. }
      destruct (handle_decide_total p b (Hps p (or_introl eq_refl))) as [r [b' E]].
      rewrite (decide_step_ok _ _ _ _ E).
      destruct (decide_step_le b p Hb) as [_ [H2 _]].
      rewrite (decide_step_ok _ _ _ _ E) in H2.
      pose proof (decided_count _ _ _ _ E) as Hc.
      destruct (handle_decide_inv _ _ _ _ E) as [_ [_ [Hbud _]]]. rewrite HL in Hbud.
      destruct Hbud as [d [Ed ->]].
      apply (IH _ (j - 1)); [exact H2|lia| | |].
      * apply fsub_half; [exact Hb|lia|exact Hle|].
        eapply consumption_ge_half; [|exact Ed]. lia.
      * intros q Hq. apply Hps. right. exact Hq.
      * cbn [List.length] in Hlen. lia.
Qed.

End WithInterfaces.
End ServeFacts.
Import ServeFacts.

(** * The daemon on untyped payloads *)
Module UntypedFacts.

(** The typed payload with the same params and seed and [n] features. *)
Definition typed (n : Z) (p : Untyped.payload) : payload :=
  {| params := Untyped.params p;
     features := Some (repeat ([] : feature) (Z.to_nat n));
     seed_model_hash := Untyped.seed_model_hash p |}.

(** The requests of a sequence that [len] accepts, typed. *)
Definition answered (ps : list Untyped.payload) : list payload :=
  flat_map (fun p => match Untyped.leaf_count p with
                     | Ok n => [typed n p]
                     | Raise _ => []
                     end) ps.

(** An object of the protocol as a JSON value, and a typed payload as an
    untyped one. *)
Definition feature_value (f : feature) : Untyped.json_value :=
  Untyped.json_object (map (fun kv => (fst kv, Untyped.json_float (snd kv))) f).

Definition untyped (p : payload) : Untyped.payload :=
  {| Untyped.params := params p;
     Untyped.features :=
       option_map (fun l => Untyped.json_array (map feature_value l)) (features p);
     Untyped.seed_model_hash := seed_model_hash p |}.

Lemma py_len_cases v :
  (exists n, Untyped.py_len v = Ok n /\ 0 <= n) \/ Untyped.py_len v = Raise TypeError.
Proof.
  destruct v; cbn [Untyped.py_len]; try (right; reflexivity);
    left; eexists; (split; [reflexivity|lia]).
Qed.

Lemma leaf_count_cases p :
  (exists n, Untyped.leaf_count p = Ok n /\ 0 <= n) \/ Untyped.leaf_count p = Raise TypeError.
Proof. apply py_len_cases. Qed.

Lemma leaf_count_typed n p : 0 <= n -> DecideFacts.leaf_count (typed n p) = n.
Proof.
  intros Hn. unfold DecideFacts.leaf_count, typed. cbn [features].
  rewrite repeat_length. lia.
Qed.

Section WithInterfaces.
Context {M : PyMath} {R : RandomSource}.

(** With [len(features) = n] the untyped function is the typed one on
    any list of [n] features. *)
Lemma handle_decide_sized p budget n :
  Untyped.leaf_count p = Ok n -> 0 <= n ->
  Untyped.handle_decide p budget = handle_decide (typed n p) budget.
Proof.
  intros E Hn. rewrite handle_decide_eq. cbv zeta.
  rewrite (leaf_count_typed n p Hn).
  unfold Untyped.handle_decide, request_metrics, typed. cbn [params].
  unfold Untyped.leaf_count in E.
  destruct (metrics _) as [sr c]. cbv zeta. rewrite E. cbn [bind fst snd].
  destruct (generate_actions n sr c (seed_val budget)); reflexivity.
Qed.

(** Without a [len] the function raises what [len] raises. *)
Lemma handle_decide_unsized p budget e :
  Untyped.leaf_count p = Raise e -> Untyped.handle_decide p budget = Raise e.
Proof.
  intros E. unfold Untyped.handle_decide. unfold Untyped.leaf_count in E.
  destruct (metrics _) as [sr c]. cbv zeta. rewrite E. reflexivity.
Qed.

(** The typed model is the untyped one on payloads of the protocol. *)
Lemma handle_decide_untyped p budget :
  Untyped.handle_decide (untyped p) budget = handle_decide p budget.
Proof.
  unfold Untyped.handle_decide, handle_decide, untyped.
  cbn [Untyped.params Untyped.features Untyped.seed_model_hash].
  destruct (metrics _) as [sr c]. cbv zeta.
  destruct (features p) as [l|]; cbn [option_map Untyped.py_len bind List.length];
    rewrite ?length_map; reflexivity.
Qed.

Lemma decide_step_sized p budget n :
  Untyped.leaf_count p = Ok n -> 0 <= n ->
  Untyped.decide_step budget p = decide_step budget (typed n p).
Proof.
  intros E Hn. unfold Untyped.decide_step, decide_step.
  rewrite (handle_decide_sized p budget n E Hn). reflexivity.
Qed.

Lemma decide_step_unsized p budget e :
  Untyped.leaf_count p = Raise e -> Untyped.decide_step budget p = budget.
Proof.
  intros E. unfold Untyped.decide_step.
  rewrite (handle_decide_unsized p budget e E). reflexivity.
Qed.

(** A sequence of messages moves the budget as its answered requests do. *)
Lemma fold_answered ps :
  forall b, fold_left Untyped.decide_step ps b = fold_left decide_step (answered ps) b.
Proof.
  induction ps as [|p ps IH]; intros b; [reflexivity|].
  cbn [fold_left]. unfold answered. cbn [flat_map]. fold (answered ps).
  destruct (leaf_count_cases p) as [[n [E Hn]]|E]; rewrite E.
  - cbn [app fold_left]. rewrite (decide_step_sized p b n E Hn). apply IH.
  - cbn [app]. rewrite (decide_step_unsized p b _ E). apply IH.
Qed.

Lemma answered_length ps :
  List.length (answered ps)
  = List.length (filter (fun p => returns (Untyped.leaf_count p)) ps).
Proof.
  induction ps as [|p ps IH]; [reflexivity|].
  unfold answered. cbn [flat_map filter]. fold (answered ps).
  destruct (Untyped.leaf_count p); cbn [returns app List.length]; rewrite ?IH; reflexivity.
Qed.

Lemma answered_in q ps :
  In q (answered ps) ->
  exists p n, In p ps /\ Untyped.leaf_count p = Ok n /\ q = typed n p.
Proof.
  unfold answered. intros H. apply in_flat_map in H. destruct H as [p [Hp Hq]].
  destruct (Untyped.leaf_count p) as [n|e] eqn:E; [|destruct Hq].
  destruct Hq as [<-|[]]. exists p, n. split; [exact Hp|]. split; [exact E|reflexivity].
Qed.

End WithInterfaces.
End UntypedFacts.
Import UntypedFacts.

(** * Further properties of the daemon and the calculators *)

(** X1: whatever the parameters, valid or not, a value either calculator
    returns is a finite float of [[0, 1]]: it is the raw sentinel [1.0],
    the [0.0] of the failed normalisation or the clamped sigmoid. *)
Theorem calculators_stay_in_unit_interval {M : PyMath} (params : dict) :
  (forall sr, SR_calculate params = Ok sr ->
     is_finite sr = true /\ fle (Fin 0) sr = true /\ fle sr (literal 1 1) = true)
  /\ (forall c, C_calculate params = Ok c ->
        is_finite c = true /\ fle (Fin 0) c = true /\ fle c (literal 1 1) = true).
Proof.
  split.
  - intros sr H. exact (SR_calculate_unit params sr H).
  - intros c H. exact (C_calculate_unit params c H).
Qed.

(** X2: when one of the keys [b], [m], [t] is missing, both calculators
    raise [KeyError], [validate_branching_params] answers [False] without
    raising, and [handle_decide] goes on with [sr = c = 0.0]. *)
Theorem missing_key_zero_metrics {M : PyMath} (params : dict) (k : string) :
  In k ["b"; "m"; "t"] -> dict_mem params k = false ->
  SR_calculate params = Raise KeyError
  /\ C_calculate params = Raise KeyError
  /\ validate_branching_params params = Ok false
  /\ metrics params = (Fin 0, Fin 0).
Proof.
  intros Hk Hm.
  assert (Hs : SR_calculate params = Raise KeyError).
  { unfold SR_calculate.
    destruct (dict_mem params "b") eqn:Eb;
      [destruct (dict_get_present _ _ Eb) as [b ->]|rewrite (dict_get_missing _ _ Eb); reflexivity].
    cbn [bind].
    destruct (dict_mem params "m") eqn:Em;
      [destruct (dict_get_present _ _ Em) as [m ->]|rewrite (dict_get_missing _ _ Em); reflexivity].
    cbn [bind].
    destruct (dict_mem params "t") eqn:Et;
      [|rewrite (dict_get_missing _ _ Et); reflexivity].
    destruct Hk as [<-|[<-|[<-|[]]]]; congruence. }
  assert (Hc : C_calculate params = Raise KeyError).
  { unfold C_calculate.
    destruct (dict_mem params "b") eqn:Eb;
      [destruct (dict_get_present _ _ Eb) as [b ->]|rewrite (dict_get_missing _ _ Eb); reflexivity].
    cbn [bind].
    destruct (dict_mem params "m") eqn:Em;
      [destruct (dict_get_present _ _ Em) as [m ->]|rewrite (dict_get_missing _ _ Em); reflexivity].
    cbn [bind].
    destruct (dict_mem params "t") eqn:Et;
      [|rewrite (dict_get_missing _ _ Et); reflexivity].
    destruct Hk as [<-|[<-|[<-|[]]]]; congruence. }
  split; [exact Hs|]. split; [exact Hc|]. split.
  - unfold validate_branching_params. cbn [forallb].
    destruct Hk as [<-|[<-|[<-|[]]]]; rewrite Hm;
      rewrite ?andb_false_r, ?andb_false_l; reflexivity.
  - unfold metrics. rewrite Hs. reflexivity.
Qed.

(** The empty parameter object of a request without [params]. *)
Lemma missing_key_zero_metrics_witness :
  SR_calculate (M := reference_math) [] = Raise KeyError
  /\ C_calculate (M := reference_math) [] = Raise KeyError
  /\ validate_branching_params [] = Ok false
  /\ metrics (M := reference_math) [] = (Fin 0, Fin 0).
Proof.
  apply (missing_key_zero_metrics (M := reference_math) [] "b").
  - left. reflexivity.
  - reflexivity.
Defined.

(** X3: every decision reports [sr], [c] and a rotation risk that are
    finite floats of [[0, 1]], for every parameter object (missing or
    invalid entries included). *)
Theorem decision_metrics_range {M : PyMath} {R : RandomSource}
  (p : payload) (budget : float) (r : decision_record) (b' : float) :
  handle_decide p budget = Ok (r, b') ->
  (is_finite (d_sr r) = true
   /\ fle (Fin 0) (d_sr r) = true /\ fle (d_sr r) (literal 1 1) = true)
  /\ (is_finite (d_c r) = true
      /\ fle (Fin 0) (d_c r) = true /\ fle (d_c r) (literal 1 1) = true)
  /\ (is_finite (risk (d_rotation_plan r)) = true
      /\ fle (Fin 0) (risk (d_rotation_plan r)) = true
      /\ fle (risk (d_rotation_plan r)) (literal 1 1) = true).
Proof.
  intros E. destruct (decided_risk _ _ _ _ E) as [Hr [Hs Hc]].
  destruct (metrics_unit (match params p with Some d => d | None => [] end)) as [Us Uc].
  fold (request_metrics p) in Us, Uc. rewrite <- Hs in Us. rewrite <- Hc in Uc.
  split; [exact Us|]. split; [exact Uc|].
  rewrite Hr. exact (risk_unit _ _ Us Uc).
Qed.

Lemma decision_metrics_range_witness :
  exists r b',
    handle_decide (M := reference_math) (R := mersenne_twister)
      (request [[]; []; []] None) ENTROPY_BUDGET = Ok (r, b')
    /\ fle (Fin 0) (d_sr r) = true /\ fle (d_sr r) (literal 1 1) = true
    /\ fle (Fin 0) (d_c r) = true /\ fle (d_c r) (literal 1 1) = true
    /\ fle (Fin 0) (risk (d_rotation_plan r)) = true
    /\ fle (risk (d_rotation_plan r)) (literal 1 1) = true.
Proof.
  destruct (handle_decide_total (M := reference_math) (RL := mersenne_twister_laws)
              (request [[]; []; []] None) ENTROPY_BUDGET ltac:(vm_compute; discriminate))
    as [r [b' E]].
  exists r, b'. split; [exact E|].
  destruct (decision_metrics_range _ _ _ _ E) as [[_ [H1 H2]] [[_ [H3 H4]] [_ [H5 H6]]]].
  split; [exact H1|]. split; [exact H2|]. split; [exact H3|]. split; [exact H4|].
  split; [exact H5|exact H6].
Defined.

(** A returned decision holds one action per feature, and every index
    of its plan is a position of the action list. *)
Lemma decided_shape {M : PyMath} {R : RandomSource} {RL : RandomSourceLaws R}
  (p : payload) (budget : float) (r : decision_record) (b' : float) :
  handle_decide p budget = Ok (r, b') ->
  Z.of_nat (List.length (d_actions r)) = leaf_count p
  /\ (forall i, In i (indices (d_rotation_plan r)) ->
                exists a, list_get (d_actions r) i = Ok a).
Proof.
  intros E. pose proof (leaf_count_nonneg p) as H0.
  destruct (handle_decide_inv _ _ _ _ E) as [Ha [Hp _]]. cbv zeta in Ha, Hp.
  destruct (generate_actions_spec _ _ _ _ _ H0 Ha)
    as [nd [nm [nr [_ [_ [_ [H1 [H2 [H3 [H4 [HP _]]]]]]]]]]].
  assert (Hlen : Z.of_nat (List.length (d_actions r)) = leaf_count p).
  { rewrite (Permutation_length HP), blocks_length by lia. lia. }
  split; [exact Hlen|].
  intros i Hi.
  destruct (plan_rotations_inv _ _ _ _ _ Hp) as [x Hx].
  destruct (plan_rotations_spec (leaf_count p) x (fst (request_metrics p))
              (snd (request_metrics p)) (seed_val budget) H0 Hx) as [k [_ [_ [_ Ep]]]].
  rewrite Ep in Hp. apply Ok_inj in Hp. rewrite <- Hp in Hi. cbn [indices] in Hi.
  assert (Hr : 0 <= i < leaf_count p).
  { apply py_range_in. eapply Permutation_in; [apply random_shuffle_perm|].
    eapply firstn_in. eapply Permutation_in; [apply py_sorted_perm|exact Hi]. }
  destruct (d_actions r) as [|a0 l] eqn:El; [cbn [List.length] in Hlen; lia|].
  rewrite <- El in *. exists (nth (Z.to_nat i) (d_actions r) a0).
  apply list_get_nth. lia.
Qed.

(** X4: [handle_decide] answers exactly when [len(features)] is
    defined.  For a payload object whose [features] are absent, a list,
    a string or an object of at most [sys.maxsize] entries it returns a
    decision, whatever the params, the seed and the budget: one action
    per entry, and every index of the rotation plan a position of the
    action list.  For [features] that are [null], a number or a boolean
    it raises [TypeError], and [process_message] leaves the budget as it
    was. *)
Theorem decide_answers_sized_features
  {M : PyMath} {R : RandomSource} {RL : RandomSourceLaws R}
  (p : Untyped.payload) (budget : float) :
  ((exists n, Untyped.leaf_count p = Ok n /\ 0 <= n)
   \/ Untyped.leaf_count p = Raise TypeError)
  /\ (forall n, Untyped.leaf_count p = Ok n -> n <= sys_maxsize ->
        exists r b',
          Untyped.handle_decide p budget = Ok (r, b')
          /\ Z.of_nat (List.length (d_actions r)) = n
          /\ (forall i, In i (indices (d_rotation_plan r)) ->
                        exists a, list_get (d_actions r) i = Ok a))
  /\ (Untyped.leaf_count p = Raise TypeError ->
        Untyped.handle_decide p budget = Raise TypeError
        /\ Untyped.decide_step budget p = budget).
Proof.
  split; [apply leaf_count_cases|]. split.
  - intros n E Hn.
    assert (H0 : 0 <= n).
    { destruct (leaf_count_cases p) as [[n' [E' Hn']]|E']; rewrite E' in E;
        [apply Ok_inj in E; lia|discriminate E]. }
    rewrite (handle_decide_sized p budget n E H0).
    destruct (handle_decide_total (typed n p) budget) as [r [b' Er]];
      [rewrite leaf_count_typed by exact H0; exact Hn|].
    exists r, b'. split; [exact Er|].
    destruct (decided_shape _ _ _ _ Er) as [Hl Hi].
    rewrite leaf_count_typed in Hl by exact H0. split; [exact Hl|exact Hi].
  - intros E. split.
    + apply handle_decide_unsized. exact E.
    + apply (decide_step_unsized p budget _ E).
Qed.

(** A request whose features are [null], and one with three features
    given as a string. *)
Definition null_features : Untyped.payload :=
  {| Untyped.params := Some sample_params;
     Untyped.features := Some Untyped.json_null;
     Untyped.seed_model_hash := None |}.

Definition text_features : Untyped.payload :=
  {| Untyped.params := Some sample_params;
     Untyped.features := Some (Untyped.json_string "abc");
     Untyped.seed_model_hash := None |}.

Lemma decide_answers_sized_features_witness :
  (exists r b',
     Untyped.handle_decide (M := reference_math) (R := mersenne_twister)
       text_features ENTROPY_BUDGET = Ok (r, b')
     /\ Z.of_nat (List.length (d_actions r)) = 3)
  /\ Untyped.handle_decide (M := reference_math) (R := mersenne_twister)
       null_features ENTROPY_BUDGET = Raise TypeError
  /\ Untyped.decide_step (M := reference_math) (R := mersenne_twister)
       ENTROPY_BUDGET null_features = ENTROPY_BUDGET.
Proof.
  split.
  - destruct (decide_answers_sized_features (M := reference_math)
                (RL := mersenne_twister_laws) text_features ENTROPY_BUDGET)
      as [_ [H _]].
    destruct (H 3 eq_refl ltac:(vm_compute; discriminate)) as [r [b' [E [Hl _]]]].
    exists r, b'. split; [exact E|exact Hl].
  - destruct (decide_answers_sized_features (M := reference_math)
                (RL := mersenne_twister_laws) null_features ENTROPY_BUDGET)
      as [_ [_ H]].
    exact (H eq_refl).
Defined.


(** The decision label by rotation count and risk. *)
Lemma explanation_decision sr c plan :
  e_decision (_compute_ai_explanation sr c plan) =
    if 0 <? rotation_count plan then
      if fge (risk plan) (literal 4 10) then MUTATE_TREE else INSERT_DECOY
    else HOLD_STATE.
Proof.
  unfold _compute_ai_explanation. cbv zeta.
  destruct (0 <? rotation_count plan); cbn [andb];
    [destruct (fge (risk plan) (literal 4 10))|]; reflexivity.
Qed.

(** X5: for every [sr], [c] and plan the explanation has a confidence
    that is a finite float of [[0, 1]] (a NaN risk included), a list of
    drivers that is never empty and holds no driver twice, in which
    [stable_conditions] stands exactly when it stands alone; and the
    label is [HOLD_STATE] exactly when the plan counts no rotation. *)
Theorem explanation_shape (sr c : float) (plan : rotation_plan) :
  let e := _compute_ai_explanation sr c plan in
  (is_finite (e_confidence e) = true
   /\ fle (Fin 0) (e_confidence e) = true /\ fle (e_confidence e) (literal 1 1) = true)
  /\ e_drivers e <> []
  /\ NoDup (e_drivers e)
  /\ (In stable_conditions (e_drivers e) <-> e_drivers e = [stable_conditions])
  /\ (e_decision e = HOLD_STATE <-> rotation_count plan <= 0).
Proof.
  cbv zeta. split; [|split; [|split; [|split]]].
  - unfold _compute_ai_explanation. cbv zeta.
    destruct ((0 <? rotation_count plan) && fge (risk plan) (literal 4 10));
      [|destruct (0 <? rotation_count plan)]; cbn [e_confidence];
      match goal with |- context [py_max f0 (py_min f1 ?x)] =>
        destruct (clamp01_range x) as [v [Ev Hv]]; unfold clamp01 in Ev; rewrite Ev;
        exact (unit_interval_intro v Hv)
      end.
  - unfold _compute_ai_explanation. cbv zeta.
    destruct ((0 <? rotation_count plan) && fge (risk plan) (literal 4 10));
      [|destruct (0 <? rotation_count plan)]; cbn [e_drivers];
      destruct (flt sr (literal 4 10)), (fgt c (literal 7 10)),
        (fgt (risk plan) (literal 6 10)); discriminate.
  - unfold _compute_ai_explanation. cbv zeta.
    destruct ((0 <? rotation_count plan) && fge (risk plan) (literal 4 10));
      [|destruct (0 <? rotation_count plan)]; cbn [e_drivers];
      destruct (flt sr (literal 4 10)), (fgt c (literal 7 10)),
        (fgt (risk plan) (literal 6 10)); cbn [app];
      repeat (constructor; [cbn [In]; intuition discriminate|]); constructor.
  - unfold _compute_ai_explanation. cbv zeta.
    destruct ((0 <? rotation_count plan) && fge (risk plan) (literal 4 10));
      [|destruct (0 <? rotation_count plan)]; cbn [e_drivers];
      destruct (flt sr (literal 4 10)), (fgt c (literal 7 10)),
        (fgt (risk plan) (literal 6 10)); cbn [app In];
      (split; [intuition discriminate|intros H; first [discriminate H|left; reflexivity]]).
  - rewrite explanation_decision.
    destruct (Z.ltb_spec 0 (rotation_count plan)).
    + destruct (fge _ _); split; (discriminate || lia).
    + split; [lia|reflexivity].
Qed.

(** X6: served from process start, every [decide] that is answered
    reports an [entropy_budget_remaining] between [0.0] and [100.0],
    however many requests came before. *)
Theorem reported_budget_range {M : PyMath} {R : RandomSource} (ps : list payload) :
  Forall (fun res =>
            match res with
            | Ok r => fle (Fin 0) (entropy_budget_remaining r) = true
                      /\ fle (entropy_budget_remaining r) (literal 100 1) = true
            | Raise _ => True
            end)
         (serve ENTROPY_BUDGET ps).
Proof.
  apply (serve_remaining ps ENTROPY_BUDGET).
  - apply ENTROPY_BUDGET_ok.
  - apply fle_refl_ok. apply ENTROPY_BUDGET_ok.
Qed.

(** X7: every answered [decide] costs at least [0.5], so a process is
    LOCKED once it has answered 200 [decide] requests, whatever they
    hold; the requests [len(features)] refuses cost nothing, and a
    process that gets no other stays at [100.0]. *)
Theorem locked_after_200_answers
  {M : PyMath} {R : RandomSource} {RL : RandomSourceLaws R}
  (ps : list Untyped.payload) :
  (forall p n, In p ps -> Untyped.leaf_count p = Ok n -> n <= sys_maxsize) ->
  (200 <= Z.of_nat (List.length (filter (fun p => returns (Untyped.leaf_count p)) ps)) ->
   locked (Untyped.run ps) = true)
  /\ (Forall (fun p => returns (Untyped.leaf_count p) = false) ps ->
      Untyped.run ps = ENTROPY_BUDGET)
  /\ Untyped.run ps
     = Untyped.run (filter (fun p => returns (Untyped.leaf_count p)) ps).
Proof.
  intros Hps. unfold Untyped.run. split; [|split].
  - intros Hlen. rewrite fold_answered.
    apply (lock_after (answered ps) ENTROPY_BUDGET 200).
    + apply ENTROPY_BUDGET_ok.
    + lia.
    + rewrite budget_units. apply fle_Fin. lia.
    + intros q Hq. destruct (answered_in q ps Hq) as [p [n [Hp [E ->]]]].
      assert (H0 : 0 <= n).
      { destruct (leaf_count_cases p) as [[n' [E' Hn']]|E']; rewrite E' in E;
          [apply Ok_inj in E; lia|discriminate E]. }
      rewrite leaf_count_typed by exact H0. exact (Hps p n Hp E).
    + rewrite answered_length. exact Hlen.
  - intros Hall. rewrite fold_answered.
    assert (Ea : answered ps = []).
    { clear Hps. induction Hall as [|p ps Hp Hall IH]; [reflexivity|].
      unfold answered. cbn [flat_map]. fold (answered ps). rewrite IH.
      destruct (Untyped.leaf_count p); [discriminate Hp|reflexivity]. }
    rewrite Ea. reflexivity.
  - rewrite !fold_answered. f_equal. clear Hps.
    induction ps as [|p ps IH]; [reflexivity|].
    unfold answered. cbn [flat_map filter]. fold (answered ps).
    destruct (Untyped.leaf_count p) as [n|e] eqn:E; cbn [returns].
    + cbn [flat_map]. rewrite E.
      fold (answered (filter (fun p => returns (Untyped.leaf_count p)) ps)).
      rewrite <- IH. reflexivity.
    + exact IH.
Qed.

(** A request without params or features. *)
Definition empty_payload : Untyped.payload :=
  {| Untyped.params := None; Untyped.features := None; Untyped.seed_model_hash := None |}.

Lemma locked_after_200_answers_witness :
  locked (Untyped.run (M := reference_math) (R := mersenne_twister)
            (repeat null_features 3 ++ repeat empty_payload 200)) = true
  /\ Untyped.run (M := reference_math) (R := mersenne_twister) (repeat null_features 200)
     = ENTROPY_BUDGET.
Proof.
  split.
  - destruct (locked_after_200_answers (M := reference_math) (RL := mersenne_twister_laws)
                (repeat null_features 3 ++ repeat empty_payload 200)) as [H _].
    + intros p n Hp E. apply in_app_or in Hp.
      destruct Hp as [Hp|Hp]; apply repeat_spec in Hp; subst p.
      * discriminate E.
      * apply Ok_inj in E. subst n. vm_compute. discriminate.
    + apply H. vm_compute. discriminate.
  - destruct (locked_after_200_answers (M := reference_math) (RL := mersenne_twister_laws)
                (repeat null_features 200)) as [_ [H _]].
    + intros p n Hp E. apply repeat_spec in Hp. subst p. discriminate E.
    + apply H. apply Forall_forall. intros p Hp. apply repeat_spec in Hp. subst p.
      reflexivity.
Defined.

(** * Order-preserving float operations *)
Module OrderFacts.

Lemma py_min_fin a b : py_min (Fin a) (Fin b) = Fin (Z.min a b).
Proof.
  unfold py_min. cbn [flt]. destruct (Z.ltb_spec b a); f_equal; lia.
Qed.

Lemma py_max_fin a b : py_max (Fin a) (Fin b) = Fin (Z.max a b).
Proof.
  unfold py_max, fgt. cbn [flt]. destruct (Z.ltb_spec a b); f_equal; lia.
Qed.

Lemma fdiv_fin a b : 0 < b -> fdiv (Fin a) (Fin b) = Ok (rnd (a * scale) b).
Proof.
  intros Hb. destruct b as [|p|p]; try lia.
  cbn [fdiv]. rewrite Z.sgn_pos, Z.mul_1_l, Z.abs_eq by lia. reflexivity.
Qed.

(** A rounding between two finite floats, bounded by the rounding of a
    larger argument. *)
Lemma rnd_below a a' b lo N' :
  0 < b -> repr lo = true -> lo * b <= a -> a <= a' -> rnd a' b = Fin N' ->
  exists N, rnd a b = Fin N /\ lo <= N <= N'.
Proof.
  intros Hb Rlo Hlo Haa E'.
  pose proof (rnd_mono a a' b Hb Haa) as Hm. rewrite E' in Hm.
  pose proof (rnd_ge a b lo Hb Rlo Hlo) as Hg.
  destruct (fle_Fin_r _ _ Hm) as [E|[N [E HN]]]; rewrite E in Hg.
  - discriminate Hg.
  - apply fle_Fin in Hg. exists N. split; [exact E|lia].
Qed.

End OrderFacts.
Import OrderFacts.

(** * The decoy rate on normalised metrics *)
Module NormalisedRate.

Definition q1 : float := fquot f1 gamma_t.
Definition s1 : float := fadd f1 q1.
Definition p1 : float := fmul (literal 1 100) s1.

Lemma lit_gamma : is_lit gamma_t. Proof. lit. Qed.
Lemma lit_q1 : is_lit q1. Proof. lit. Qed.
Lemma lit_s1 : is_lit s1. Proof. lit. Qed.
Lemma lit_p1 : is_lit p1. Proof. lit. Qed.
Lemma gamma_pos : 0 < units gamma_t. Proof. cmp. Qed.
Lemma gamma_above : scale < units gamma_t. Proof. cmp. Qed.
Lemma s1_below : units s1 < units (literal 10 1). Proof. cmp. Qed.
Lemma p1_bounds : units (literal 1 100) <= units p1 <= units (literal 1 10). 
Proof. split; cmp. Qed.
Lemma p1_value : p1 = literal 11000000000000001 (10 ^ 18).
Proof. vm_compute; reflexivity. Qed.
Lemma q1_eq : rnd (scale * scale) (units gamma_t) = Fin (units q1).
Proof. vm_compute; reflexivity. Qed.
Lemma s1_eq : rnd (scale + units q1) 1 = Fin (units s1).
Proof. vm_compute; reflexivity. Qed.
Lemma p1_eq : rnd (units (literal 1 100) * units s1) scale = Fin (units p1).
Proof. vm_compute; reflexivity. Qed.

(** On metrics of [[0, 1]] the rate is the low-confidence one, between
    [0.01] and its value at [SR = C = 1]. *)
Lemma rate_normalised s c :
  0 <= s <= scale -> 0 <= c <= scale ->
  exists r, calculate_decoy_rate (Fin s) (Fin c) = Fin r
            /\ units (literal 1 100) <= r <= units p1.
Proof.
  intros Hs Hc. pose proof scale_pos as Hp.
  destruct lit_gamma as [Eg Rg]. pose proof gamma_pos as Gp. pose proof gamma_above as Ga.
  destruct lit_0_01 as [E01 R01]. destruct lit_0_1 as [E1 R1].
  pose proof bound_0_01 as [B01 _]. pose proof s1_below as S1. pose proof p1_bounds as P1.
  pose proof bound_0_1 as [B1 _].
  unfold calculate_decoy_rate.
  assert (Hz : fge (Fin c) gamma_t = false).
  { unfold fge. rewrite Eg. unfold fle. cbn [flt feq].
    destruct (Z.ltb_spec (units gamma_t) c); [lia|].
    destruct (Z.eqb_spec (units gamma_t) c); [lia|]. reflexivity. }
  rewrite Hz, andb_false_r. cbv zeta.
  unfold fquot. rewrite Eg, fdiv_fin by exact Gp. cbn [try_except].
  destruct (rnd_below (c * scale) (scale * scale) (units gamma_t) 0 (units q1)
              Gp repr_zero ltac:(nia) ltac:(nia) q1_eq) as [q [Eq Hq]].
  rewrite Eq. cbn [fadd].
  destruct (rnd_below (s + q) (scale + units q1) 1 0 (units s1)
              ltac:(lia) repr_zero ltac:(lia) ltac:(lia) s1_eq) as [t [Et Ht]].
  rewrite Et, (proj1 lit_10), py_min_fin, Z.min_r by lia.
  rewrite E01. cbn [fmul].
  remember (units (literal 1 100)) as u eqn:Hu.
  assert (A0 : 0 * scale <= u * t) by nia.
  assert (A1 : u * t <= u * units s1) by nia.
  pose proof p1_eq as Pe. rewrite <- Hu in Pe.
  destruct (rnd_below (u * t) (u * units s1) scale 0 (units p1)
              Hp repr_zero A0 A1 Pe) as [v [Ev Hv]].
  rewrite Ev. unfold _clamp. rewrite E1, py_min_fin, py_max_fin.
  exists (Z.max u (Z.min (units (literal 1 10)) v)). split; [reflexivity|].
  subst u. cbn [units]. lia.
Qed.

End NormalisedRate.
Import NormalisedRate.

(** A metric as the calculators and [sanitize] leave it: a float of
    [[0, 1]]. *)
Definition normalised (x : float) : Prop :=
  fle (Fin 0) x = true /\ fle x (literal 1 1) = true.

Lemma normalised_inv x : normalised x -> exists a, x = Fin a /\ 0 <= a <= scale.
Proof.
  intros [H0 H1]. destruct lit_1 as [E1 _]. pose proof units_1 as U1.
  unfold f1 in E1, U1. rewrite E1, U1 in H1.
  destruct (fle_Fin_l _ _ H0) as [->|[a [-> Ha]]]; [discriminate H1|].
  apply fle_Fin in H1. exists a. split; [reflexivity|lia].
Qed.

Lemma normalised_unit x : unit_interval x -> normalised x.
Proof. intros [_ [H0 H1]]. split; assumption. Qed.

Module RateFacts.

Definition n90 : float := literal 90 1.
Definition top90 : float := fmul n90 p1.
Lemma n90_eq : rnd (90 * scale) 1 = Fin (units n90). Proof. vm_compute; reflexivity. Qed.
Lemma top90_eq : rnd (units n90 * units p1) scale = Fin (units top90).
Proof. vm_compute; reflexivity. Qed.
Lemma top90_below : units top90 < scale. Proof. cmp. Qed.

(** Up to 90 leaves, a rate of at most [p1] gives no decoy. *)
Lemma no_decoy_upto_90 n r :
  0 <= n <= 90 -> 0 <= r <= units p1 -> scaled_count n (Fin r) = Ok 0.
Proof.
  intros Hn Hr. pose proof scale_pos as Hp. pose proof top90_below as T.
  unfold scaled_count, of_int.
  destruct (rnd_below (n * scale) (90 * scale) 1 0 (units n90)
              ltac:(lia) repr_zero ltac:(nia) ltac:(nia) n90_eq) as [F [EF HF]].
  rewrite EF. cbn [bind fmul].
  remember (units p1) as u eqn:Hu. remember (units n90) as w eqn:Hw.
  assert (A0 : 0 * scale <= F * r) by nia.
  assert (A1 : F * r <= w * u) by nia.
  pose proof top90_eq as Te. rewrite <- Hu, <- Hw in Te.
  destruct (rnd_below (F * r) (w * u) scale 0 (units top90) Hp repr_zero A0 A1 Te)
    as [P [EP HP]].
  rewrite EP. cbn [to_int]. f_equal. apply Z.quot_small. lia.
Qed.

End RateFacts.
Import RateFacts.

(** X8: on normalised metrics (the only ones the calculators and
    [sanitize] produce) the high-confidence zone is never entered: the
    decoy rate lies between [0.01] and [0.011000000000000001], its
    value at [SR = C = 1], and up to 90 leaves no leaf is made a DECOY. *)
Theorem normalised_decoy_rate (sr c : float) :
  normalised sr -> normalised c ->
  (fge sr sr_min && fge c gamma_t) = false
  /\ fle (literal 1 100) (calculate_decoy_rate sr c) = true
  /\ fle (calculate_decoy_rate sr c) (literal 11000000000000001 (10 ^ 18)) = true
  /\ (forall n, 0 <= n <= 90 -> scaled_count n (calculate_decoy_rate sr c) = Ok 0).
Proof.
  intros Hs Hc.
  destruct (normalised_inv _ Hs) as [s [-> Hs']].
  destruct (normalised_inv _ Hc) as [cc [-> Hc']].
  destruct (rate_normalised s cc Hs' Hc') as [r [Er Hr]].
  pose proof bound_0_01 as [B01 _].
  split.
  - destruct lit_gamma as [Eg _]. pose proof gamma_above as Ga.
    unfold fge at 2. rewrite Eg. unfold fle. cbn [flt feq].
    destruct (Z.ltb_spec (units gamma_t) cc); [lia|].
    destruct (Z.eqb_spec (units gamma_t) cc); [lia|]. apply andb_false_r.
  - rewrite Er. split; [|split].
    + destruct lit_0_01 as [-> _]. apply fle_Fin. lia.
    + rewrite <- p1_value. destruct lit_p1 as [-> _]. apply fle_Fin. lia.
    + intros n Hn. apply no_decoy_upto_90; lia.
Qed.

Lemma normalised_decoy_rate_witness :
  fle (literal 1 100) (calculate_decoy_rate (literal 78 100) (literal 1 1)) = true
  /\ fle (calculate_decoy_rate (literal 78 100) (literal 1 1))
         (literal 11000000000000001 (10 ^ 18)) = true
  /\ scaled_count 64 (calculate_decoy_rate (literal 78 100) (literal 1 1)) = Ok 0.
Proof.
  destruct (normalised_decoy_rate (literal 78 100) (literal 1 1)) as [_ [H1 [H2 H3]]].
  - split; vm_compute; reflexivity.
  - split; vm_compute; reflexivity.
  - split; [exact H1|]. split; [exact H2|]. apply H3. lia.
Defined.

(** X9: while the budget is ACTIVE the daemon does not shuffle: the
    action list is the DECOY block, then MUTATE, then REASSIGN, then
    VALID, so which leaves are decoys is fixed by their position. *)
Theorem active_actions_unshuffled {M : PyMath} {R : RandomSource}
  (p : payload) (budget : float) (r : decision_record) (b' : float) :
  handle_decide p budget = Ok (r, b') -> locked budget = false ->
  exists nd nm nr,
    d_actions r = py_repeat DECOY nd ++ py_repeat MUTATE nm
                  ++ py_repeat REASSIGN nr ++ py_repeat VALID (leaf_count p - nd - nm - nr)
    /\ 0 <= nd /\ 0 <= nm /\ 0 <= nr /\ nd + nm + nr <= leaf_count p
    /\ scaled_count (leaf_count p) (calculate_decoy_rate (d_sr r) (d_c r)) = Ok nd.
Proof.
  intros E HL.
  destruct (handle_decide_inv _ _ _ _ E) as [Ha _]. cbv zeta in Ha.
  destruct (decided_risk _ _ _ _ E) as [_ [Hs Hc]].
  unfold seed_val in Ha. rewrite HL in Ha.
  destruct (generate_actions_none _ _ _ _ (leaf_count_nonneg p) Ha)
    as [nd [nm [nr [E1 [_ [_ [H1 [H2 [H3 [H4 Hb]]]]]]]]]].
  exists nd, nm, nr. split; [exact Hb|].
  repeat (split; [assumption|]).
  rewrite Hs, Hc. exact E1.
Qed.

(** One hundred leaves at process start: the one DECOY leads, the five
    REASSIGN follow, the 94 VALID close the list. *)
Lemma active_actions_unshuffled_witness :
  exists r b' nd nm nr,
    handle_decide (M := reference_math) (R := mersenne_twister)
      (request (repeat [] 100) None) ENTROPY_BUDGET = Ok (r, b')
    /\ d_actions r = py_repeat DECOY nd ++ py_repeat MUTATE nm
                     ++ py_repeat REASSIGN nr ++ py_repeat VALID (100 - nd - nm - nr)
    /\ nd = 1 /\ nm = 0 /\ nr = 5
    /\ d_actions r = py_repeat DECOY 1 ++ py_repeat REASSIGN 5 ++ py_repeat VALID 94.
Proof.
  set (p := request (repeat [] 100) None).
  assert (Ca : generate_actions (R := mersenne_twister) (leaf_count p)
                 (fst (request_metrics (M := reference_math) p))
                 (snd (request_metrics (M := reference_math) p)) None
               = Ok (py_repeat DECOY 1 ++ py_repeat REASSIGN 5 ++ py_repeat VALID 94))
    by (vm_compute; reflexivity).
  assert (HL : locked ENTROPY_BUDGET = false) by (vm_compute; reflexivity).
  destruct (handle_decide_total (M := reference_math) (RL := mersenne_twister_laws)
              p ENTROPY_BUDGET ltac:(vm_compute; discriminate)) as [r [b' E]].
  destruct (active_actions_unshuffled _ _ _ _ E HL)
    as [nd [nm [nr [Hb [H1 [H2 [H3 [H4 _]]]]]]]].
  assert (En : leaf_count p = 100) by (vm_compute; reflexivity).
  rewrite En in Hb, H4.
  destruct (handle_decide_inv _ _ _ _ E) as [Ha _]. cbv zeta in Ha.
  unfold seed_val in Ha. rewrite HL in Ha.
  assert (Hacts : d_actions r
                  = py_repeat DECOY 1 ++ py_repeat REASSIGN 5 ++ py_repeat VALID 94).
  { apply Ok_inj. rewrite <- Ha. exact Ca. }
  destruct (blocks_count nd nm nr (100 - nd - nm - nr) H1 H2 H3 ltac:(lia))
    as [Cd [Cm [Cr _]]].
  unfold blocks in Cd, Cm, Cr. rewrite <- Hb, Hacts in Cd, Cm, Cr.
  exists r, b', nd, nm, nr. split; [exact E|]. split; [exact Hb|].
  split; [rewrite <- Cd; reflexivity|]. split; [rewrite <- Cm; reflexivity|].
  split; [rewrite <- Cr; reflexivity|exact Hacts].
Defined.

(** * The planner is monotone *)
Module PlannerOrder.

Lemma fadd_mono_fin a b a' b' N N' :
  fadd (Fin a) (Fin b) = Fin N -> fadd (Fin a') (Fin b') = Fin N' ->
  a + b <= a' + b' -> N <= N'.
Proof.
  cbn [fadd]. intros E E' H.
  pose proof (rnd_mono (a + b) (a' + b') 1 ltac:(lia) H) as Hm.
  rewrite E, E' in Hm. apply fle_Fin in Hm. exact Hm.
Qed.

Lemma fmul_mono_fin a b a' b' N N' :
  fmul (Fin a) (Fin b) = Fin N -> fmul (Fin a') (Fin b') = Fin N' ->
  a * b <= a' * b' -> N <= N'.
Proof.
  cbn [fmul]. intros E E' H.
  pose proof (rnd_mono (a * b) (a' * b') scale scale_pos H) as Hm.
  rewrite E, E' in Hm. apply fle_Fin in Hm. exact Hm.
Qed.

(** Lower [SR] or higher [C]: no lower risk. *)
Lemma risk_mono s c s' c' :
  0 <= s <= scale -> 0 <= c <= scale -> 0 <= s' <= scale -> 0 <= c' <= scale ->
  s' <= s -> c <= c' ->
  exists r r', risk_of (Fin s) (Fin c) = Fin r /\ risk_of (Fin s') (Fin c') = Fin r'
               /\ 0 <= r /\ r <= r' /\ r' <= scale.
Proof.
  intros Hs Hc Hs' Hc' Hss Hcc.
  destruct (risk_parts s c Hs Hc)
    as [x [t1 [t2 [r [Fx [Hx [_ [F1 [H1 [F2 [H2 [Fr [Hr _]]]]]]]]]]]]].
  destruct (risk_parts s' c' Hs' Hc')
    as [x' [t1' [t2' [r' [Fx' [Hx' [_ [F1' [H1' [F2' [H2' [Fr' [Hr' _]]]]]]]]]]]]].
  exists r, r'. split; [exact Fr|]. split; [exact Fr'|].
  destruct lit_1 as [E1 _]. pose proof units_1 as U1.
  destruct lit_0_6 as [E6 _]. destruct lit_0_4 as [E4 _].
  pose proof bound_0_6 as B6. pose proof bound_0_4 as B4.
  unfold fsub in Fx, Fx'. rewrite E1, U1 in Fx, Fx'. cbn [fneg] in Fx, Fx'.
  pose proof (fadd_mono_fin _ _ _ _ _ _ Fx Fx' ltac:(lia)) as Hxx.
  rewrite E6 in F1, F1'. rewrite E4 in F2, F2'.
  assert (Ht1 : t1 <= t1') by (apply (fmul_mono_fin _ _ _ _ _ _ F1 F1'); nia).
  assert (Ht2 : t2 <= t2') by (apply (fmul_mono_fin _ _ _ _ _ _ F2 F2'); nia).
  unfold risk_of in Fr, Fr'. unfold fsub in Fr, Fr'.
  rewrite E1, U1 in Fr, Fr'. cbn [fneg] in Fr, Fr'.
  rewrite Fx, E6, E4, F1, F2 in Fr. rewrite Fx', E6, E4, F1', F2' in Fr'.
  pose proof (fadd_mono_fin _ _ _ _ _ _ Fr Fr' ltac:(lia)). lia.
Qed.

(** A higher risk: no lower rotation percentage. *)
Lemma pct_mono r r' :
  repr r = true -> repr r' = true -> r <= r' ->
  exists p p', pct_of (Fin r) = Fin p /\ pct_of (Fin r') = Fin p' /\ p <= p'
               /\ 0 <= p /\ 4 * p' <= scale.
Proof.
  intros Rr Rr' Hrr.
  destruct (pct_range (Fin r) Rr) as [p [Ep [_ Hp]]].
  destruct (pct_range (Fin r') Rr') as [p' [Ep' [_ Hp']]].
  pose proof bound_0_03 as B3. pose proof bound_0_20 as B20.
  exists p, p'. split; [exact Ep|]. split; [exact Ep'|].
  split; [|lia].
  unfold pct_of in Ep, Ep'.
  destruct lit_1 as [E1 _]. pose proof units_1 as U1.
  destruct lit_0_17 as [E17 _]. destruct lit_0_03 as [E03 _]. pose proof bound_0_17 as B17.
  unfold f0 in Ep, Ep'. rewrite E1, U1, py_max_fin, py_min_fin, E17 in Ep, Ep'.
  remember (units (fsub (literal 20 100) (literal 3 100))) as u17 eqn:Hu17.
  clear E17. rewrite E03 in Ep, Ep'.
  destruct (fmul _ (Fin (Z.min scale (Z.max 0 r)))) as [| |m] eqn:Em;
    [discriminate Ep|discriminate Ep|].
  destruct (fmul _ (Fin (Z.min scale (Z.max 0 r')))) as [| |m'] eqn:Em';
    [discriminate Ep'|discriminate Ep'|].
  assert (Hm : m <= m')
    by (apply (fmul_mono_fin _ _ _ _ _ _ Em Em'); apply Z.mul_le_mono_nonneg_l; lia).
  apply (fadd_mono_fin _ _ _ _ _ _ Ep Ep'). lia.
Qed.

(** A higher percentage: no lower count. *)
Lemma count_mono n p p' k k' :
  0 <= n -> p <= p' ->
  count_of n (Fin p) = Ok k -> count_of n (Fin p') = Ok k' -> k <= k'.
Proof.
  intros Hn Hpp. unfold count_of.
  destruct (of_int n) as [x|] eqn:Ex; [|discriminate].
  destruct (of_int_facts n x Hn Ex) as [F [-> [_ [HF _]]]].
  cbn [bind].
  destruct (fmul (Fin F) (Fin p)) as [| |P] eqn:EP; [discriminate|discriminate|].
  destruct (fmul (Fin F) (Fin p')) as [| |P'] eqn:EP'; [discriminate|discriminate|].
  cbn [ceil bind]. intros Hk Hk'. apply Ok_inj in Hk, Hk'. subst k k'.
  assert (HP : P <= P') by (apply (fmul_mono_fin _ _ _ _ _ _ EP EP'); nia).
  pose proof scale_pos as Hs.
  assert (- P' / scale <= - P / scale) by (apply Z.div_le_mono; lia).
  lia.
Qed.

End PlannerOrder.
Import PlannerOrder.

(** X10: the planner does what its docstring says of normalised
    metrics, "lower SR or higher C => higher rotation": with [sr' <= sr]
    and [c <= c'] the second plan has no lower risk, no lower rotation
    percentage and no lower rotation count, whatever the seeds. *)
Theorem rotation_monotone {R : RandomSource}
  (n : Z) (sr c sr' c' : float) (seed seed' : option Z) (pl pl' : rotation_plan) :
  0 <= n ->
  normalised sr -> normalised c -> normalised sr' -> normalised c' ->
  fle sr' sr = true -> fle c c' = true ->
  plan_rotations n sr c seed = Ok pl ->
  plan_rotations n sr' c' seed' = Ok pl' ->
  fle (risk pl) (risk pl') = true
  /\ fle (rotation_percentage pl) (rotation_percentage pl') = true
  /\ rotation_count pl <= rotation_count pl'.
Proof.
  intros Hn Ns Nc Ns' Nc' Hss Hcc E E'.
  destruct (normalised_inv _ Ns) as [s [-> Hs]].
  destruct (normalised_inv _ Nc) as [cc [-> Hc]].
  destruct (normalised_inv _ Ns') as [s' [-> Hs']].
  destruct (normalised_inv _ Nc') as [cc' [-> Hc']].
  apply fle_Fin in Hss, Hcc.
  destruct (risk_mono s cc s' cc' Hs Hc Hs' Hc' Hss Hcc)
    as [r [r' [Er [Er' [H0 [Hrr H1]]]]]].
  pose proof (risk_valid (Fin s) (Fin cc)) as Vr. rewrite Er in Vr. cbn [valid] in Vr.
  pose proof (risk_valid (Fin s') (Fin cc')) as Vr'. rewrite Er' in Vr'. cbn [valid] in Vr'.
  destruct (pct_mono r r' Vr Vr' Hrr) as [q [q' [Eq [Eq' [Hqq _]]]]].
  destruct (plan_rotations_inv _ _ _ _ _ E) as [x Hx].
  destruct (plan_rotations_spec n x (Fin s) (Fin cc) seed Hn Hx) as [k [Ek [_ [_ Ep]]]].
  destruct (plan_rotations_spec n x (Fin s') (Fin cc') seed' Hn Hx) as [k' [Ek' [_ [_ Ep']]]].
  rewrite Ep in E. rewrite Ep' in E'. apply Ok_inj in E, E'. subst pl pl'.
  cbn [risk rotation_percentage rotation_count].
  rewrite Er, Er', Eq, Eq' in *.
  split; [apply fle_Fin; exact Hrr|]. split; [apply fle_Fin; exact Hqq|].
  exact (count_mono n q q' k k' Hn Hqq Ek Ek').
Qed.

Lemma rotation_monotone_witness :
  exists pl pl',
    plan_rotations (R := mersenne_twister) 128 (literal 9 10) (literal 1 10) (Some 42) = Ok pl
    /\ plan_rotations (R := mersenne_twister) 128 (literal 2 10) (literal 8 10) None = Ok pl'
    /\ fle (rotation_percentage pl) (rotation_percentage pl') = true
    /\ rotation_count pl <= rotation_count pl'.
Proof.
  destruct (of_int_total 128 ltac:(lia) ltac:(apply maxsize_float; vm_compute; discriminate))
    as [F HF].
  destruct (plan_rotations_spec (R := mersenne_twister) 128 _ (literal 9 10) (literal 1 10)
              (Some 42) ltac:(lia) HF) as [k [_ [_ [_ E]]]].
  destruct (plan_rotations_spec (R := mersenne_twister) 128 _ (literal 2 10) (literal 8 10)
              None ltac:(lia) HF) as [k' [_ [_ [_ E']]]].
  eexists. eexists. split; [exact E|]. split; [exact E'|].
  refine (proj2 (rotation_monotone (R := mersenne_twister) 128 (literal 9 10) (literal 1 10)
            (literal 2 10) (literal 8 10) (Some 42) None _ _ ltac:(lia) _ _ _ _ _ _ E E')).
  - split; vm_compute; reflexivity.
  - split; vm_compute; reflexivity.
  - split; vm_compute; reflexivity.
  - split; vm_compute; reflexivity.
  - vm_compute; reflexivity.
  - vm_compute; reflexivity.
Defined.

(** * The blend only writes DECOY *)
Module BlendFacts.

Lemma py_count_cons x a l :
  py_count x (a :: l) = (if action_eqb a x then 1 else 0) + py_count x l.
Proof.
  unfold py_count. cbn [filter]. destruct (action_eqb a x); cbn [List.length]; lia.
Qed.

Lemma py_count_list_set l i :
  py_count DECOY l <= py_count DECOY (list_set l i DECOY) <= py_count DECOY l + 1.
Proof.
  revert i. induction l as [|a l IH]; intros i; [cbn; lia|].
  destruct i as [|i]; cbn [list_set]; rewrite !py_count_cons.
  - cbn [action_eqb]. destruct (action_eqb a DECOY); lia.
  - specialize (IH i). lia.
Qed.

Lemma blend_decoys pol idxs :
  (forall i, In i idxs -> list_get pol i = Ok DECOY) ->
  forall blended,
    exists out,
      blend blended pol idxs = Ok out
      /\ List.length out = List.length blended
      /\ (forall i, list_get out i = list_get blended i \/ list_get out i = Ok DECOY)
      /\ py_count DECOY blended <= py_count DECOY out
         <= py_count DECOY blended + Z.of_nat (List.length idxs).
Proof.
  induction idxs as [|idx idxs IH]; intros Hin blended.
  - exists blended. cbn [blend List.length]. split; [reflexivity|]. split; [reflexivity|].
    split; [left; reflexivity|lia].
  - cbn [blend].
    assert (Hin' : forall i, In i idxs -> list_get pol i = Ok DECOY)
      by (intros i Hi; apply Hin; right; exact Hi).
    destruct (Z.ltb_spec idx (Z.of_nat (List.length blended))) as [Hlt|Hge].
    + pose proof (Hin idx (or_introl eq_refl)) as Hd. rewrite Hd. cbn [bind].
      pose proof (list_get_ok _ _ _ Hd) as Hr.
      destruct (IH Hin' (list_set blended (Z.to_nat idx) DECOY)) as [out [Eo [Hl [Hg Hc]]]].
      exists out. split; [exact Eo|].
      split; [rewrite Hl; apply list_set_length|].
      split.
      * intros i. destruct (Hg i) as [H|H]; [|right; exact H].
        rewrite list_get_list_set in H by lia.
        destruct (Z.eqb_spec idx i); [right|left]; exact H.
      * pose proof (py_count_list_set blended (Z.to_nat idx)).
        cbn [List.length]. lia.
    + destruct (IH Hin' blended) as [out [Eo [Hl [Hg Hc]]]].
      exists out. split; [exact Eo|]. split; [exact Hl|]. split; [exact Hg|].
      cbn [List.length]. lia.
Qed.

Section WithRandom.
Context {R : RandomSource}.

(** What [_apply_policy_constraints] does in its second branch. *)
Lemma apply_policy_inv actions sr c out :
  _apply_policy_constraints actions sr c = Ok out ->
  out = actions
  \/ exists pol k, generate_actions (Z.of_nat (List.length actions)) sr c (Some 42) = Ok pol
                   /\ blend actions pol (firstn k (positions DECOY pol)) = Ok out.
Proof.
  unfold _apply_policy_constraints. cbv zeta.
  destruct (Z.of_nat (List.length actions) =? 0);
    [intros H; apply Ok_inj in H; left; symmetry; exact H|].
  destruct (rate_deviation _ _ _) as [dev|]; [|discriminate]. cbn [bind].
  destruct (fgt dev (literal 2 10));
    [|intros H; apply Ok_inj in H; left; symmetry; exact H].
  destruct (generate_actions _ _ _ _) as [pol|]; [|discriminate]. cbn [bind].
  destruct (of_int _) as [nf|]; [|discriminate]. cbn [bind].
  destruct (to_int _) as [k|]; [|discriminate]. cbn [bind].
  intros H. right. exists pol. eexists. split; [reflexivity|exact H].
Qed.

Context {RL : RandomSourceLaws R}.

(** The reconciler returns for every assignment Python can hold. *)
Lemma apply_policy_total actions sr c :
  Z.of_nat (List.length actions) <= sys_maxsize ->
  exists out, _apply_policy_constraints actions sr c = Ok out.
Proof.
  intros Hmax. unfold _apply_policy_constraints. cbv zeta.
  set (n := Z.of_nat (List.length actions)) in *.
  destruct (Z.eqb_spec n 0); [eauto|].
  assert (Hn : 1 <= n) by (unfold n in *; lia).
  destruct (decoy_rate_range sr c) as [e [Ee [Re He]]].
  pose proof bound_0_01 as [B1 _].
  destruct (deviation_total (py_count DECOY actions) n e Hn
              (py_count_bounds DECOY actions) ltac:(lia)) as [dev Hdev].
  rewrite Ee, Hdev. cbn [bind].
  destruct (fgt dev (literal 2 10)); [|eauto].
  destruct (generate_actions_total n sr c (Some 42) ltac:(lia)
              (maxsize_float n Hmax) seed_42_ok) as [pol Hpol].
  destruct (generate_actions_spec n sr c (Some 42) pol ltac:(lia) Hpol)
    as [nd [nm [nr [E1 [_ [_ [H1 [H2 [H3 [H4 [HP _]]]]]]]]]]].
  destruct (generate_actions_inv _ _ _ _ _ Hpol) as [_ [x Hx]].
  destruct (of_int_facts n x ltac:(lia) Hx) as [F [-> [RF [HF0 _]]]].
  unfold num_decoy in E1. rewrite Ee in E1.
  destruct (blend_count_bound n F e nd ltac:(lia) Hx HF0 ltac:(lia) E1)
    as [k [Hk [_ [Hk0 Hknd]]]].
  rewrite Hpol. cbn [bind]. rewrite Hx. cbn [bind]. rewrite Hk. cbn [bind].
  destruct (blend_decoys pol
              (firstn (Z.to_nat (Z.min k (Z.of_nat (List.length (positions DECOY pol)))))
                      (positions DECOY pol))
              ltac:(intros i Hi; apply positions_decoy; eapply firstn_in; exact Hi)
              actions) as [out [Eo _]].
  eauto.
Qed.

End WithRandom.
End BlendFacts.
Import BlendFacts.

(** X11: the reconciler never removes a DECOY and never writes anything
    but DECOY: whatever it returns has the length of the predictor's
    assignment, each position holds the predictor's action or DECOY, and
    the number of DECOY has not gone down, even when the predictor
    assigned far more DECOY than the policy expects. *)
Theorem reconciler_only_adds_decoys {R : RandomSource}
  (actions : list action) (sr c : float) (out : list action) :
  _apply_policy_constraints actions sr c = Ok out ->
  List.length out = List.length actions
  /\ (forall i, list_get out i = list_get actions i \/ list_get out i = Ok DECOY)
  /\ py_count DECOY actions <= py_count DECOY out.
Proof.
  intros H. destruct (apply_policy_inv _ _ _ _ H) as [->|[pol [k [_ Hb]]]].
  - split; [reflexivity|]. split; [left; reflexivity|lia].
  - destruct (blend_decoys pol (firstn k (positions DECOY pol))
                ltac:(intros i Hi; apply positions_decoy; eapply firstn_in; exact Hi)
                actions) as [out' [Eo [Hl [Hg Hc]]]].
    rewrite Hb in Eo. apply Ok_inj in Eo. subst out'.
    split; [exact Hl|]. split; [exact Hg|lia].
Qed.

(** An assignment of 100 leaves, 90 of them DECOY. *)
Definition crowded_prediction : list action := py_repeat VALID 10 ++ py_repeat DECOY 90.

Lemma reconciler_only_adds_decoys_witness :
  exists out,
    _apply_policy_constraints (R := mersenne_twister) crowded_prediction
      (literal 45 10) (literal 5 1) = Ok out
    /\ List.length out = 100%nat
    /\ 90 <= py_count DECOY out.
Proof.
  destruct (apply_policy_total (R := mersenne_twister) (RL := mersenne_twister_laws)
              crowded_prediction (literal 45 10) (literal 5 1)
              ltac:(vm_compute; discriminate)) as [out E].
  exists out. split; [exact E|].
  destruct (reconciler_only_adds_decoys _ _ _ _ E) as [Hl [_ Hc]].
  split; [exact Hl|exact Hc].
Defined.

(** X12: the simplified fallback formula, called under the guard
    [m > 0], always gives a finite float that is not negative: a NaN,
    an infinity, a negative value and any exception all become [1.0]. *)
Theorem simplified_formula_range (b m t : Z) :
  0 < m ->
  is_finite (_calculate_simplified_formula b m t) = true
  /\ fle (Fin 0) (_calculate_simplified_formula b m t) = true.
Proof.
  intros _. unfold _calculate_simplified_formula.
  assert (H1 : is_finite f1 = true /\ fle (Fin 0) f1 = true)
    by (split; vm_compute; reflexivity).
  destruct (simplified_body b m t) as [v|] eqn:E; cbn [try_except]; [|exact H1].
  unfold simplified_body in E. cbv zeta in E.
  destruct (b ^ m <=? 0); [apply Ok_inj in E; subst v; exact H1|].
  destruct (int_truediv t (b ^ m)) as [q|]; [|discriminate E]. cbn [bind] in E.
  destruct (of_int b) as [bf|]; [|discriminate E]. cbn [bind] in E.
  destruct (of_int m) as [mf|]; [|discriminate E]. cbn [bind] in E.
  destruct (fdiv _ _) as [s|]; [|discriminate E]. cbn [bind] in E.
  destruct s as [|sg|a]; cbn [is_inf is_nan orb] in E;
    try (apply Ok_inj in E; subst v; exact H1).
  unfold f0 in E. cbn [flt] in E.
  destruct (Z.ltb_spec a 0); apply Ok_inj in E; subst v; [exact H1|].
  split; [reflexivity|apply fle_Fin; lia].
Qed.

Lemma simplified_formula_range_witness :
  is_finite (_calculate_simplified_formula 4 3 128) = true
  /\ fle (Fin 0) (_calculate_simplified_formula 4 3 128) = true.
Proof. apply simplified_formula_range. lia. Defined.

Module PredictorFacts.

Lemma mapM_length {A B} (f : A -> result B) l bs :
  mapM f l = Ok bs -> List.length bs = List.length l.
Proof.
  revert bs. induction l as [|a l IH]; intros bs; cbn [mapM].
  - intros H. apply Ok_inj in H. subst bs. reflexivity.
  - destruct (f a) as [b|]; [|discriminate]. cbn [bind].
    destruct (mapM f l) as [bs'|]; [|discriminate]. cbn [bind].
    intros H. apply Ok_inj in H. subst bs. cbn [List.length]. f_equal. apply IH. reflexivity.
Qed.

(** A label outside [0..3] stops the conversion with a [KeyError]. *)
Lemma mapM_action_map_bad preds :
  (exists l, In l preds /\ ~ (0 <= l <= 3)) -> exists e, mapM action_map preds = Raise e.
Proof.
  induction preds as [|a preds IH]; intros [l [Hl Hb]]; [destruct Hl|].
  cbn [mapM]. destruct (action_map a) as [x|e] eqn:Ea; [|cbn [bind]; eauto].
  cbn [bind]. destruct Hl as [->|Hl].
  - exfalso. apply Hb. unfold action_map in Ea.
    destruct l as [|[[|[]|]|[]|]|]; try discriminate Ea; lia.
  - destruct (IH (ex_intro _ l (conj Hl Hb))) as [e ->]. cbn [bind]. eauto.
Qed.

End PredictorFacts.
Import PredictorFacts.

(** X13: [predict_actions] always returns an assignment: the empty one
    for no feature; the fixed-seed policy assignment when the model
    raises or gives a label outside [0..3]; and otherwise an assignment
    as long as the model's label list. *)
Theorem predict_actions_answers {R : RandomSource} {RL : RandomSourceLaws R}
  (model : list feature -> float -> float -> result (list Z))
  (features : list feature) (sr c : float) :
  Z.of_nat (List.length features) <= sys_maxsize ->
  (forall preds, model features sr c = Ok preds ->
                 Z.of_nat (List.length preds) <= sys_maxsize) ->
  (exists acts, predict_actions model features sr c = Ok acts)
  /\ (features = [] -> predict_actions model features sr c = Ok [])
  /\ (features <> [] ->
      (forall e, model features sr c = Raise e ->
         predict_actions model features sr c
         = generate_actions (Z.of_nat (List.length features)) sr c (Some 42))
      /\ (forall preds, model features sr c = Ok preds ->
            (exists l, In l preds /\ ~ (0 <= l <= 3)) ->
            predict_actions model features sr c
            = generate_actions (Z.of_nat (List.length features)) sr c (Some 42))
      /\ (forall preds acts, model features sr c = Ok preds ->
            Forall (fun l => 0 <= l <= 3) preds ->
            predict_actions model features sr c = Ok acts ->
            List.length acts = List.length preds)).
Proof.
  intros Hn Hm.
  assert (Hfb : exists acts, _fallback_policy features sr c = Ok acts).
  { unfold _fallback_policy.
    apply generate_actions_total; [lia|apply maxsize_float; exact Hn|apply seed_42_ok]. }
  split; [|split].
  - unfold predict_actions. cbv zeta.
    destruct (Z.of_nat (List.length features) =? 0); [eauto|].
    destruct (model features sr c) as [preds|] eqn:Em; cbn [bind]; [|exact Hfb].
    destruct (mapM action_map preds) as [acts|] eqn:Ea; cbn [bind]; [|exact Hfb].
    destruct (apply_policy_total acts sr c) as [out ->]; [|eauto].
    rewrite (mapM_length _ _ _ Ea). apply Hm. reflexivity.
  - intros ->. reflexivity.
  - intros Hne.
    assert (Hz : (Z.of_nat (List.length features) =? 0) = false).
    { destruct features; [contradiction|]. cbn [List.length]. apply Z.eqb_neq. lia. }
    split; [|split].
    + intros e Em. unfold predict_actions. cbv zeta. rewrite Hz, Em. reflexivity.
    + intros preds Em Hbad. unfold predict_actions. cbv zeta. rewrite Hz, Em. cbn [bind].
      destruct (mapM_action_map_bad preds Hbad) as [e ->]. reflexivity.
    + intros preds acts Em Hok. unfold predict_actions. cbv zeta. rewrite Hz, Em. cbn [bind].
      destruct (mapM action_map preds) as [as0|e] eqn:Ea; cbn [bind].
      * destruct (_apply_policy_constraints as0 sr c) as [out|e] eqn:Eo.
        -- intros H. apply Ok_inj in H. subst out.
           destruct (apply_policy_inv _ _ _ _ Eo) as [->|[pol [k [_ Hb]]]].
           ++ apply (mapM_length _ _ _ Ea).
           ++ destruct (blend_decoys pol (firstn k (positions DECOY pol))
                          ltac:(intros i Hi; apply positions_decoy; eapply firstn_in; exact Hi)
                          as0) as [out' [Eo' [Hl _]]].
              rewrite Hb in Eo'. apply Ok_inj in Eo'. subst out'.
              rewrite Hl. apply (mapM_length _ _ _ Ea).
        -- exfalso.
           destruct (apply_policy_total as0 sr c) as [out Eo'];
             [rewrite (mapM_length _ _ _ Ea); apply Hm; exact Em|congruence].
      * exfalso. clear -Hok Ea.
        revert e Ea. induction Hok as [|l preds Hl Hok IH]; intros e; cbn [mapM];
          [discriminate|].
        assert (El : exists a, action_map l = Ok a).
        { assert (Hc : l = 0 \/ l = 1 \/ l = 2 \/ l = 3) by lia.
          destruct Hc as [ -> | [ -> | [ -> | -> ] ] ]; cbn [action_map]; eauto. }
        destruct El as [a ->]. cbn [bind].
        destruct (mapM action_map preds) as [bs|e'] eqn:Eb; cbn [bind]; [discriminate|].
        intros _. apply (IH e'). reflexivity.
Qed.

(** A model that fails, and one that answers with an unknown label. *)
Lemma predict_actions_answers_witness :
  (exists acts,
     predict_actions (R := mersenne_twister) (fun _ _ _ => Raise ValueError)
       [[]; []] (literal 5 10) (literal 5 10) = Ok acts)
  /\ predict_actions (R := mersenne_twister) (fun _ _ _ => Ok [0; 7])
       [[]; []] (literal 5 10) (literal 5 10)
     = generate_actions (R := mersenne_twister) 2 (literal 5 10) (literal 5 10) (Some 42).
Proof.
  split.
  - apply (predict_actions_answers (RL := mersenne_twister_laws)).
    + vm_compute. discriminate.
    + intros preds H. discriminate H.
  - destruct (predict_actions_answers (RL := mersenne_twister_laws)
                (fun _ _ _ => Ok [0; 7]) [[]; []] (literal 5 10) (literal 5 10))
      as [_ [_ H]].
    + vm_compute. discriminate.
    + intros preds H. apply Ok_inj in H. subst preds. vm_compute. discriminate.
    + destruct (H ltac:(discriminate)) as [_ [H2 _]].
      apply (H2 [0; 7] eq_refl). exists 7. split; [right; left; reflexivity|lia].
Defined.

Module ConfidenceFacts.

Lemma lit_0_7 : is_lit (literal 7 10). Proof. lit. Qed.
Lemma lit_0_3 : is_lit (literal 3 10). Proof. lit. Qed.
Lemma bound_0_3 : 0 < units (literal 3 10). Proof. cmp. Qed.
Lemma bound_0_7 : units (literal 6 10) <= units (literal 7 10). Proof. cmp. Qed.
Lemma top_0_7 : rnd (units (literal 7 10) + units (literal 3 10)) 1 = Fin scale.
Proof. vm_compute; reflexivity. Qed.
Lemma top_0_6 : rnd (units (literal 6 10) + units (literal 2 10)) 1
                = Fin (units (literal 8 10)).
Proof. vm_compute; reflexivity. Qed.
Lemma bound_0_8 : units (literal 8 10) <= scale. Proof. cmp. Qed.
Lemma prod_0_3 : rnd (scale * units (literal 3 10)) scale = Fin (units (literal 3 10)).
Proof. vm_compute; reflexivity. Qed.
Lemma prod_0_2 : rnd (scale * units (literal 2 10)) scale = Fin (units (literal 2 10)).
Proof. vm_compute; reflexivity. Qed.

(** With a rotation counted and a risk of [[0, 1]], the confidence is at
    least [0.6] and at most [1.0]. *)
Lemma explanation_confidence sr c plan rho :
  risk plan = Fin rho -> 0 <= rho <= scale -> 0 < rotation_count plan ->
  exists N, e_confidence (_compute_ai_explanation sr c plan) = Fin N
            /\ units (literal 6 10) <= N <= scale.
Proof.
  intros Er Hr Hc. pose proof scale_pos as Hp.
  unfold _compute_ai_explanation. cbv zeta. rewrite Er.
  destruct (Z.ltb_spec 0 (rotation_count plan)); [|lia]. cbn [andb].
  destruct lit_1 as [E1 _]. pose proof units_1 as U1.
  destruct lit_0_7 as [E7 R7]. destruct lit_0_3 as [E3 R3].
  destruct lit_0_6 as [E6 R6]. destruct lit_0_2 as [E2 R2].
  pose proof bound_0_3 as B3. pose proof bound_0_7 as B7. pose proof bound_0_8 as B8.
  pose proof bound_0_2 as [B2 _]. pose proof bound_0_6 as B6.
  destruct (fge (Fin rho) (literal 4 10)); cbn [e_confidence].
  - rewrite E3. cbn [fmul].
    remember (units (literal 3 10)) as u3 eqn:Hu3.
    assert (A0 : 0 * scale <= rho * u3) by nia.
    assert (A1 : rho * u3 <= scale * u3) by nia.
    pose proof prod_0_3 as P3. rewrite <- Hu3 in P3.
    destruct (rnd_below (rho * u3) (scale * u3) scale 0 u3 Hp repr_zero A0 A1 P3)
      as [m [Em Hm]].
    rewrite Em, E7. cbn [fadd].
    remember (units (literal 7 10)) as u7 eqn:Hu7.
    pose proof top_0_7 as T7. rewrite <- Hu3, <- Hu7 in T7.
    destruct (rnd_below (u7 + m) (u7 + u3) 1 u7 scale ltac:(lia) R7 ltac:(lia) ltac:(lia) T7)
      as [N [EN HN]].
    rewrite EN. unfold f0. rewrite E1, U1, !py_min_fin, py_max_fin.
    exists (Z.max 0 (Z.min scale (Z.min scale N))). split; [reflexivity|lia].
  - rewrite E2. cbn [fmul].
    remember (units (literal 2 10)) as u2 eqn:Hu2.
    assert (A0 : 0 * scale <= rho * u2) by nia.
    assert (A1 : rho * u2 <= scale * u2) by nia.
    pose proof prod_0_2 as P2. rewrite <- Hu2 in P2.
    destruct (rnd_below (rho * u2) (scale * u2) scale 0 u2 Hp repr_zero A0 A1 P2)
      as [m [Em Hm]].
    rewrite Em, E6. cbn [fadd].
    remember (units (literal 6 10)) as u6 eqn:Hu6.
    pose proof top_0_6 as T6. rewrite <- Hu2, <- Hu6 in T6.
    destruct (rnd_below (u6 + m) (u6 + u2) 1 u6 (units (literal 8 10))
                ltac:(lia) R6 ltac:(lia) ltac:(lia) T6) as [N [EN HN]].
    rewrite EN. unfold f0. rewrite E1, U1, py_min_fin, py_max_fin.
    exists (Z.max 0 (Z.min scale N)). split; [reflexivity|cbn [units]; lia].
Qed.

End ConfidenceFacts.
Import ConfidenceFacts.

(** X14: a decision the daemon returns is never [HOLD_STATE]: its plan
    counts at least one rotation, so the label is [MUTATE_TREE] when the
    risk is at least [0.4] and [INSERT_DECOY] otherwise; and its
    confidence is never below [0.6]. *)
Theorem decide_never_holds {M : PyMath} {R : RandomSource}
  (p : payload) (budget : float) (r : decision_record) (b' : float) :
  handle_decide p budget = Ok (r, b') ->
  1 <= rotation_count (d_rotation_plan r)
  /\ d_decision r =
       (if fge (risk (d_rotation_plan r)) (literal 4 10) then MUTATE_TREE else INSERT_DECOY)
  /\ d_decision r <> HOLD_STATE
  /\ fle (literal 6 10) (d_confidence r) = true
  /\ fle (d_confidence r) (literal 1 1) = true.
Proof.
  intros E. pose proof (decided_count _ _ _ _ E) as Hc.
  destruct (handle_decide_inv _ _ _ _ E) as [_ [_ [_ Hr]]]. cbv zeta in Hr.
  assert (Hd : d_decision r =
               if fge (risk (d_rotation_plan r)) (literal 4 10)
               then MUTATE_TREE else INSERT_DECOY).
  { rewrite Hr at 1. cbn [d_decision record_of]. rewrite explanation_decision.
    destruct (Z.ltb_spec 0 (rotation_count (d_rotation_plan r))); [reflexivity|lia]. }
  split; [exact Hc|]. split; [exact Hd|].
  split; [rewrite Hd; destruct (fge _ _); discriminate|].
  destruct (decided_risk _ _ _ _ E) as [Hk [Hs Hcc]].
  destruct (metrics_unit (match params p with Some d => d | None => [] end)) as [Us Uc].
  fold (request_metrics p) in Us, Uc. rewrite <- Hs in Us. rewrite <- Hcc in Uc.
  destruct (unit_interval_inv _ (risk_unit _ _ Us Uc)) as [rho [Erho Hrho]].
  rewrite <- Hk in Erho.
  destruct (explanation_confidence (fst (request_metrics p)) (snd (request_metrics p))
              (d_rotation_plan r) rho Erho Hrho ltac:(lia)) as [N [EN HN]].
  assert (Hconf : d_confidence r = Fin N) by (rewrite Hr; exact EN).
  rewrite Hconf. destruct lit_0_6 as [E6 _]. destruct lit_1 as [E1 _].
  pose proof units_1 as U1. unfold f1 in E1, U1.
  rewrite E6, E1, U1. split; apply fle_Fin; lia.
Qed.

Lemma decide_never_holds_witness :
  exists r b',
    handle_decide (M := reference_math) (R := mersenne_twister)
      (request [] None) ENTROPY_BUDGET = Ok (r, b')
    /\ 1 <= rotation_count (d_rotation_plan r)
    /\ d_decision r <> HOLD_STATE
    /\ fle (literal 6 10) (d_confidence r) = true.
Proof.
  destruct (handle_decide_total (M := reference_math) (RL := mersenne_twister_laws)
              (request [] None) ENTROPY_BUDGET ltac:(vm_compute; discriminate))
    as [r [b' E]].
  exists r, b'. split; [exact E|].
  destruct (decide_never_holds _ _ _ _ E) as [H1 [_ [H2 [H3 _]]]].
  split; [exact H1|]. split; [exact H2|exact H3].
Defined.

(** X15: the daemon gives no DECOY to a tree of 90 leaves or fewer: its
    metrics never leave [[0, 1]], so the decoy rate stays near [0.011]
    and [int(n * rate)] is [0]; in the LOCKED state as in the ACTIVE
    one. *)
Theorem small_trees_get_no_decoy {M : PyMath} {R : RandomSource} {RL : RandomSourceLaws R}
  (p : payload) (budget : float) (r : decision_record) (b' : float) :
  handle_decide p budget = Ok (r, b') ->
  leaf_count p <= 90 ->
  py_count DECOY (d_actions r) = 0
  /\ Forall (fun a => a <> DECOY) (d_actions r).
Proof.
  intros E Hn. pose proof (leaf_count_nonneg p) as H0.
  destruct (handle_decide_inv _ _ _ _ E) as [Ha _]. cbv zeta in Ha.
  destruct (generate_actions_spec _ _ _ _ _ H0 Ha)
    as [nd [nm [nr [E1 [_ [_ [H1 [H2 [H3 [H4 [HP _]]]]]]]]]]].
  destruct (metrics_unit (match params p with Some d => d | None => [] end)) as [Us Uc].
  fold (request_metrics p) in Us, Uc.
  destruct (unit_interval_inv _ Us) as [s [Es Hs]].
  destruct (unit_interval_inv _ Uc) as [cc [Ec Hc]].
  destruct (rate_normalised s cc Hs Hc) as [q [Eq Hq]].
  pose proof bound_0_01 as [B01 _].
  unfold num_decoy in E1. rewrite Es, Ec, Eq in E1.
  rewrite (no_decoy_upto_90 (leaf_count p) q ltac:(lia) ltac:(lia)) in E1.
  apply Ok_inj in E1. subst nd.
  assert (Hz : py_count DECOY (d_actions r) = 0).
  { rewrite (py_count_perm _ _ _ HP).
    destruct (blocks_count 0 nm nr (leaf_count p - 0 - nm - nr)) as [C1 _]; lia. }
  split; [exact Hz|].
  apply Forall_forall. intros a Ha' ->.
  unfold py_count in Hz.
  assert (Hin : In DECOY (filter (fun a => action_eqb a DECOY) (d_actions r)))
    by (apply filter_In; split; [exact Ha'|reflexivity]).
  destruct (filter _ (d_actions r)); [destruct Hin|cbn [List.length] in Hz; lia].
Qed.

Lemma small_trees_get_no_decoy_witness :
  exists r b',
    handle_decide (M := reference_math) (R := mersenne_twister)
      (request [[]; []; []] None) (Fin 0) = Ok (r, b')
    /\ py_count DECOY (d_actions r) = 0.
Proof.
  destruct (handle_decide_total (M := reference_math) (RL := mersenne_twister_laws)
              (request [[]; []; []] None) (Fin 0) ltac:(vm_compute; discriminate))
    as [r [b' E]].
  exists r, b'. split; [exact E|].
  apply (small_trees_get_no_decoy (RL := mersenne_twister_laws) _ _ _ _ E).
  vm_compute. discriminate.
Defined.


(** * The Merkle root of the test vectors *)
Module MerkleFacts.
Section WithHash.
Variable blake2b : bytes -> bytes.

Lemma next_level_nonempty l : l <> [] -> next_level blake2b l <> [].
Proof. destruct l as [|a [|b k]]; [contradiction| |]; discriminate. Qed.

(** The loop ends with one node, or with none when it starts with none. *)
Lemma merkle_loop_length l :
  List.length (merkle_loop blake2b l) = Nat.min 1 (List.length l).
Proof.
  functional induction (merkle_loop blake2b l) as [l Hl IH|l Hl].
  - apply Nat.ltb_lt in Hl. rewrite IH.
    assert (next_level blake2b l <> []).
    { apply next_level_nonempty. destruct l; [cbn in Hl; lia|discriminate]. }
    destruct (next_level blake2b l); [contradiction|]. cbn [List.length]. lia.
  - apply Nat.ltb_ge in Hl. lia.
Qed.

(** Every node the loop leaves was already there or is a digest. *)
Lemma next_level_forall (P : bytes -> Prop) l :
  (forall d, P (blake2b d)) -> Forall P (next_level blake2b l).
Proof.
  intros HP.
  assert (H : forall n l, (List.length l <= n)%nat -> Forall P (next_level blake2b l)).
  { induction n as [|n IH]; intros [|a [|b k]] Hl; cbn [next_level List.length] in *;
      try lia; try constructor; auto.
    apply IH. lia. }
  apply (H (List.length l)). lia.
Qed.

Lemma merkle_loop_forall (P : bytes -> Prop) l :
  (forall d, P (blake2b d)) -> Forall P l -> Forall P (merkle_loop blake2b l).
Proof.
  intros HP. functional induction (merkle_loop blake2b l) as [l Hl IH|l Hl]; intros Hf.
  - apply IH. apply next_level_forall. exact HP.
  - exact Hf.
Qed.

(** An odd level and the same level with its last node repeated go to
    the same next level. *)
Lemma next_level_dup l x :
  Nat.even (List.length l) = true ->
  next_level blake2b (l ++ [x]) = next_level blake2b (l ++ [x; x]).
Proof.
  assert (H : forall n l, (List.length l <= n)%nat -> Nat.even (List.length l) = true ->
                next_level blake2b (l ++ [x]) = next_level blake2b (l ++ [x; x])).
  { induction n as [|n IH]; intros [|a [|b k]] Hl He; cbn [List.length] in *;
      try lia; try reflexivity; try discriminate He.
    cbn [app next_level]. f_equal. apply IH; [lia|exact He]. }
  apply (H (List.length l)). lia.
Qed.

Lemma merkle_loop_step l :
  (1 < List.length l)%nat -> merkle_loop blake2b l = merkle_loop blake2b (next_level blake2b l).
Proof.
  intros H. rewrite merkle_loop_equation at 1.
  apply Nat.ltb_lt in H. rewrite H. reflexivity.
Qed.

End WithHash.
End MerkleFacts.
Import MerkleFacts.

(** X16: the Merkle root does not tell an odd number of leaves (three
    or more) from the same leaves with the last one repeated: the loop
    pairs a lone last node with itself. *)
Theorem merkle_root_repeats_last (blake2b : bytes -> bytes)
  (leaves : list bytes) (last_leaf : bytes) :
  leaves <> [] -> Nat.even (List.length leaves) = true ->
  _calculate_merkle_root blake2b (leaves ++ [last_leaf])
  = _calculate_merkle_root blake2b (leaves ++ [last_leaf; last_leaf]).
Proof.
  intros Hne He.
  destruct leaves as [|a [|b k]]; [contradiction|discriminate He|].
  unfold _calculate_merkle_root. cbn [app]. cbv zeta.
  change (a :: b :: k ++ [last_leaf]) with ((a :: b :: k) ++ [last_leaf]).
  change (a :: b :: k ++ [last_leaf; last_leaf])
    with ((a :: b :: k) ++ [last_leaf; last_leaf]).
  rewrite !map_app. cbn [map].
  rewrite (merkle_loop_step blake2b (_ ++ [blake2b last_leaf]))
    by (rewrite length_app; cbn [List.length]; lia).
  rewrite (merkle_loop_step blake2b (_ ++ [blake2b last_leaf; blake2b last_leaf]))
    by (rewrite length_app; cbn [List.length]; lia).
  rewrite next_level_dup; [reflexivity|].
  cbn [List.length]. rewrite length_map. exact He.
Qed.

(** A toy digest, to run the loop: the first two bytes of the padded
    input. *)
Definition toy_digest (d : bytes) : bytes := firstn 2 (d ++ [Byte.x01; Byte.x02]).

Lemma merkle_root_repeats_last_witness :
  _calculate_merkle_root toy_digest [[Byte.x0a]; [Byte.x0b]; [Byte.x0c]]
  = _calculate_merkle_root toy_digest [[Byte.x0a]; [Byte.x0b]; [Byte.x0c]; [Byte.x0c]].
Proof.
  apply (merkle_root_repeats_last toy_digest [[Byte.x0a]; [Byte.x0b]] [Byte.x0c]).
  - discriminate.
  - reflexivity.
Defined.

(** X17: the loop of [_calculate_merkle_root] ends with exactly one
    node: for every list of leaves a root is returned, 32 bytes long
    when the digests are.  The root of no leaf is 32 zero bytes, the
    root of a single leaf is its digest, and the root of two leaves is
    the digest of their two digests, one after the other. *)
Theorem merkle_root_is_digest (blake2b : bytes -> bytes) (leaves : list bytes) :
  (forall d, List.length (blake2b d) = 32%nat) ->
  (exists root, _calculate_merkle_root blake2b leaves = Ok root
                /\ List.length root = 32%nat)
  /\ (leaves = [] -> _calculate_merkle_root blake2b leaves = Ok (repeat Byte.x00 32))
  /\ (forall leaf, leaves = [leaf] ->
        _calculate_merkle_root blake2b leaves = Ok (blake2b leaf))
  /\ (forall left_ right_, leaves = [left_; right_] ->
        _calculate_merkle_root blake2b leaves
        = Ok (blake2b (blake2b left_ ++ blake2b right_))).
Proof.
  intros H32. split; [|split; [|split]].
  - destruct leaves as [|a k].
    + exists (repeat Byte.x00 32). split; [reflexivity|apply repeat_length].
    + unfold _calculate_merkle_root. cbv zeta.
      pose proof (merkle_loop_length blake2b (map blake2b (a :: k))) as Hl.
      pose proof (merkle_loop_forall blake2b (fun d => List.length d = 32%nat)
                    (map blake2b (a :: k)) H32) as Hf.
      assert (Hm : Forall (fun d => List.length d = 32%nat) (map blake2b (a :: k))).
      { apply Forall_forall. intros d Hd. apply in_map_iff in Hd.
        destruct Hd as [x [<- _]]. apply H32. }
      specialize (Hf Hm).
      destruct (merkle_loop blake2b (map blake2b (a :: k))) as [|root [|y rest]];
        cbn [List.length map] in Hl; try lia.
      exists root. split; [reflexivity|]. inversion Hf. assumption.
  - intros ->. reflexivity.
  - intros leaf ->. unfold _calculate_merkle_root. cbv zeta. cbn [map].
    rewrite merkle_loop_equation. reflexivity.
  - intros left_ right_ ->. unfold _calculate_merkle_root. cbv zeta. cbn [map].
    rewrite merkle_loop_equation. cbn [List.length Nat.ltb Nat.leb next_level].
    rewrite merkle_loop_equation. reflexivity.
Qed.

Lemma merkle_root_is_digest_witness :
  _calculate_merkle_root (fun _ => repeat Byte.xff 32) [] = Ok (repeat Byte.x00 32)
  /\ exists root,
       _calculate_merkle_root (fun _ => repeat Byte.xff 32) [[Byte.x0a]; [Byte.x0b]]
       = Ok root
       /\ List.length root = 32%nat.
Proof.
  split.
  - destruct (merkle_root_is_digest (fun _ => repeat Byte.xff 32) [])
      as [_ [H _]]; [intros d; apply repeat_length|].
    exact (H eq_refl).
  - apply (merkle_root_is_digest (fun _ => repeat Byte.xff 32)).
    intros d. apply repeat_length.
Defined.

(** * The comparison of squid_utils *)
Module CompareFacts.

Lemma ord_inj x y : ord x = ord y -> x = y.
Proof.
  unfold ord. intros H. apply N2Z.inj in H.
  rewrite <- (ascii_N_embedding x), <- (ascii_N_embedding y), H. reflexivity.
Qed.

Lemma xor_fold_zero a :
  forall b r, String.length a = String.length b ->
              (xor_fold r a b = 0 <-> r = 0 /\ a = b).
Proof.
  induction a as [|x a IH]; intros [|y b] r Hl; cbn [String.length] in Hl;
    try discriminate Hl; cbn [xor_fold].
  - split; [intros ->; split; reflexivity|intros [-> _]; reflexivity].
  - rewrite IH by (injection Hl as Hl; exact Hl).
    rewrite Z.lor_eq_0_iff. split.
    + intros [[Hr Hx] ->]. split; [exact Hr|].
      f_equal. apply ord_inj. apply Z.lxor_eq. exact Hx.
    + intros [Hr H]. injection H as -> ->.
      split; [split; [exact Hr|apply Z.lxor_nilpotent]|reflexivity].
Qed.

End CompareFacts.
Import CompareFacts.

(** X18: [secure_compare] decides equality: it answers [True] exactly
    when the two strings are the same, whether the length test or the
    accumulated XOR tells them apart. *)
Theorem secure_compare_correct (a b : string) :
  secure_compare a b = true <-> a = b.
Proof.
  unfold secure_compare.
  destruct (Z.eqb_spec (Z.of_nat (String.length a)) (Z.of_nat (String.length b)))
    as [Hl|Hl]; cbn [negb].
  - rewrite Z.eqb_eq, xor_fold_zero by lia.
    split; [intros [_ H]; exact H|intros H; split; [reflexivity|exact H]].
  - split; [discriminate|]. intros ->. contradiction Hl. reflexivity.
Qed.
